(** * Consortium v1 proof-of-authority engine and chain configuration

    A shallow embedding of [params/config.go] (fork schedule, compatibility
    check) and [consensus/consortium/v1/consortium.go] (header verification,
    sealing, finalization) together with the properties the specification
    states about them.

    Conventions.
    - A [*big.Int] is an [option Z]: [None] is the nil pointer.
    - A [uint64] is a [Z] kept in [0, 2^64); every operation that can leave
      that range is wrapped explicitly with [wrap64].
    - Go functions that can panic return in the [go] monad. *)

From Stdlib Require Import ZArith Bool List Lia.
From Stdlib Require Import Strings.Byte Strings.Ascii.
From stdpp Require Import base numbers option list strings countable gmap fin_maps sorting.

Local Open Scope Z_scope.

(** ** Machine integers *)

Definition two64 : Z := 2 ^ 64.

Definition wrap64 (z : Z) : Z := z mod two64.

(** [Uint64] of [math/big]: the low 64 bits of the magnitude. *)
Definition Uint64 (x : Z) : Z := wrap64 (Z.abs x).

Definition add64 (a b : Z) : Z := wrap64 (a + b).
Definition sub64 (a b : Z) : Z := wrap64 (a - b).

(** ** Chain configuration ([params/config.go]) *)

Module Params.

Record ChainConfig := {
  ChainID : option Z;
  HomesteadBlock : option Z;
  DAOForkBlock : option Z;
  DAOForkSupport : bool;
  EIP150Block : option Z;
  EIP155Block : option Z;
  EIP158Block : option Z;
  ByzantiumBlock : option Z;
  ConstantinopleBlock : option Z;
  PetersburgBlock : option Z;
  IstanbulBlock : option Z;
  MuirGlacierBlock : option Z;
  BerlinBlock : option Z;
  LondonBlock : option Z;
  ArrowGlacierBlock : option Z;
  OdysseusBlock : option Z;
  FenixBlock : option Z;
  ConsortiumV2Block : option Z;
  PuffyBlock : option Z;
  BubaBlock : option Z;
  OlekBlock : option Z;
  ShillinBlock : option Z;
  AntennaBlock : option Z;
  MikoBlock : option Z;
  TrippBlock : option Z;
  AaronBlock : option Z;
  ShanghaiBlock : option Z;
  CancunBlock : option Z;
  VenokiBlock : option Z;
  PragueBlock : option Z;
  (* [ConsortiumV2Contracts != nil] *)
  HasConsortiumV2Contracts : bool
}.

(** ConsortiumConfig: the engine parameters. *)
Record ConsortiumConfig := {
  Period : Z;
  Epoch : Z;
  EpochV2 : Z
}.

(** isForked returns whether a fork scheduled at block s is active at the
    given head block. *)
Definition isForked (s head : option Z) : bool :=
  match s, head with
  | Some s', Some head' => s' <=? head'
  | _, _ => false
  end.

Definition configNumEqual (x y : option Z) : bool :=
  match x, y with
  | None, None => true
  | None, Some _ => false
  | Some _, None => false
  | Some x', Some y' => x' =? y'
  end.

(** isForkIncompatible returns true if a fork scheduled at s1 cannot be
    rescheduled to block s2 because head is already past the fork. *)
Definition isForkIncompatible (s1 s2 head : option Z) : bool :=
  (isForked s1 head || isForked s2 head) && negb (configNumEqual s1 s2).

Record ConfigCompatError := {
  What : string;
  StoredConfig : option Z;
  NewConfig : option Z;
  RewindTo : Z
}.

(** The [switch] of newCompatError that picks the block to rewind below. *)
Definition rewindBlock (storedblock newblock : option Z) : option Z :=
  match storedblock, newblock with
  | None, _ => newblock
  | Some _, None => storedblock
  | Some s, Some n => if s <? n then storedblock else newblock
  end.

Definition newCompatError (what : string) (storedblock newblock : option Z)
  : ConfigCompatError :=
  let rew := rewindBlock storedblock newblock in
  {| What := what;
     StoredConfig := storedblock;
     NewConfig := newblock;
     RewindTo := match rew with
                 | Some r => if 0 <? r then sub64 (Uint64 r) 1 else 0
                 | None => 0
                 end |}.

Definition IsHomestead (c : ChainConfig) (num : option Z) : bool :=
  isForked c.(HomesteadBlock) num.

Definition IsDAOFork (c : ChainConfig) (num : option Z) : bool :=
  isForked c.(DAOForkBlock) num.

Definition IsEIP158 (c : ChainConfig) (num : option Z) : bool :=
  isForked c.(EIP158Block) num.

Definition IsConstantinople (c : ChainConfig) (num : option Z) : bool :=
  isForked c.(ConstantinopleBlock) num.

(** IsPetersburg returns whether num is either
    - equal to or greater than the PetersburgBlock fork block,
    - OR is nil, and Constantinople is active. *)
Definition IsPetersburg (c : ChainConfig) (num : option Z) : bool :=
  isForked c.(PetersburgBlock) num
  || (match c.(PetersburgBlock) with None => true | Some _ => false end)
     && isForked c.(ConstantinopleBlock) num.

Definition IsFenix (c : ChainConfig) (num : option Z) : bool :=
  isForked c.(FenixBlock) num.

Definition IsConsortiumV2 (c : ChainConfig) (num : option Z) : bool :=
  isForked c.(ConsortiumV2Block) num.

(** IsOnConsortiumV2 returns whether the num is equals to the consortiumV2
    fork block. *)
Definition IsOnConsortiumV2 (c : ChainConfig) (num : option Z) : bool :=
  configNumEqual c.(ConsortiumV2Block) num.

(** One [if isForkIncompatible(..) { return newCompatError(..) }] step. *)
Definition forkCheck (what : string) (s1 s2 head : option Z)
    (rest : option ConfigCompatError) : option ConfigCompatError :=
  if isForkIncompatible s1 s2 head then Some (newCompatError what s1 s2)
  else rest.

Definition checkCompatible (c newcfg : ChainConfig) (head : option Z)
  : option ConfigCompatError :=
  forkCheck "Homestead fork block" c.(HomesteadBlock) newcfg.(HomesteadBlock) head (
  forkCheck "DAO fork block" c.(DAOForkBlock) newcfg.(DAOForkBlock) head (
  if IsDAOFork c head && negb (eqb c.(DAOForkSupport) newcfg.(DAOForkSupport))
  then Some (newCompatError "DAO fork support flag" c.(DAOForkBlock) newcfg.(DAOForkBlock))
  else
  forkCheck "EIP150 fork block" c.(EIP150Block) newcfg.(EIP150Block) head (
  forkCheck "EIP155 fork block" c.(EIP155Block) newcfg.(EIP155Block) head (
  forkCheck "EIP158 fork block" c.(EIP158Block) newcfg.(EIP158Block) head (
  if IsEIP158 c head && negb (configNumEqual c.(ChainID) newcfg.(ChainID))
  then Some (newCompatError "EIP158 chain ID" c.(EIP158Block) newcfg.(EIP158Block))
  else
  forkCheck "Byzantium fork block" c.(ByzantiumBlock) newcfg.(ByzantiumBlock) head (
  forkCheck "Constantinople fork block" c.(ConstantinopleBlock) newcfg.(ConstantinopleBlock) head (
  (* the only case where Petersburg may be set in the past is if it is equal
     to Constantinople *)
  if isForkIncompatible c.(PetersburgBlock) newcfg.(PetersburgBlock) head
     && isForkIncompatible c.(ConstantinopleBlock) newcfg.(PetersburgBlock) head
  then Some (newCompatError "Petersburg fork block" c.(PetersburgBlock) newcfg.(PetersburgBlock))
  else
  forkCheck "Istanbul fork block" c.(IstanbulBlock) newcfg.(IstanbulBlock) head (
  forkCheck "Muir Glacier fork block" c.(MuirGlacierBlock) newcfg.(MuirGlacierBlock) head (
  forkCheck "Berlin fork block" c.(BerlinBlock) newcfg.(BerlinBlock) head (
  forkCheck "London fork block" c.(LondonBlock) newcfg.(LondonBlock) head (
  forkCheck "Arrow Glacier fork block" c.(ArrowGlacierBlock) newcfg.(ArrowGlacierBlock) head (
  forkCheck "Odysseus fork block" c.(OdysseusBlock) newcfg.(OdysseusBlock) head (
  forkCheck "Fenix fork block" c.(FenixBlock) newcfg.(FenixBlock) head (
  forkCheck "Consortium v2 fork block" c.(ConsortiumV2Block) newcfg.(ConsortiumV2Block) head (
  forkCheck "Puffy fork block" c.(PuffyBlock) newcfg.(PuffyBlock) head (
  forkCheck "Buba fork block" c.(BubaBlock) newcfg.(BubaBlock) head (
  forkCheck "Olek fork block" c.(OlekBlock) newcfg.(OlekBlock) head (
  forkCheck "Shillin fork block" c.(ShillinBlock) newcfg.(ShillinBlock) head (
  forkCheck "Antenna fork block" c.(AntennaBlock) newcfg.(AntennaBlock) head (
  forkCheck "Miko fork block" c.(MikoBlock) newcfg.(MikoBlock) head (
  forkCheck "Tripp fork block" c.(TrippBlock) newcfg.(TrippBlock) head (
  forkCheck "Aaron fork block" c.(AaronBlock) newcfg.(AaronBlock) head (
  forkCheck "Shanghai fork block" c.(ShanghaiBlock) newcfg.(ShanghaiBlock) head (
  forkCheck "Cancun fork block" c.(CancunBlock) newcfg.(CancunBlock) head (
  forkCheck "Venoki fork block" c.(VenokiBlock) newcfg.(VenokiBlock) head (
  forkCheck "Prague fork block" c.(PragueBlock) newcfg.(PragueBlock) head
  None)))))))))))))))))))))))))).

(** The [for] loop of CheckCompatible: [bhead] and [lasterr] are its two
    mutable variables; [None] means the fuel ran out before a [break]. *)
Fixpoint CheckCompatible_loop (fuel : nat) (c newcfg : ChainConfig)
    (bhead : Z) (lasterr : option ConfigCompatError)
  : option (option ConfigCompatError) :=
  match fuel with
  | O => None
  | S fuel' =>
      match checkCompatible c newcfg (Some bhead) with
      | None => Some lasterr
      | Some err =>
          if match lasterr with
             | Some l => err.(RewindTo) =? l.(RewindTo)
             | None => false
             end
          then Some lasterr
          else CheckCompatible_loop fuel' c newcfg err.(RewindTo) (Some err)
      end
  end.

(** CheckCompatible checks whether scheduled fork transitions have been
    imported with a mismatching chain configuration.  The loop moves the head
    down at every round, so [height + 2] rounds always reach a [break]. *)
Definition CheckCompatible (c newcfg : ChainConfig) (height : Z)
  : option (option ConfigCompatError) :=
  CheckCompatible_loop (2 + Z.to_nat height) c newcfg height None.

End Params.

(** ** Go runtime: computations that may panic *)

Inductive go (A : Type) : Type :=
| Ret (a : A)
| Panic (reason : string).

Arguments Ret {A} a.
Arguments Panic {A} reason.

Definition go_bind {A B : Type} (f : A -> go B) (m : go A) : go B :=
  match m with
  | Ret a => f a
  | Panic r => Panic r
  end.

#[global] Instance go_ret : MRet go := fun A a => Ret a.
#[global] Instance go_mbind : MBind go := fun A B f m => go_bind f m.

Definition nilDeref {A : Type} : go A :=
  Panic "invalid memory address or nil pointer dereference".

(** Integer division and remainder on [uint64]; a zero divisor panics. *)
Definition div64 (a b : Z) : go Z :=
  if b =? 0 then Panic "integer divide by zero" else Ret (a / b).

Definition mod64 (a b : Z) : go Z :=
  if b =? 0 then Panic "integer divide by zero" else Ret (a mod b).

(** ** Bytes and slices *)

#[global] Instance byte_eq_dec : EqDecision byte := Byte.byte_eq_dec.

#[global] Program Instance byte_countable : Countable byte :=
  inj_countable Byte.to_N Byte.of_N _.
Next Obligation. intros b. apply Byte.of_to_N. Qed.

Definition len {A : Type} (l : list A) : Z := Z.of_nat (length l).

(** The slice expression [b[lo:hi]]; out-of-range bounds panic. *)
Definition slice {A : Type} (b : list A) (lo hi : Z) : go (list A) :=
  if (0 <=? lo) && (lo <=? hi) && (hi <=? len b)
  then Ret (take (Z.to_nat (hi - lo)) (drop (Z.to_nat lo) b))
  else Panic "slice bounds out of range".

(** [b[:hi]] and [b[lo:]]. *)
Definition sliceTo {A : Type} (b : list A) (hi : Z) : go (list A) :=
  slice b 0 hi.

Definition sliceFrom {A : Type} (b : list A) (lo : Z) : go (list A) :=
  slice b lo (len b).

(** The builtin [copy(dst, src)]: overwrites the first
    [min(len(dst), len(src))] elements of [dst]. *)
Definition copy {A : Type} (dst src : list A) : list A :=
  take (length dst) src ++ drop (length src) dst.

(** ** The consensus engine ([consensus/consortium/v1/consortium.go]) *)

Module V1.

Import Params.

Definition Hash := list byte.
Definition Address := list byte.

Definition HashLength : nat := 32.
Definition AddressLength : Z := 20.

(** [common.Hash{}] and [common.Address{}]. *)
Definition zeroHash : Hash := replicate HashLength x00.
Definition zeroAddress : Address := replicate (Z.to_nat AddressLength) x00.

Definition extraVanity : Z := 32.
(** [consortiumCommon.ExtraSeal], also [crypto.SignatureLength]. *)
Definition ExtraSeal : Z := 65.
Definition SignatureLength : Z := 65.

Definition emptyNonce : list byte := replicate 8%nat x00.

Definition diffInTurn : Z := 7.
Definition diffNoTurn : Z := 3.

Inductive error : Type :=
| ErrUnknownBlock
| ErrMissingVanity
| ErrMissingSignature
| ErrInvalidCheckpointSigners
| ErrInvalidMixDigest
| ErrInvalidUncleHash
| ErrInvalidDifficulty
| ErrWrongDifficulty
| ErrRecentlySigned
| ErrFutureBlock
| ErrUnknownAncestor
| errInvalidNonce
| errExtraSigners
| errInvalidTimestamp
| errUnauthorizedSigner
| errWrongCoinbase
| errorsNew (msg : string).

#[global] Instance error_eq_dec : EqDecision error.
Proof. solve_decision. Defined.

Record Header := {
  ParentHash : Hash;
  UncleHash : Hash;
  Coinbase : Address;
  Root : Hash;
  TxHash : Hash;
  ReceiptHash : Hash;
  Bloom : list byte;
  Difficulty : option Z;
  Number : option Z;
  GasLimit : Z;
  GasUsed : Z;
  Time : Z;
  Extra : list byte;
  MixDigest : Hash;
  Nonce : list byte
}.

(** The snapshot record of [snapshot.go], as this file reads it. *)
Record Snapshot := {
  SnapNumber : Z;
  SnapHash : Hash;
  SignerSet : gset Address;
  SignerList : list Address;
  Recents : gmap Z Address
}.

Record ChainHeaderReader := {
  Config : ChainConfig;
  GetHeader : Hash -> Z -> option Header;
  GetHeaderByNumber : Z -> option Header
}.

(** What [rlp.Encode] is handed: byte strings (arrays and slices), big
    integers and [uint64]s. *)
Inductive rlpItem : Type :=
| RlpBytes (b : list byte)
| RlpBig (z : option Z)
| RlpUint (n : Z).

(** The collaborators of the engine that live outside this file: the clock,
    hashing, RLP, signature recovery, the signature cache, snapshot
    retrieval (whose [apply] step is in [snapshot.go]), the helpers of
    [consortiumCommon] and the system-contract integrator. *)
Class Externals := {
  StateDB : Type;
  Transaction : Type;
  Receipt : Type;
  SigCache : Type;
  (* time.Now().Unix() *)
  timeNow : Z;
  keccak256 : list byte -> list byte;
  rlpEncode : list rlpItem -> list byte + string;
  cryptoEcrecover : list byte -> list byte -> list byte + error;
  headerHash : Header -> Hash;
  (* types.CalcUncleHash(nil) *)
  uncleHash : Hash;
  sigGet : SigCache -> Hash -> option Address * SigCache;
  sigAdd : SigCache -> Hash -> Address -> SigCache;
  VerifyForkHashes : ChainConfig -> Header -> bool -> option error;
  HexToAddress : string -> Address;
  ExtractAddressFromBytes : list byte -> list Address;
  CompareSignersLists : list Address -> list Address -> bool;
  SignerInList : Address -> list Address -> bool;
  snapshot : ChainHeaderReader -> SigCache -> Z -> Hash -> list Header ->
             (Snapshot + error) * SigCache;
  IntermediateRoot : StateDB -> bool -> Hash
}.

Section Engine.

Context `{!Externals}.

Record ApplyTransactOpts := {
  State : StateDB;
  OptsHeader : Header;
  OptsChainConfig : ChainConfig;
  Txs : list Transaction;
  Receipts : list Receipt;
  (* nil when mining *)
  ReceivedTxs : option (list Transaction);
  UsedGas : Z;
  Mining : bool
}.

(** The system-contract integrator, seen through the one method used here;
    it returns the options with the buffers it has updated. *)
Record ContractIntegrator := {
  WrapUpEpoch : ApplyTransactOpts -> option error * ApplyTransactOpts
}.

(** The engine.  Its signature cache is threaded through the functions
    below as an explicit [SigCache] argument and result. *)
Record Consortium := {
  chainConfig : ChainConfig;
  config : ConsortiumConfig;
  val : Address;
  signFn : option (Address -> list byte -> list byte + error);
  contract : option ContractIntegrator;
  getSCValidators : option (list Address + error);
  getFenixValidators : option (list Address + error);
  skipCheckpointHeaderCheck : bool
}.

(** *** Header codec and seal hash *)

Definition encodeSigHeader (header : Header) : go (list byte) :=
  (* Yes, this will panic if extra is too short *)
  extra ← sliceTo header.(Extra) (len header.(Extra) - SignatureLength);
  match rlpEncode [
    RlpBytes header.(ParentHash);
    RlpBytes header.(UncleHash);
    RlpBytes header.(Coinbase);
    RlpBytes header.(Root);
    RlpBytes header.(TxHash);
    RlpBytes header.(ReceiptHash);
    RlpBytes header.(Bloom);
    RlpBig header.(Difficulty);
    RlpBig header.(Number);
    RlpUint header.(GasLimit);
    RlpUint header.(GasUsed);
    RlpUint header.(Time);
    RlpBytes extra;
    RlpBytes header.(MixDigest);
    RlpBytes header.(Nonce)
  ] with
  | inl bytes => Ret bytes
  | inr err => Panic ("can't encode: " +:+ err)
  end.

(** SealHash returns the hash of a block prior to it being sealed. *)
Definition SealHash (header : Header) : go Hash :=
  preimage ← encodeSigHeader header;
  Ret (keccak256 preimage).

Definition consortiumRLP (header : Header) : go (list byte) :=
  encodeSigHeader header.

(** ecrecover extracts the Ethereum account address from a signed header. *)
Definition Ecrecover (header : Header) (sigcache : SigCache)
  : go (Address * option error * SigCache) :=
  (* If the signature's already cached, return that *)
  let hash := headerHash header in
  match sigGet sigcache hash with
  | (Some address, sigcache) => Ret (address, None, sigcache)
  | (None, sigcache) =>
      (* Retrieve the signature from the header extra-data *)
      if len header.(Extra) <? ExtraSeal
      then Ret (zeroAddress, Some ErrMissingSignature, sigcache)
      else
        signature ← sliceFrom header.(Extra) (len header.(Extra) - ExtraSeal);
        (* Recover the public key and the Ethereum address *)
        sealhash ← SealHash header;
        match cryptoEcrecover sealhash signature with
        | inr err => Ret (zeroAddress, Some err, sigcache)
        | inl pubkey =>
            pub ← sliceFrom pubkey 1;
            digest ← sliceFrom (keccak256 pub) 12;
            let signer := copy zeroAddress digest in
            Ret (signer, None, sigAdd sigcache hash signer)
        end
  end.

(** Author implements consensus.Engine. *)
Definition Author (c : Consortium) (header : Header) (sigcache : SigCache)
  : go (Address * option error * SigCache) :=
  Ecrecover header sigcache.

(** *** Turns *)

(** Check if it is the turn of the signer from the last checkpoint. *)
Definition signerInTurn (c : Consortium) (signer : Address) (number : Z)
    (validators : list Address) : go bool :=
  q ← div64 number c.(config).(Epoch);
  let lastCheckpoint := wrap64 (q * c.(config).(Epoch)) in
  index ← mod64 (sub64 number lastCheckpoint) (len validators);
  match validators !! Z.to_nat index with
  | Some v => Ret (bool_decide (v = signer))
  | None => Panic "index out of range"
  end.

Definition doCalcDifficulty (c : Consortium) (signer : Address) (number : Z)
    (validators : list Address) : go Z :=
  inturn ← signerInTurn c signer number validators;
  Ret (if inturn : bool then diffInTurn else diffNoTurn).

(** [x.Cmp(y) != 0] on a possibly nil receiver. *)
Definition cmpNe (x : option Z) (y : Z) : go bool :=
  match x with
  | None => nilDeref
  | Some x' => Ret (negb (x' =? y))
  end.

(** [header.Number.Uint64()]. *)
Definition numberUint64 (header : Header) : go Z :=
  match header.(Number) with
  | None => nilDeref
  | Some n => Ret (Uint64 n)
  end.

(** *** Seal verification *)

(** verifySeal checks whether the signature contained in the header
    satisfies the consensus protocol requirements. *)
Definition verifySeal (c : Consortium) (chain : ChainHeaderReader)
    (header : Header) (parents : list Header) (sigcache : SigCache)
  : go (option error * SigCache) :=
  (* Verifying the genesis block is not supported *)
  number ← numberUint64 header;
  if number =? 0 then Ret (Some ErrUnknownBlock, sigcache) else
  (* Retrieve the snapshot needed to verify this header and cache it *)
  match snapshot chain sigcache (sub64 number 1) header.(ParentHash) parents with
  | (inr err, sigcache) => Ret (Some err, sigcache)
  | (inl snap, sigcache) =>
      (* Resolve the authorization key and check against signers *)
      '(signer, err, sigcache) ← Ecrecover header sigcache;
      match err with
      | Some err => Ret (Some err, sigcache)
      | None =>
          if negb (bool_decide (signer = header.(Coinbase)))
          then Ret (Some errWrongCoinbase, sigcache) else
          let validators := snap.(SignerList) in
          if negb (bool_decide (signer ∈ snap.(SignerSet)))
          then Ret (Some errUnauthorizedSigner, sigcache) else
          (* Ensure that the difficulty corresponds to the turn-ness of the
             signer *)
          inturn ← signerInTurn c signer number validators;
          wrong ← (if inturn : bool then cmpNe header.(Difficulty) diffInTurn
                   else Ret false);
          if wrong : bool then Ret (Some ErrWrongDifficulty, sigcache) else
          wrong ← (if negb inturn then cmpNe header.(Difficulty) diffNoTurn
                   else Ret false);
          if wrong : bool then Ret (Some ErrWrongDifficulty, sigcache) else
          Ret (None, sigcache)
      end
  end.

(** VerifySeal implements consensus.Engine. *)
Definition VerifySeal (c : Consortium) (chain : ChainHeaderReader)
    (header : Header) (sigcache : SigCache) : go (option error * SigCache) :=
  verifySeal c chain header [] sigcache.

(** *** Validator lists *)

(** [int64(number)] for a [uint64]. *)
Definition toInt64 (n : Z) : Z :=
  if n <? 2 ^ 63 then n else n - two64.

(** getValidatorsFromGenesis gets the list of validators from the genesis
    block. *)
Definition getValidatorsFromGenesis (c : Consortium)
  : go (list Address * option error) :=
  match c.(chainConfig).(ChainID) with
  | None => nilDeref
  | Some id =>
      if id =? 2020 then
        Ret (HexToAddress <$> [
          "0x000000000000000000000000f224beff587362a88d859e899d0d80c080e1e812";
          "0x00000000000000000000000011360eacdedd59bc433afad4fc8f0417d1fbebab";
          "0x00000000000000000000000070bb1fb41c8c42f6ddd53a708e2b82209495e455"
        ], None)
      else if id =? 2021 then
        Ret (HexToAddress <$> [
          "0x0000000000000000000000004a4bc674a97737376cfe990ae2fe0d2b6e738393";
          "0x000000000000000000000000b6bc5bc0410773a3f86b1537ce7495c52e38f88b"
        ], None)
      else
        Ret ([], Some (errorsNew
          "no validator set for this chain only support Mainnet & Testnet"))
  end.

(** Read the validator list from contract. *)
Definition getValidatorsFromContract (c : Consortium)
    (chain : ChainHeaderReader) (number : Z) : list Address * option error :=
  if IsFenix chain.(Config) (Some (toInt64 number)) then
    match c.(getFenixValidators) with
    | None => ([], Some (errorsNew "No getFenixValidators function supplied"))
    | Some (inl vs) => (vs, None)
    | Some (inr err) => ([], Some err)
    end
  else
    match c.(getSCValidators) with
    | None => ([], Some (errorsNew "No getSCValidators function supplied"))
    | Some (inl vs) => (vs, None)
    | Some (inr err) => ([], Some err)
    end.

(** The last header of [recents] whose number is [lastCheckpoint]. *)
Fixpoint findCheckpoint (recents : list Header) (lastCheckpoint : Z)
    (found : option Header) : go (option Header) :=
  match recents with
  | [] => Ret found
  | parent :: rest =>
      n ← numberUint64 parent;
      findCheckpoint rest lastCheckpoint
        (if n =? lastCheckpoint then Some parent else found)
  end.

(** getValidatorsFromLastCheckpoint gets the list of validator in the Extra
    field in the last checkpoint. *)
Definition getValidatorsFromLastCheckpoint (c : Consortium)
    (chain : ChainHeaderReader) (number : Z) (recents : list Header)
  : go (list Address * option error) :=
  q ← div64 number c.(config).(Epoch);
  let lastCheckpoint := wrap64 (q * c.(config).(Epoch)) in
  if lastCheckpoint =? 0 then getValidatorsFromGenesis c else
  found ← findCheckpoint recents lastCheckpoint None;
  let header := match found with
                | Some h => Some h
                | None => chain.(GetHeaderByNumber) lastCheckpoint
                end in
  match header with
  | None => nilDeref
  | Some header =>
      let extraSuffix := len header.(Extra) - ExtraSeal in
      bytes ← slice header.(Extra) extraVanity extraSuffix;
      Ret (ExtractAddressFromBytes bytes, None)
  end.

(** *** Header verification *)

(** The checkpoint branch of verifyCascadingFields: compare the signer list
    of the header with the one of the contract. *)
Definition verifyCheckpointSigners (c : Consortium)
    (chain : ChainHeaderReader) (header : Header) (number : Z)
  : go (option error) :=
  if c.(skipCheckpointHeaderCheck) then Ret None else
  match getValidatorsFromContract c chain (sub64 number 1) with
  | (_, Some err) => Ret (Some err)
  | (signers, None) =>
      let extraSuffix := len header.(Extra) - ExtraSeal in
      bytes ← slice header.(Extra) extraVanity extraSuffix;
      let checkpointHeaders := ExtractAddressFromBytes bytes in
      if negb (CompareSignersLists checkpointHeaders signers)
      then Ret (Some ErrInvalidCheckpointSigners)
      else Ret None
  end.

(** verifyCascadingFields verifies all the header fields that are not
    standalone, rather depend on a batch of previous headers. *)
Definition verifyCascadingFields (c : Consortium) (chain : ChainHeaderReader)
    (header : Header) (parents : list Header) (sigcache : SigCache)
  : go (option error * SigCache) :=
  (* The genesis block is the always valid dead-end *)
  number ← numberUint64 header;
  if number =? 0 then Ret (None, sigcache) else
  (* Ensure that the block's timestamp isn't too close to its parent *)
  let parent := if 0 <? len parents then last parents
                else chain.(GetHeader) header.(ParentHash) (sub64 number 1) in
  match parent with
  | None => Ret (Some ErrUnknownAncestor, sigcache)
  | Some parent =>
      pnumber ← numberUint64 parent;
      if negb (pnumber =? sub64 number 1)
         || negb (bool_decide (headerHash parent = header.(ParentHash)))
      then Ret (Some ErrUnknownAncestor, sigcache) else
      if header.(Time) <? add64 parent.(Time) c.(config).(Period)
      then Ret (Some errInvalidTimestamp, sigcache) else
      (* If the block is a checkpoint block, verify the signer list *)
      m ← mod64 number c.(config).(Epoch);
      if negb (m =? 0) then verifySeal c chain header parents sigcache else
      bad ← verifyCheckpointSigners c chain header number;
      match bad with
      | Some err => Ret (Some err, sigcache)
      | None =>
          (* All basic checks passed, verify the seal and return *)
          verifySeal c chain header parents sigcache
      end
  end.

(** VerifyHeaderAndParents checks whether a header conforms to the consensus
    rules. *)
Definition VerifyHeaderAndParents (c : Consortium) (chain : ChainHeaderReader)
    (header : Header) (parents : list Header) (sigcache : SigCache)
  : go (option error * SigCache) :=
  match header.(Number) with
  | None => Ret (Some ErrUnknownBlock, sigcache)
  | Some num =>
      let number := Uint64 num in
      (* Don't waste time checking blocks from the future *)
      if wrap64 timeNow <? header.(Time)
      then Ret (Some ErrFutureBlock, sigcache) else
      (* Nonces must be 0x00..0 *)
      if negb (bool_decide (header.(Nonce) = emptyNonce))
      then Ret (Some errInvalidNonce, sigcache) else
      (* Check that the extra-data contains both the vanity and signature *)
      if len header.(Extra) <? extraVanity
      then Ret (Some ErrMissingVanity, sigcache) else
      if len header.(Extra) <? extraVanity + ExtraSeal
      then Ret (Some ErrMissingSignature, sigcache) else
      (* Ensure that the extra-data contains a signer list on checkpoint, but
         none otherwise *)
      m ← mod64 number c.(config).(Epoch);
      let checkpoint := m =? 0 in
      let signersBytes := len header.(Extra) - extraVanity - ExtraSeal in
      if negb checkpoint && negb (signersBytes =? 0)
      then Ret (Some errExtraSigners, sigcache) else
      if checkpoint && negb (Z.rem signersBytes AddressLength =? 0)
      then Ret (Some ErrInvalidCheckpointSigners, sigcache) else
      (* Ensure that the mix digest is zero *)
      if negb (bool_decide (header.(MixDigest) = zeroHash))
      then Ret (Some ErrInvalidMixDigest, sigcache) else
      (* Ensure that the block doesn't contain any uncles *)
      if negb (bool_decide (header.(UncleHash) = uncleHash))
      then Ret (Some ErrInvalidUncleHash, sigcache) else
      (* Ensure that the block's difficulty is meaningful *)
      if (0 <? number)
         && match header.(Difficulty) with
            | None => true
            | Some d => negb (d =? diffInTurn) && negb (d =? diffNoTurn)
            end
      then Ret (Some ErrInvalidDifficulty, sigcache) else
      (* If all checks passed, validate any special fields for hard forks *)
      match VerifyForkHashes chain.(Config) header false with
      | Some err => Ret (Some err, sigcache)
      | None =>
          (* All basic checks passed, verify cascading fields *)
          verifyCascadingFields c chain header parents sigcache
      end
  end.

(** VerifyHeader checks whether a header conforms to the consensus rules. *)
Definition VerifyHeader (c : Consortium) (chain : ChainHeaderReader)
    (header : Header) (seal : bool) (sigcache : SigCache)
  : go (option error * SigCache) :=
  VerifyHeaderAndParents c chain header [] sigcache.

(** *** Finalization *)

Record FinalizeResult := {
  FinErr : option error;
  FinHeader : Header;
  FinState : StateDB;
  FinTxs : list Transaction;
  FinReceipts : list Receipt;
  FinSystemTxs : list Transaction;
  FinUsedGas : Z
}.

Definition errSystemTxs : error :=
  errorsNew "the length of systemTxs does not match".

(** The two assignments that close Finalize: no block rewards in PoA, so the
    state remains as is and uncles are dropped. *)
Definition stampRoot (chain : ChainHeaderReader) (header : Header)
    (state : StateDB) : Header :=
  {| ParentHash := header.(ParentHash);
     UncleHash := uncleHash;
     Coinbase := header.(Coinbase);
     Root := IntermediateRoot state (IsEIP158 chain.(Config) header.(Number));
     TxHash := header.(TxHash);
     ReceiptHash := header.(ReceiptHash);
     Bloom := header.(Bloom);
     Difficulty := header.(Difficulty);
     Number := header.(Number);
     GasLimit := header.(GasLimit);
     GasUsed := header.(GasUsed);
     Time := header.(Time);
     Extra := header.(Extra);
     MixDigest := header.(MixDigest);
     Nonce := header.(Nonce) |}.

(** What [*systemTxs] holds once the applicator has run on [opts]. *)
Definition remainingTxs (systemTxs : list Transaction)
    (opts : ApplyTransactOpts) : list Transaction :=
  match opts.(ReceivedTxs) with
  | Some l => l
  | None => systemTxs
  end.

(** The options Finalize hands to WrapUpEpoch. *)
Definition finalizeOpts (c : Consortium) (header : Header) (state : StateDB)
    (txs : list Transaction) (receipts : list Receipt)
    (systemTxs : list Transaction) (usedGas : Z) : ApplyTransactOpts :=
  {| State := state; OptsHeader := header;
     OptsChainConfig := c.(chainConfig);
     Txs := txs; Receipts := receipts;
     ReceivedTxs := Some systemTxs;
     UsedGas := usedGas; Mining := false |}.

(** Finalize implements consensus.Engine, ensuring no uncles are set, nor
    block rewards given.  The header, state and buffers it is handed by
    pointer come back in the result. *)
Definition Finalize (c : Consortium) (chain : ChainHeaderReader)
    (header : Header) (state : StateDB) (txs : list Transaction)
    (receipts : list Receipt) (systemTxs : list Transaction) (usedGas : Z)
  : go FinalizeResult :=
  match header.(Number) with
  | None => nilDeref
  | Some n =>
      let lastBlockInV1 := IsOnConsortiumV2 c.(chainConfig) (Some (n + 1)) in
      if (0 <? len systemTxs) && negb lastBlockInV1
         || (len systemTxs =? 0) && lastBlockInV1
      then Ret {| FinErr := Some errSystemTxs; FinHeader := header;
                  FinState := state; FinTxs := txs; FinReceipts := receipts;
                  FinSystemTxs := systemTxs; FinUsedGas := usedGas |}
      else if 0 <? len systemTxs then
        match c.(contract) with
        | None => nilDeref
        | Some integrator =>
            let transactOpts :=
              finalizeOpts c header state txs receipts systemTxs usedGas in
            let '(err, after) := integrator.(WrapUpEpoch) transactOpts in
            let left := remainingTxs systemTxs after in
            let out (e : option error) (h : Header) :=
              {| FinErr := e; FinHeader := h;
                 FinState := after.(State); FinTxs := after.(Txs);
                 FinReceipts := after.(Receipts);
                 FinSystemTxs := left; FinUsedGas := after.(UsedGas) |} in
            match err with
            | Some e => Ret (out (Some e) after.(OptsHeader))
            | None =>
                if 0 <? len left
                then Ret (out (Some errSystemTxs) after.(OptsHeader))
                else Ret (out None
                            (stampRoot chain after.(OptsHeader) after.(State)))
            end
        end
      else
        Ret {| FinErr := None; FinHeader := stampRoot chain header state;
               FinState := state; FinTxs := txs; FinReceipts := receipts;
               FinSystemTxs := systemTxs; FinUsedGas := usedGas |}
  end.

(** *** Sealing *)

Record Block := {
  BlockHeader : Header;
  BlockTransactions : list Transaction
}.

(** The [for seen, recent := range snap.Recents] loop of Seal, over the
    entries of the map in the order the iteration visits them. *)
Fixpoint recentsLoop (entries : list (Z * Address)) (signer : Address)
    (number : Z) (validators : list Address) : option error :=
  match entries with
  | [] => None
  | (seen, recent) :: rest =>
      if bool_decide (recent = signer)
         && (* Signer is among recents, only wait if the current block
               doesn't shift it out *)
            (let limit := len validators / 2 + 1 in
             sub64 number limit <? seen)
      then Some ErrRecentlySigned
      else recentsLoop rest signer number validators
  end.

(** The statement [copy(header.Extra[len(header.Extra)-ExtraSeal:], sighash)]. *)
Definition sealExtra (extra sighash : list byte) : go (list byte) :=
  dst ← sliceFrom extra (len extra - ExtraSeal);
  Ret (take (Z.to_nat (len extra - ExtraSeal)) extra ++ copy dst sighash).

Definition withExtra (header : Header) (extra : list byte) : Header :=
  {| ParentHash := header.(ParentHash);
     UncleHash := header.(UncleHash);
     Coinbase := header.(Coinbase);
     Root := header.(Root);
     TxHash := header.(TxHash);
     ReceiptHash := header.(ReceiptHash);
     Bloom := header.(Bloom);
     Difficulty := header.(Difficulty);
     Number := header.(Number);
     GasLimit := header.(GasLimit);
     GasUsed := header.(GasUsed);
     Time := header.(Time);
     Extra := extra;
     MixDigest := header.(MixDigest);
     Nonce := header.(Nonce) |}.

(** Seal implements consensus.Engine, attempting to create a sealed block
    using the local signing credentials.  The result is the returned error
    and the header that the background task publishes after the delay. *)
Definition Seal (c : Consortium) (chain : ChainHeaderReader) (block : Block)
    (sigcache : SigCache) : go (option error * Header * SigCache) :=
  let header := block.(BlockHeader) in
  (* Sealing the genesis block is not supported *)
  number ← numberUint64 header;
  if number =? 0 then Ret (Some ErrUnknownBlock, header, sigcache) else
  (* For 0-period chains, refuse to seal empty blocks *)
  if (c.(config).(Period) =? 0) && (len block.(BlockTransactions) =? 0)
  then Ret (Some (errorsNew "sealing paused while waiting for transactions"),
            header, sigcache) else
  let signer := c.(val) in
  '(validators, err) ← getValidatorsFromLastCheckpoint c chain (sub64 number 1) [];
  match err with
  | Some err => Ret (Some err, header, sigcache)
  | None =>
      if negb (SignerInList c.(val) validators)
      then Ret (Some errUnauthorizedSigner, header, sigcache) else
      match snapshot chain sigcache (sub64 number 1) header.(ParentHash) [] with
      | (inr err, sigcache) => Ret (Some err, header, sigcache)
      | (inl snap, sigcache) =>
          (* If we're amongst the recent signers, wait for the next block *)
          match recentsLoop (map_to_list snap.(Recents)) signer number validators with
          | Some err => Ret (Some err, header, sigcache)
          | None =>
              (* Sweet, the protocol permits us to sign the block *)
              inturn ← signerInTurn c signer number validators;
              (* Sign all the things! *)
              preimage ← consortiumRLP header;
              match c.(signFn) with
              | None => nilDeref
              | Some sign =>
                  match sign signer preimage with
                  | inr err => Ret (Some err, header, sigcache)
                  | inl sighash =>
                      extra ← sealExtra header.(Extra) sighash;
                      Ret (None, withExtra header extra, sigcache)
                  end
              end
          end
      end
  end.

End Engine.

End V1.

(** * Reference definitions

    Notions that the statements below use, written after the wording of the
    specification, and the fixtures on which the statements are exercised. *)

Module Reference.

Import Params.

(** The spec's [min(S.block, N.block)], "treating null as absent". *)
Definition spec_min_block (s n : option Z) : option Z :=
  match s, n with
  | None, None => None
  | Some a, None => Some a
  | None, Some b => Some b
  | Some a, Some b => Some (Z.min a b)
  end.

(** The rewind point of an error raised at head [h] lies below [h], and
    strictly so unless it is 0. *)
Definition Below (h : Z) (e : ConfigCompatError) : Prop :=
  0 <= e.(RewindTo) <= h /\ (e.(RewindTo) < h \/ e.(RewindTo) = 0).

(** What the loop of CheckCompatible hands back when it starts at head [h]
    with [lasterr]: either nothing was ever found, or an error below whose
    rewind point the configurations no longer conflict any lower. *)
Definition Lowest (c newcfg : ChainConfig) (r : option ConfigCompatError)
  : Prop :=
  match r with
  | None => True
  | Some e =>
      match checkCompatible c newcfg (Some e.(RewindTo)) with
      | None => True
      | Some e' => e'.(RewindTo) = e.(RewindTo)
      end
  end.

(** The spec's turn rule: the signer list entry at index
    [(N - N/Epoch*Epoch) mod |signer_list|] is [A]. *)
Definition spec_in_turn (signer_list : list V1.Address) (N Epoch : Z)
    (A : V1.Address) : bool :=
  bool_decide
    (signer_list !! Z.to_nat ((N - N / Epoch * Epoch) `mod` len signer_list)
     = Some A).

(** The turn difficulty: 7 in turn, 3 out of turn. *)
Definition spec_difficulty (signer_list : list V1.Address) (N Epoch : Z)
    (A : V1.Address) : Z :=
  if spec_in_turn signer_list N Epoch A then 7 else 3.

(** A call returns, with a value or an error value, rather than panics. *)
Definition returns {A : Type} (m : go A) : Prop := exists a, m = Ret a.

(** Two headers agree on every field but the extra-data. *)
Definition same_but_extra (h1 h2 : V1.Header) : Prop :=
  h1.(V1.ParentHash) = h2.(V1.ParentHash) /\
  h1.(V1.UncleHash) = h2.(V1.UncleHash) /\
  h1.(V1.Coinbase) = h2.(V1.Coinbase) /\
  h1.(V1.Root) = h2.(V1.Root) /\
  h1.(V1.TxHash) = h2.(V1.TxHash) /\
  h1.(V1.ReceiptHash) = h2.(V1.ReceiptHash) /\
  h1.(V1.Bloom) = h2.(V1.Bloom) /\
  h1.(V1.Difficulty) = h2.(V1.Difficulty) /\
  h1.(V1.Number) = h2.(V1.Number) /\
  h1.(V1.GasLimit) = h2.(V1.GasLimit) /\
  h1.(V1.GasUsed) = h2.(V1.GasUsed) /\
  h1.(V1.Time) = h2.(V1.Time) /\
  h1.(V1.MixDigest) = h2.(V1.MixDigest) /\
  h1.(V1.Nonce) = h2.(V1.Nonce).

(** The extra-data without its trailing 65 bytes. *)
Definition unsealed (extra : list byte) : list byte :=
  take (length extra - 65) extra.

Section FinalizeReference.

Context `{!V1.Externals}.

(** The header and the state as Finalize finds them before its closing
    assignments: as WrapUpEpoch left them when it ran (a non-empty list on
    the last v1 block), as given otherwise. *)
Definition handedBack (c : V1.Consortium) (header : V1.Header)
    (state : V1.StateDB) (txs : list V1.Transaction)
    (receipts : list V1.Receipt) (systemTxs : list V1.Transaction)
    (usedGas : Z) : V1.Header * V1.StateDB :=
  match systemTxs, c.(V1.contract),
        IsOnConsortiumV2 c.(V1.chainConfig)
          ((fun n => n + 1) <$> header.(V1.Number)) with
  | _ :: _, Some integrator, true =>
      let after := (integrator.(V1.WrapUpEpoch)
                      (V1.finalizeOpts c header state txs receipts systemTxs
                         usedGas)).2 in
      (after.(V1.OptsHeader), after.(V1.State))
  | _, _, _ => (header, state)
  end.

End FinalizeReference.

(** A configuration that schedules no fork at all. *)
Definition noForks : ChainConfig :=
  {| ChainID := None; HomesteadBlock := None; DAOForkBlock := None;
     DAOForkSupport := false; EIP150Block := None; EIP155Block := None;
     EIP158Block := None; ByzantiumBlock := None; ConstantinopleBlock := None;
     PetersburgBlock := None; IstanbulBlock := None; MuirGlacierBlock := None;
     BerlinBlock := None; LondonBlock := None; ArrowGlacierBlock := None;
     OdysseusBlock := None; FenixBlock := None; ConsortiumV2Block := None;
     PuffyBlock := None; BubaBlock := None; OlekBlock := None;
     ShillinBlock := None; AntennaBlock := None; MikoBlock := None;
     TrippBlock := None; AaronBlock := None; ShanghaiBlock := None;
     CancunBlock := None; VenokiBlock := None; PragueBlock := None;
     HasConsortiumV2Contracts := false |}.

Definition withBerlin (b : option Z) : ChainConfig :=
  {| ChainID := None; HomesteadBlock := None; DAOForkBlock := None;
     DAOForkSupport := false; EIP150Block := None; EIP155Block := None;
     EIP158Block := None; ByzantiumBlock := None; ConstantinopleBlock := None;
     PetersburgBlock := None; IstanbulBlock := None; MuirGlacierBlock := None;
     BerlinBlock := b; LondonBlock := None; ArrowGlacierBlock := None;
     OdysseusBlock := None; FenixBlock := None; ConsortiumV2Block := None;
     PuffyBlock := None; BubaBlock := None; OlekBlock := None;
     ShillinBlock := None; AntennaBlock := None; MikoBlock := None;
     TrippBlock := None; AaronBlock := None; ShanghaiBlock := None;
     CancunBlock := None; VenokiBlock := None; PragueBlock := None;
     HasConsortiumV2Contracts := false |}.

Definition withConsortiumV2 (id b : option Z) : ChainConfig :=
  {| ChainID := id; HomesteadBlock := None; DAOForkBlock := None;
     DAOForkSupport := false; EIP150Block := None; EIP155Block := None;
     EIP158Block := None; ByzantiumBlock := None; ConstantinopleBlock := None;
     PetersburgBlock := None; IstanbulBlock := None; MuirGlacierBlock := None;
     BerlinBlock := None; LondonBlock := None; ArrowGlacierBlock := None;
     OdysseusBlock := None; FenixBlock := None; ConsortiumV2Block := b;
     PuffyBlock := None; BubaBlock := None; OlekBlock := None;
     ShillinBlock := None; AntennaBlock := None; MikoBlock := None;
     TrippBlock := None; AaronBlock := None; ShanghaiBlock := None;
     CancunBlock := None; VenokiBlock := None; PragueBlock := None;
     HasConsortiumV2Contracts := true |}.

End Reference.

(** * Fixtures

    One concrete choice of the engine's collaborators, on which the
    statements below are exercised.  The RLP encoder and the hex decoder
    follow their formats; the digest and the key recovery are stand-ins that
    only need to be functions, since every statement is proved for all
    collaborators. *)

Module Fixtures.

Import Params V1.

Definition byteOfZ (z : Z) : byte := default x00 (Byte.of_N (Z.to_N z)).
Definition byteToZ (b : byte) : Z := Z.of_N (Byte.to_N b).

(** Big-endian bytes of a non-negative integer, without leading zeros. *)
Fixpoint beBytesFuel (fuel : nat) (n : Z) (acc : list byte) : list byte :=
  match fuel with
  | O => acc
  | S fuel' =>
      if n <=? 0 then acc
      else beBytesFuel fuel' (n / 256) (byteOfZ (n mod 256) :: acc)
  end.

Definition beBytes (n : Z) : list byte :=
  beBytesFuel (S (Z.to_nat (Z.log2 n))) n [].

Definition rlpLength (n offset : Z) : list byte :=
  if n <? 56 then [byteOfZ (offset + n)]
  else let bl := beBytes n in byteOfZ (offset + 55 + len bl) :: bl.

Definition rlpString (b : list byte) : list byte :=
  match b with
  | [x] => if byteToZ x <? 128 then [x] else rlpLength 1 128 ++ b
  | _ => rlpLength (len b) 128 ++ b
  end.

Definition rlpOne (i : rlpItem) : list byte + string :=
  match i with
  | RlpBytes b => inl (rlpString b)
  | RlpBig None => inl (rlpString [])
  | RlpBig (Some z) =>
      if z <? 0 then inr "rlp: cannot encode negative big.Int"
      else inl (rlpString (beBytes z))
  | RlpUint n => inl (rlpString (beBytes n))
  end.

Fixpoint rlpPayload (items : list rlpItem) : list byte + string :=
  match items with
  | [] => inl []
  | i :: rest =>
      match rlpOne i, rlpPayload rest with
      | inl b, inl bs => inl (b ++ bs)
      | inr e, _ => inr e
      | _, inr e => inr e
      end
  end.

Definition rlpList (items : list rlpItem) : list byte + string :=
  match rlpPayload items with
  | inl payload => inl (rlpLength (len payload) 192 ++ payload)
  | inr e => inr e
  end.

(** Stand-in digest: 32 lanes, lane [i] summing the bytes at the positions
    congruent to [i] modulo 32. *)
Fixpoint lanes (fuel : nat) (b : list byte) : list Z :=
  match fuel with
  | O => replicate 32 0
  | S fuel' =>
      match b with
      | [] => replicate 32 0
      | _ => zip_with Z.add (byteToZ <$> take 32 (b ++ replicate 32 x00))
                            (lanes fuel' (drop 32 b))
      end
  end.

Definition digest32 (b : list byte) : list byte :=
  (fun z => byteOfZ (z mod 256)) <$> lanes (length b) b.

(** Stand-in key recovery: the "public key" is read off the signature. *)
Definition recoverKey (hash sig : list byte) : list byte + error :=
  inl (x04 :: take 64 sig).

Definition hexDigit (a : Ascii.ascii) : Z :=
  let n := Z.of_N (Ascii.N_of_ascii a) in
  if (48 <=? n) && (n <=? 57) then n - 48
  else if (97 <=? n) && (n <=? 102) then n - 87
  else if (65 <=? n) && (n <=? 70) then n - 55
  else 0.

Fixpoint hexBytes (s : string) : list byte :=
  match s with
  | String a (String b rest) =>
      byteOfZ (16 * hexDigit a + hexDigit b) :: hexBytes rest
  | _ => []
  end.

(** [common.HexToAddress]: drop the "0x" prefix, decode, keep the last 20
    bytes. *)
Definition hexToAddress (s : string) : Address :=
  let body := match s with
              | String "0"%char (String "x"%char rest) => rest
              | _ => s
              end in
  let b := hexBytes body in
  drop (length b - 20) b.

Fixpoint chunks20 (fuel : nat) (b : list byte) : list Address :=
  match fuel with
  | O => []
  | S fuel' =>
      if len b <? 20 then [] else take 20 b :: chunks20 fuel' (drop 20 b)
  end.

Definition extractAddresses (b : list byte) : list Address :=
  chunks20 (length b) b.

Definition sameSigners (a b : list Address) : bool :=
  bool_decide (length a = length b)
  && forallb (fun x => bool_decide (x ∈ b)) a
  && forallb (fun x => bool_decide (x ∈ a)) b.

(** Keccak256(RLP([])). *)
Definition emptyUncleHash : Hash :=
  hexBytes "1dcc4de8dec75d7aab85b567b6ccd41ad312451b948a7413f0a142fd40d49347".

Definition fullHeaderHash (h : Header) : Hash :=
  digest32 (h.(Extra) ++ h.(ParentHash) ++ beBytes (default 0 h.(Number))).

(** The signature cache as a list of entries, most recent first. *)
Fixpoint cacheGet (m : list (Hash * Address)) (h : Hash) : option Address :=
  match m with
  | [] => None
  | (k, a) :: rest => if bool_decide (k = h) then Some a else cacheGet rest h
  end.

(** The collaborators: a clock stopped at [now], a signature cache that
    never evicts, and a snapshot store that answers [snap] for every
    block. *)
Definition collaborators (now : Z) (snap : Snapshot + error) : Externals :=
  {| StateDB := Z;
     Transaction := Z;
     Receipt := Z;
     SigCache := list (Hash * Address);
     timeNow := now;
     keccak256 := digest32;
     rlpEncode := rlpList;
     cryptoEcrecover := recoverKey;
     headerHash := fullHeaderHash;
     uncleHash := emptyUncleHash;
     sigGet := fun m h => (cacheGet m h, m);
     sigAdd := fun m h a => (h, a) :: m;
     VerifyForkHashes := fun _ _ _ => None;
     HexToAddress := hexToAddress;
     ExtractAddressFromBytes := extractAddresses;
     CompareSignersLists := sameSigners;
     SignerInList := fun a l => bool_decide (a ∈ l);
     snapshot := fun _ m _ _ _ => (snap, m);
     IntermediateRoot := fun st _ => digest32 (beBytes st) |}.

(** The three validators hard-coded for chain 2020. *)
Definition genesis1 : Address :=
  hexToAddress "0x000000000000000000000000f224beff587362a88d859e899d0d80c080e1e812".
Definition genesis2 : Address :=
  hexToAddress "0x00000000000000000000000011360eacdedd59bc433afad4fc8f0417d1fbebab".
Definition genesis3 : Address :=
  hexToAddress "0x00000000000000000000000070bb1fb41c8c42f6ddd53a708e2b82209495e455".

Definition addrA : Address := replicate 20 x0a.
Definition addrB : Address := replicate 20 x0b.
Definition addrC : Address := replicate 20 x0c.

(** A seal from which [recoverKey] and [digest32] recover [a]. *)
Definition sealOf (a : Address) : list byte :=
  replicate 12 x00 ++ a ++ replicate 33 x00.

Definition vanity : list byte := replicate 32 x00.

Definition mkHeader (number : option Z) (coinbase : Address)
    (difficulty : option Z) (time : Z) (extra : list byte) : Header :=
  {| ParentHash := replicate 32 x01;
     UncleHash := emptyUncleHash;
     Coinbase := coinbase;
     Root := zeroHash;
     TxHash := zeroHash;
     ReceiptHash := zeroHash;
     Bloom := replicate 256 x00;
     Difficulty := difficulty;
     Number := number;
     GasLimit := 30000000;
     GasUsed := 0;
     Time := time;
     Extra := extra;
     MixDigest := zeroHash;
     Nonce := emptyNonce |}.

Definition mkEngine (E : Externals) (id : option Z) (v2 : option Z)
    (period epoch : Z) (signer : Address)
    (integrator : option (@ContractIntegrator E)) : @Consortium E :=
  {| chainConfig := Reference.withConsortiumV2 id v2;
     config := {| Period := period; Epoch := epoch; EpochV2 := 0 |};
     val := signer;
     signFn := Some (fun _ _ => inl (replicate 65 x01));
     contract := integrator;
     getSCValidators := Some (inl [addrA; addrB; addrC]);
     getFenixValidators := None;
     skipCheckpointHeaderCheck := false |}.

Definition mkChain (id : option Z) (v2 : option Z)
    (byNumber : Z -> option Header) : ChainHeaderReader :=
  {| Config := Reference.withConsortiumV2 id v2;
     GetHeader := fun _ n => byNumber n;
     GetHeaderByNumber := byNumber |}.

Definition mkSnapshot (number : Z) (signers : list Address)
    (recents : gmap Z Address) : Snapshot :=
  {| SnapNumber := number;
     SnapHash := replicate 32 x01;
     SignerSet := list_to_set signers;
     SignerList := signers;
     Recents := recents |}.

(** **** Scenario 1: chain 2020 right after genesis

    Signer list [genesis1; genesis2; genesis3], Epoch 30000, Period 3;
    block 1 is signed in turn by [genesis2]. *)

Definition snapGenesis : Snapshot :=
  mkSnapshot 0 [genesis1; genesis2; genesis3] ∅.

Definition world1 : Externals := collaborators 1000 (inl snapGenesis).

Definition chain1 : ChainHeaderReader :=
  mkChain (Some 2020) None (fun _ => None).

Definition engine1 : @Consortium world1 :=
  mkEngine world1 (Some 2020) None 3 30000 genesis2 None.

Definition header1 : Header :=
  mkHeader (Some 1) genesis2 (Some 7) 10 (vanity ++ sealOf genesis2).

(** The same block claiming the out-of-turn difficulty. *)
Definition header1Wrong : Header :=
  mkHeader (Some 1) genesis2 (Some 3) 10 (vanity ++ sealOf genesis2).

(** The same block before it is sealed. *)
Definition header1Unsealed : Header :=
  mkHeader (Some 1) genesis2 (Some 7) 10 (vanity ++ replicate 65 x00).

(** Headers whose extra-data is too short for a seal, or for the vanity. *)
Definition headerShort : Header :=
  mkHeader (Some 1) genesis2 (Some 7) 10 (replicate 64 x00).

Definition headerNoVanity : Header :=
  mkHeader (Some 1) genesis2 (Some 7) 10 (replicate 10 x00).

(** **** Scenario 2: [genesis2] has signed block 1 and signs block 2 *)

Definition snapAfter1 : Snapshot :=
  mkSnapshot 1 [genesis1; genesis2; genesis3] {[ 1 := genesis2 ]}.

Definition world2 : Externals := collaborators 1000 (inl snapAfter1).

Definition engine2 : @Consortium world2 :=
  mkEngine world2 (Some 2020) None 3 30000 genesis2 None.

Definition header2 : Header :=
  mkHeader (Some 2) genesis2 (Some 3) 13 (vanity ++ sealOf genesis2).

Definition block2 : @Block world2 :=
  {| BlockHeader := header2; BlockTransactions := [] |}.

(** **** Scenario 3: ten validators, Epoch 3

    The checkpoint header 3 lists ten validators; the first of them has
    signed block 4 and is asked to seal block 5. *)

Definition tenValidators : list Address :=
  (fun i => replicate 20 (byteOfZ i)) <$> [16; 17; 18; 19; 20; 21; 22; 23; 24; 25].

Definition validator0 : Address := replicate 20 (byteOfZ 16).

Definition checkpoint3 : Header :=
  mkHeader (Some 3) validator0 (Some 7) 9
    (vanity ++ concat tenValidators ++ sealOf validator0).

Definition chain3 : ChainHeaderReader :=
  mkChain (Some 2020) None (fun n => if n =? 3 then Some checkpoint3 else None).

Definition snapAfter4 : Snapshot :=
  mkSnapshot 4 tenValidators {[ 4 := validator0 ]}.

Definition world3 : Externals := collaborators 1000 (inl snapAfter4).

Definition engine3 : @Consortium world3 :=
  mkEngine world3 (Some 2020) None 3 3 validator0 None.

Definition header5 : Header :=
  mkHeader (Some 5) validator0 (Some 3) 15 (vanity ++ replicate 65 x00).

Definition block5 : @Block world3 :=
  {| BlockHeader := header5; BlockTransactions := [] |}.

(** **** Scenario 4: the last v1 block

    ConsortiumV2 activates at block 100; block 99 is finalized with one
    system transaction, which the integrator moves to the block. *)

Definition consumeAll : @ContractIntegrator world1 :=
  {| WrapUpEpoch := fun opts =>
       (None,
        {| State := opts.(State);
           OptsHeader := opts.(OptsHeader);
           OptsChainConfig := opts.(OptsChainConfig);
           Txs := opts.(Txs) ++ default [] opts.(ReceivedTxs);
           Receipts := opts.(Receipts);
           ReceivedTxs := Some [];
           UsedGas := opts.(UsedGas);
           Mining := opts.(Mining) |}) |}.

Definition engine4 : @Consortium world1 :=
  mkEngine world1 (Some 2020) (Some 100) 3 30000 genesis2 (Some consumeAll).

Definition chain4 : ChainHeaderReader :=
  mkChain (Some 2020) (Some 100) (fun _ => None).

Definition header99 : Header :=
  mkHeader (Some 99) genesis2 (Some 7) 300 (vanity ++ sealOf genesis2).

End Fixtures.

(** * More of the chain configuration ([params/config.go]) *)

Module ParamsMore.

Import Params.

Definition IsEIP150 (c : ChainConfig) (num : option Z) : bool :=
  isForked c.(EIP150Block) num.

Definition IsEIP155 (c : ChainConfig) (num : option Z) : bool :=
  isForked c.(EIP155Block) num.

Definition IsByzantium (c : ChainConfig) (num : option Z) : bool :=
  isForked c.(ByzantiumBlock) num.

Definition IsIstanbul (c : ChainConfig) (num : option Z) : bool :=
  isForked c.(IstanbulBlock) num.

Definition IsBerlin (c : ChainConfig) (num : option Z) : bool :=
  isForked c.(BerlinBlock) num.

Definition IsLondon (c : ChainConfig) (num : option Z) : bool :=
  isForked c.(LondonBlock) num.

Definition IsOdysseus (c : ChainConfig) (num : option Z) : bool :=
  isForked c.(OdysseusBlock) num.

(** IsLastConsortiumV1Block return if num is the last block in Consortium
    v1. *)
Definition IsLastConsortiumV1Block (c : ChainConfig) (num : option Z) : bool :=
  match c.(ConsortiumV2Block), num with
  | Some v2, Some n => v2 - 1 =? n
  | _, _ => false
  end.

Definition IsAntenna (c : ChainConfig) (num : option Z) : bool :=
  isForked c.(AntennaBlock) num.

Definition IsShillin (c : ChainConfig) (num : option Z) : bool :=
  isForked c.(ShillinBlock) num.

Definition IsMiko (c : ChainConfig) (num : option Z) : bool :=
  isForked c.(MikoBlock) num.

Definition IsTripp (c : ChainConfig) (num : option Z) : bool :=
  isForked c.(TrippBlock) num.

Definition IsAaron (c : ChainConfig) (num : option Z) : bool :=
  isForked c.(AaronBlock) num.

Definition IsShanghai (c : ChainConfig) (num : option Z) : bool :=
  isForked c.(ShanghaiBlock) num.

Definition IsCancun (c : ChainConfig) (num : option Z) : bool :=
  isForked c.(CancunBlock) num.

Definition IsVenoki (c : ChainConfig) (num : option Z) : bool :=
  isForked c.(VenokiBlock) num.

Definition IsPrague (c : ChainConfig) (num : option Z) : bool :=
  isForked c.(PragueBlock) num.

(** Rules wraps ChainConfig and is merely syntactic sugar. *)
Record Rules := {
  RulesChainID : Z;
  RIsHomestead : bool; RIsEIP150 : bool; RIsEIP155 : bool; RIsEIP158 : bool;
  RIsByzantium : bool; RIsConstantinople : bool; RIsPetersburg : bool;
  RIsIstanbul : bool;
  RIsBerlin : bool; RIsLondon : bool; RIsOdysseusFork : bool;
  RIsFenix : bool; RIsShillin : bool; RIsConsortiumV2 : bool;
  RIsAntenna : bool;
  RIsMiko : bool; RIsTripp : bool; RIsAaron : bool; RIsShanghai : bool;
  RIsCancun : bool;
  RIsVenoki : bool; RIsLastConsortiumV1Block : bool; RIsPrague : bool
}.

(** The method [Rules] of ChainConfig: it ensures c's ChainID is not nil. *)
Definition ChainConfig_Rules (c : ChainConfig) (num : option Z) : Rules :=
  let chainID := match c.(ChainID) with
                 | None => 0
                 | Some id => id
                 end in
  {| RulesChainID := chainID;
     RIsHomestead := IsHomestead c num;
     RIsEIP150 := IsEIP150 c num;
     RIsEIP155 := IsEIP155 c num;
     RIsEIP158 := IsEIP158 c num;
     RIsByzantium := IsByzantium c num;
     RIsConstantinople := IsConstantinople c num;
     RIsPetersburg := IsPetersburg c num;
     RIsIstanbul := IsIstanbul c num;
     RIsBerlin := IsBerlin c num;
     RIsLondon := IsLondon c num;
     RIsOdysseusFork := IsOdysseus c num;
     RIsFenix := IsFenix c num;
     RIsShillin := IsShillin c num;
     RIsLastConsortiumV1Block := IsLastConsortiumV1Block c num;
     RIsConsortiumV2 := IsConsortiumV2 c num;
     RIsAntenna := IsAntenna c num;
     RIsMiko := IsMiko c num;
     RIsTripp := IsTripp c num;
     RIsAaron := IsAaron c num;
     RIsShanghai := IsShanghai c num;
     RIsCancun := IsCancun c num;
     RIsVenoki := IsVenoki c num;
     RIsPrague := IsPrague c num |}.

(** *** CheckConfigForkOrder *)

Record fork := {
  name : string;
  block : option Z;
  (* if true, the fork may be nil and next fork is still allowed *)
  optional : bool
}.

(** The two messages of [fmt.Errorf], by their arguments. *)
Inductive forkOrderError : Type :=
| NotEnabledButEnabled (lastName curName : string) (curBlock : Z)
| EnabledAfter (lastName : string) (lastBlock : Z) (curName : string)
    (curBlock : Z).

Definition forkList (c : ChainConfig) : list fork := [
  {| name := "homesteadBlock"; block := c.(HomesteadBlock); optional := false |};
  {| name := "daoForkBlock"; block := c.(DAOForkBlock); optional := true |};
  {| name := "eip150Block"; block := c.(EIP150Block); optional := false |};
  {| name := "eip155Block"; block := c.(EIP155Block); optional := false |};
  {| name := "eip158Block"; block := c.(EIP158Block); optional := false |};
  {| name := "byzantiumBlock"; block := c.(ByzantiumBlock); optional := false |};
  {| name := "constantinopleBlock"; block := c.(ConstantinopleBlock);
     optional := false |};
  {| name := "petersburgBlock"; block := c.(PetersburgBlock); optional := false |};
  {| name := "istanbulBlock"; block := c.(IstanbulBlock); optional := false |};
  {| name := "muirGlacierBlock"; block := c.(MuirGlacierBlock); optional := true |};
  {| name := "berlinBlock"; block := c.(BerlinBlock); optional := false |};
  {| name := "londonBlock"; block := c.(LondonBlock); optional := false |};
  {| name := "arrowGlacierBlock"; block := c.(ArrowGlacierBlock);
     optional := true |}
].

(** The body of the [for] loop up to its two [return]s. *)
Definition forkOrderStep (lastFork cur : fork) : option forkOrderError :=
  if negb (String.eqb lastFork.(name) "") then
    (* Next one must be higher number *)
    match lastFork.(block), cur.(block) with
    | None, Some cb =>
        Some (NotEnabledButEnabled lastFork.(name) cur.(name) cb)
    | Some lb, Some cb =>
        if cb <? lb
        then Some (EnabledAfter lastFork.(name) lb cur.(name) cb)
        else None
    | _, None => None
    end
  else None.

(** If it was optional and not set, then ignore it. *)
Definition keptFork (cur : fork) : bool :=
  negb cur.(optional)
  || match cur.(block) with Some _ => true | None => false end.

Fixpoint forkOrderLoop (lastFork : fork) (forks : list fork)
  : option forkOrderError :=
  match forks with
  | [] => None
  | cur :: rest =>
      match forkOrderStep lastFork cur with
      | Some err => Some err
      | None => forkOrderLoop (if keptFork cur then cur else lastFork) rest
      end
  end.

(** CheckConfigForkOrder checks that we don't "skip" any forks. *)
Definition CheckConfigForkOrder (c : ChainConfig) : option forkOrderError :=
  forkOrderLoop {| name := ""; block := None; optional := false |}
    (forkList c).

End ParamsMore.

(** * More of the engine ([consensus/consortium/v1/consortium.go]) *)

Module V1More.

Import Params V1.

(** Default number of blocks after which to checkpoint. *)
Definition epochLength : Z := 30000.

Section Engine.

Context `{!Externals}.

Definition withCredentials (c : Consortium) (signer : Address)
    (sign : option (Address -> list byte -> list byte + error)) : Consortium :=
  {| chainConfig := c.(chainConfig);
     config := c.(config);
     val := signer;
     signFn := sign;
     contract := c.(contract);
     getSCValidators := c.(getSCValidators);
     getFenixValidators := c.(getFenixValidators);
     skipCheckpointHeaderCheck := c.(skipCheckpointHeaderCheck) |}.

Definition withContract (c : Consortium) (k : ContractIntegrator)
  : Consortium :=
  {| chainConfig := c.(chainConfig);
     config := c.(config);
     val := c.(val);
     signFn := c.(signFn);
     contract := Some k;
     getSCValidators := c.(getSCValidators);
     getFenixValidators := c.(getFenixValidators);
     skipCheckpointHeaderCheck := c.(skipCheckpointHeaderCheck) |}.

(** initContract; [newIntegrator] is what NewContractIntegrator answers on
    the engine's configuration. *)
Definition initContract (c : Consortium)
    (newIntegrator : ContractIntegrator + error) : Consortium * option error :=
  if match c.(chainConfig).(ConsortiumV2Block) with
     | Some _ => true
     | None => false
     end
     && c.(chainConfig).(HasConsortiumV2Contracts)
  then match newIntegrator with
       | inr err => (c, Some err)
       | inl k => (withContract c k, None)
       end
  else (c, None).

(** New creates a Consortium proof-of-authority consensus engine.  The
    field [chainConfig.Consortium] is the argument [consortium]. *)
Definition New (chainConfig : ChainConfig)
    (consortium : option ConsortiumConfig) (skip : bool)
    (newIntegrator : ContractIntegrator + error) : go Consortium :=
  match consortium with
  | None => nilDeref
  | Some consortiumConfig =>
      (* Set any missing consensus parameters to their defaults *)
      let consortiumConfig :=
        if consortiumConfig.(Epoch) =? 0
        then {| Period := consortiumConfig.(Period);
                Epoch := epochLength;
                EpochV2 := consortiumConfig.(EpochV2) |}
        else consortiumConfig in
      let engine :=
        {| chainConfig := chainConfig;
           config := consortiumConfig;
           val := zeroAddress;
           signFn := None;
           contract := None;
           getSCValidators := None;
           getFenixValidators := None;
           skipCheckpointHeaderCheck := skip |} in
      (* a failure of initContract is only logged *)
      Ret (initContract engine newIntegrator).1
  end.

(** Authorize injects a private key into the consensus engine to mint new
    blocks with. *)
Definition Authorize (c : Consortium) (signer : Address)
    (sign : option (Address -> list byte -> list byte + error))
    (newIntegrator : ContractIntegrator + error) : Consortium :=
  (initContract (withCredentials c signer sign) newIntegrator).1.

(** *** Difficulty *)

(** CalcDifficulty is the difficulty adjustment algorithm; [None] is the nil
    it returns when the validators cannot be read. *)
Definition CalcDifficulty (c : Consortium) (chain : ChainHeaderReader)
    (time : Z) (parent : Header) : go (option Z) :=
  pnumber ← numberUint64 parent;
  let number := add64 pnumber 1 in
  '(validators, err) ←
    getValidatorsFromLastCheckpoint c chain (sub64 number 1) [parent];
  match err with
  | Some _ => Ret None
  | None =>
      d ← doCalcDifficulty c c.(val) number validators;
      Ret (Some d)
  end.

(** *** Prepare *)

Definition withAuthor (header : Header) (coinbase : Address) : Header :=
  {| ParentHash := header.(ParentHash);
     UncleHash := header.(UncleHash);
     Coinbase := coinbase;
     Root := header.(Root);
     TxHash := header.(TxHash);
     ReceiptHash := header.(ReceiptHash);
     Bloom := header.(Bloom);
     Difficulty := header.(Difficulty);
     Number := header.(Number);
     GasLimit := header.(GasLimit);
     GasUsed := header.(GasUsed);
     Time := header.(Time);
     Extra := header.(Extra);
     MixDigest := header.(MixDigest);
     Nonce := emptyNonce |}.

Definition withDifficulty (header : Header) (d : Z) : Header :=
  {| ParentHash := header.(ParentHash);
     UncleHash := header.(UncleHash);
     Coinbase := header.(Coinbase);
     Root := header.(Root);
     TxHash := header.(TxHash);
     ReceiptHash := header.(ReceiptHash);
     Bloom := header.(Bloom);
     Difficulty := Some d;
     Number := header.(Number);
     GasLimit := header.(GasLimit);
     GasUsed := header.(GasUsed);
     Time := header.(Time);
     Extra := header.(Extra);
     MixDigest := header.(MixDigest);
     Nonce := header.(Nonce) |}.

Definition withMixDigest (header : Header) (mix : Hash) : Header :=
  {| ParentHash := header.(ParentHash);
     UncleHash := header.(UncleHash);
     Coinbase := header.(Coinbase);
     Root := header.(Root);
     TxHash := header.(TxHash);
     ReceiptHash := header.(ReceiptHash);
     Bloom := header.(Bloom);
     Difficulty := header.(Difficulty);
     Number := header.(Number);
     GasLimit := header.(GasLimit);
     GasUsed := header.(GasUsed);
     Time := header.(Time);
     Extra := header.(Extra);
     MixDigest := mix;
     Nonce := header.(Nonce) |}.

Definition withTime (header : Header) (time : Z) : Header :=
  {| ParentHash := header.(ParentHash);
     UncleHash := header.(UncleHash);
     Coinbase := header.(Coinbase);
     Root := header.(Root);
     TxHash := header.(TxHash);
     ReceiptHash := header.(ReceiptHash);
     Bloom := header.(Bloom);
     Difficulty := header.(Difficulty);
     Number := header.(Number);
     GasLimit := header.(GasLimit);
     GasUsed := header.(GasUsed);
     Time := time;
     Extra := header.(Extra);
     MixDigest := header.(MixDigest);
     Nonce := header.(Nonce) |}.

(** The vanity part of Prepare: pad the extra-data to 32 bytes and cut it
    there. *)
Definition vanityOf (extra : list byte) : go (list byte) :=
  let extra :=
    if len extra <? extraVanity
    then extra ++ replicate (Z.to_nat (extraVanity - len extra)) x00
    else extra in
  sliceTo extra extraVanity.

(** Prepare implements consensus.Engine, preparing all the consensus fields
    of the header for running the transactions on top.  The header is
    updated in place; the result carries it as it stands at the return. *)
Definition Prepare (c : Consortium) (chain : ChainHeaderReader)
    (header : Header) : go (option error * Header) :=
  (* Set the Coinbase address as the signer *)
  let header := withAuthor header c.(val) in
  number ← numberUint64 header;
  '(validators, err) ←
    getValidatorsFromLastCheckpoint c chain (sub64 number 1) [];
  match err with
  | Some err => Ret (Some err, header)
  | None =>
      (* Set the correct difficulty *)
      d ← doCalcDifficulty c c.(val) number validators;
      let header := withDifficulty header d in
      (* Ensure the extra data has all its components *)
      extra ← vanityOf header.(Extra);
      let header := withExtra header extra in
      m ← mod64 number c.(config).(Epoch);
      let signers :=
        if m =? 0 then
          match getValidatorsFromContract c chain number with
          | (_, Some err) => inr err
          | (validators, None) => inl (concat validators)
          end
        else inl [] in
      match signers with
      | inr err => Ret (Some err, header)
      | inl signerBytes =>
          let header :=
            withExtra header
              (header.(Extra) ++ signerBytes
               ++ replicate (Z.to_nat ExtraSeal) x00) in
          (* Mix digest is reserved for now, set to empty *)
          let header := withMixDigest header zeroHash in
          (* Ensure the timestamp has the correct delay *)
          match chain.(GetHeader) header.(ParentHash) (sub64 number 1) with
          | None => Ret (Some ErrUnknownAncestor, header)
          | Some parent =>
              let time := add64 parent.(Time) c.(config).(Period) in
              let time := if time <? wrap64 timeNow then wrap64 timeNow
                          else time in
              Ret (None, withTime header time)
          end
      end
  end.

(** *** Batches *)

(** The loop of the task VerifyHeaders starts, run to its end: header [i] is
    verified with [headers[:i]] as parents, and the results come in the order
    of the input. *)
Fixpoint verifyHeadersFrom (c : Consortium) (chain : ChainHeaderReader)
    (done todo : list Header) (sigcache : SigCache)
  : go (list (option error) * SigCache) :=
  match todo with
  | [] => Ret ([], sigcache)
  | header :: rest =>
      '(err, sigcache) ← VerifyHeaderAndParents c chain header done sigcache;
      '(errs, sigcache) ←
        verifyHeadersFrom c chain (done ++ [header]) rest sigcache;
      Ret (err :: errs, sigcache)
  end.

Definition VerifyHeaders (c : Consortium) (chain : ChainHeaderReader)
    (headers : list Header) (sigcache : SigCache)
  : go (list (option error) * SigCache) :=
  verifyHeadersFrom c chain [] headers sigcache.

End Engine.

End V1More.

(** * More reference definitions *)

Module MoreReference.

Import Params ParamsMore.

(** Fork [g] may come after fork [f]: when [g] is scheduled, [f] is
    scheduled too, and not later. *)
Definition follows (f g : fork) : Prop :=
  forall b, g.(block) = Some b -> exists a, f.(block) = Some a /\ a <= b.

(** Every activation block that checkCompatible reads. *)
Definition forkBlocks (c : ChainConfig) : list (option Z) := [
  c.(HomesteadBlock); c.(DAOForkBlock); c.(EIP150Block); c.(EIP155Block);
  c.(EIP158Block); c.(ByzantiumBlock); c.(ConstantinopleBlock);
  c.(PetersburgBlock); c.(IstanbulBlock); c.(MuirGlacierBlock);
  c.(BerlinBlock); c.(LondonBlock); c.(ArrowGlacierBlock); c.(OdysseusBlock);
  c.(FenixBlock); c.(ConsortiumV2Block); c.(PuffyBlock); c.(BubaBlock);
  c.(OlekBlock); c.(ShillinBlock); c.(AntennaBlock); c.(MikoBlock);
  c.(TrippBlock); c.(AaronBlock); c.(ShanghaiBlock); c.(CancunBlock);
  c.(VenokiBlock); c.(PragueBlock)
].

(** The configuration [c] with its Petersburg block replaced. *)
Definition setPetersburg (c : ChainConfig) (p : option Z) : ChainConfig :=
  {| ChainID := c.(ChainID); HomesteadBlock := c.(HomesteadBlock);
     DAOForkBlock := c.(DAOForkBlock); DAOForkSupport := c.(DAOForkSupport);
     EIP150Block := c.(EIP150Block); EIP155Block := c.(EIP155Block);
     EIP158Block := c.(EIP158Block); ByzantiumBlock := c.(ByzantiumBlock);
     ConstantinopleBlock := c.(ConstantinopleBlock);
     PetersburgBlock := p; IstanbulBlock := c.(IstanbulBlock);
     MuirGlacierBlock := c.(MuirGlacierBlock); BerlinBlock := c.(BerlinBlock);
     LondonBlock := c.(LondonBlock);
     ArrowGlacierBlock := c.(ArrowGlacierBlock);
     OdysseusBlock := c.(OdysseusBlock); FenixBlock := c.(FenixBlock);
     ConsortiumV2Block := c.(ConsortiumV2Block); PuffyBlock := c.(PuffyBlock);
     BubaBlock := c.(BubaBlock); OlekBlock := c.(OlekBlock);
     ShillinBlock := c.(ShillinBlock); AntennaBlock := c.(AntennaBlock);
     MikoBlock := c.(MikoBlock); TrippBlock := c.(TrippBlock);
     AaronBlock := c.(AaronBlock); ShanghaiBlock := c.(ShanghaiBlock);
     CancunBlock := c.(CancunBlock); VenokiBlock := c.(VenokiBlock);
     PragueBlock := c.(PragueBlock);
     HasConsortiumV2Contracts := c.(HasConsortiumV2Contracts) |}.

(** The flags of Rules that say "this fork is active". *)
Definition forkFlags (r : Rules) : list bool := [
  r.(RIsHomestead); r.(RIsEIP150); r.(RIsEIP155); r.(RIsEIP158);
  r.(RIsByzantium); r.(RIsConstantinople); r.(RIsPetersburg);
  r.(RIsIstanbul); r.(RIsBerlin); r.(RIsLondon); r.(RIsOdysseusFork);
  r.(RIsFenix); r.(RIsShillin); r.(RIsConsortiumV2); r.(RIsAntenna);
  r.(RIsMiko); r.(RIsTripp); r.(RIsAaron); r.(RIsShanghai); r.(RIsCancun);
  r.(RIsVenoki); r.(RIsPrague)
].

(** A mainnet-like schedule: every fork up to Berlin at genesis, London
    never, ConsortiumV2 at block 100. *)
Definition sampleConfig : ChainConfig :=
  {| ChainID := Some 2020; HomesteadBlock := Some 0; DAOForkBlock := None;
     DAOForkSupport := false; EIP150Block := Some 0; EIP155Block := Some 0;
     EIP158Block := Some 0; ByzantiumBlock := Some 0;
     ConstantinopleBlock := Some 50; PetersburgBlock := None;
     IstanbulBlock := Some 60; MuirGlacierBlock := None;
     BerlinBlock := Some 70; LondonBlock := None; ArrowGlacierBlock := None;
     OdysseusBlock := Some 80; FenixBlock := Some 90;
     ConsortiumV2Block := Some 100; PuffyBlock := None; BubaBlock := None;
     OlekBlock := None; ShillinBlock := None; AntennaBlock := None;
     MikoBlock := None; TrippBlock := None; AaronBlock := None;
     ShanghaiBlock := None; CancunBlock := None; VenokiBlock := None;
     PragueBlock := None; HasConsortiumV2Contracts := true |}.

End MoreReference.

(** * More fixtures *)

Module MoreFixtures.

Import Params V1 V1More Fixtures.

(** **** Scenario 5: a chain that holds a header for every number

    Block 1 is prepared by [genesis2] on chain 2020 with Epoch 30000, and
    the checkpoint block 3 by [genesis1] with Epoch 3. *)

Definition parentAt (n : Z) : Header :=
  mkHeader (Some n) genesis1 (Some 7) (3 * n) (vanity ++ sealOf genesis1).

Definition chain5 : ChainHeaderReader :=
  mkChain (Some 2020) None (fun n => Some (parentAt n)).

Definition fresh1 : Header :=
  mkHeader (Some 1) zeroAddress None 0 [x01; x02].

Definition prepared1 : Header :=
  mkHeader (Some 1) genesis2 (Some 7) 1000
    ([x01; x02] ++ replicate 30 x00 ++ replicate 65 x00).

Definition engine5 : @Consortium world1 :=
  mkEngine world1 (Some 2020) None 3 3 genesis1 None.

Definition fresh3 : Header :=
  mkHeader (Some 3) zeroAddress None 0 (replicate 40 x07).

Definition prepared3 : Header :=
  mkHeader (Some 3) genesis1 (Some 7) 1000
    (replicate 32 x07 ++ concat [addrA; addrB; addrC] ++ replicate 65 x00).

(** **** Scenario 6: sealing block 1, block 0, and on a chain with period 0 *)

Definition block1 : @Block world1 :=
  {| BlockHeader := header1Unsealed; BlockTransactions := [] |}.

Definition sealed1 : Header :=
  mkHeader (Some 1) genesis2 (Some 7) 10 (vanity ++ replicate 65 x01).

Definition header0 : Header :=
  mkHeader (Some 0) zeroAddress (Some 1) 0 (vanity ++ replicate 65 x00).

Definition block0 : @Block world1 :=
  {| BlockHeader := header0; BlockTransactions := [] |}.

Definition engine6 : @Consortium world1 :=
  mkEngine world1 (Some 2020) None 0 30000 genesis2 None.

(** **** Scenario 7: a chain that holds block 0, the parent of [header1] *)

Definition chain7 : ChainHeaderReader :=
  mkChain (Some 2020) None (fun n => if n =? 0 then Some header0 else None).

(** A configuration without an epoch, as New receives it. *)
Definition noEpoch : ConsortiumConfig :=
  {| Period := 3; Epoch := 0; EpochV2 := 0 |}.

End MoreFixtures.

(** * Properties of the chain configuration *)

Section ParamsProperties.

Import Params Reference.

Lemma wrap64_small (z : Z) : 0 <= z < two64 -> wrap64 z = z.
Proof. intros Hz. unfold wrap64. apply Z.mod_small. exact Hz. Qed.

Lemma Uint64_small (z : Z) : 0 <= z < two64 -> Uint64 z = z.
Proof.
  intros Hz. unfold Uint64. rewrite Z.abs_eq by lia. apply wrap64_small, Hz.
Qed.

Lemma rewindBlock_min (s n : option Z) : rewindBlock s n = spec_min_block s n.
Proof.
  destruct s as [a|], n as [b|]; simpl; try reflexivity.
  destruct (Z.ltb_spec a b); f_equal; lia.
Qed.

Lemma isForked_true (s : option Z) (h : Z) :
  isForked s (Some h) = true <-> exists b, s = Some b /\ b <= h.
Proof.
  destruct s as [b|]; simpl.
  - rewrite Z.leb_le. split; [eauto | intros (b' & [= <-] & ?); assumption].
  - split; [discriminate | intros (b & [=] & _)].
Qed.

Lemma configNumEqual_true (x y : option Z) : configNumEqual x y = true <-> x = y.
Proof.
  destruct x as [a|], y as [b|]; simpl; try (split; congruence).
  rewrite Z.eqb_eq. split; congruence.
Qed.

Lemma isForkIncompatible_true (s1 s2 : option Z) (h : Z) :
  isForkIncompatible s1 s2 (Some h) = true <->
  (isForked s1 (Some h) = true \/ isForked s2 (Some h) = true) /\ s1 <> s2.
Proof.
  unfold isForkIncompatible.
  rewrite andb_true_iff, orb_true_iff, negb_true_iff.
  rewrite <- not_true_iff_false, configNumEqual_true. reflexivity.
Qed.

Lemma newCompatError_below (what : string) (s1 s2 : option Z) (h : Z) :
  0 <= h < two64 ->
  isForked s1 (Some h) = true \/ isForked s2 (Some h) = true ->
  Below h (newCompatError what s1 s2).
Proof.
  intros Hh Hact. unfold Below, newCompatError. simpl.
  rewrite rewindBlock_min.
  assert (exists m, spec_min_block s1 s2 = Some m /\ m <= h) as (m & -> & Hm).
  { destruct Hact as [H|H]; apply isForked_true in H as (b & -> & Hb).
    - destruct s2 as [b2|]; simpl; eexists; split; try reflexivity; lia.
    - destruct s1 as [b1|]; simpl; eexists; split; try reflexivity; lia. }
  destruct (Z.ltb_spec 0 m); [| lia].
  rewrite Uint64_small by lia. unfold sub64. rewrite wrap64_small by lia. lia.
Qed.

Lemma forkCheck_below (what : string) (s1 s2 : option Z) (h : Z)
    (rest : option ConfigCompatError) (e : ConfigCompatError) :
  0 <= h < two64 ->
  (rest = Some e -> Below h e) ->
  forkCheck what s1 s2 (Some h) rest = Some e -> Below h e.
Proof.
  intros Hh Hrest. unfold forkCheck.
  destruct (isForkIncompatible s1 s2 (Some h)) eqn:Hinc; [| exact Hrest].
  intros [= <-]. apply newCompatError_below; [exact Hh |].
  apply isForkIncompatible_true in Hinc. tauto.
Qed.

Lemma checkCompatible_below (c newcfg : ChainConfig) (h : Z)
    (e : ConfigCompatError) :
  0 <= h < two64 ->
  checkCompatible c newcfg (Some h) = Some e -> Below h e.
Proof.
  intros Hh. unfold checkCompatible, IsDAOFork, IsEIP158.
  repeat first
    [ apply forkCheck_below; [exact Hh |]
    | match goal with
      | |- (if ?b && _ then _ else _) = Some _ -> _ =>
          let Hb := fresh "Hb" in
          destruct b eqn:Hb; simpl andb;
          [ match goal with
            | |- (if ?b' then _ else _) = Some _ -> _ =>
                let Hb' := fresh "Hb" in
                destruct b' eqn:Hb';
                [ intros [= <-]; apply newCompatError_below; [exact Hh |];
                  try (left; exact Hb);
                  try (apply isForkIncompatible_true in Hb; tauto)
                | ]
            end
          | ]
      end ].
  all: discriminate.
Qed.

Lemma CheckCompatible_loop_total (c newcfg : ChainConfig) (fuel : nat) :
  forall (h : Z) (lasterr : option ConfigCompatError),
    0 <= h < two64 ->
    (2 + Z.to_nat h <= fuel)%nat \/
    ((1 <= fuel)%nat /\ h = 0 /\ exists l, lasterr = Some l /\ l.(RewindTo) = 0) ->
    (forall l, lasterr = Some l -> l.(RewindTo) = h) ->
    exists r, CheckCompatible_loop fuel c newcfg h lasterr = Some r /\
              Lowest c newcfg r /\
              (r = None <-> lasterr = None /\ checkCompatible c newcfg (Some h) = None) /\
              (forall e, r = Some e -> e.(RewindTo) <= h).
Proof.
  induction fuel as [|fuel IH]; intros h lasterr Hh Hfuel Hlast.
  { exfalso. destruct Hfuel as [H|[H _]]; lia. }
  simpl. destruct (checkCompatible c newcfg (Some h)) as [err|] eqn:Hchk.
  - pose proof (checkCompatible_below _ _ _ _ Hh Hchk) as [Hrange Hstrict].
    destruct lasterr as [l|].
    + specialize (Hlast l eq_refl).
      destruct (Z.eqb_spec err.(RewindTo) l.(RewindTo)) as [Heq|Hne].
      * exists (Some l). split; [reflexivity |]. split.
        { simpl. rewrite Hlast, Hchk. lia. }
        split; [split; [discriminate | intros [[=] _]] |].
        intros e [= <-]. lia.
      * destruct (IH err.(RewindTo) (Some err)) as (r & Hr & Hlow & Hnone & Hle).
        { lia. }
        { destruct Hfuel as [Hf|(Hf & -> & l' & [= <-] & Hl0)]; [left; lia |].
          exfalso. lia. }
        { intros l' [= <-]. reflexivity. }
        exists r. split; [exact Hr |]. split; [exact Hlow |].
        split.
        { split; [intros Hn; apply Hnone in Hn as [[=] _] | intros [[=] _]]. }
        intros e He. specialize (Hle e He). lia.
    + destruct (IH err.(RewindTo) (Some err)) as (r & Hr & Hlow & Hnone & Hle).
      { lia. }
      { destruct Hfuel as [Hf|(_ & _ & l' & [=] & _)].
        destruct Hstrict as [Hlt|H0].
        - left. lia.
        - destruct (Z.eq_dec h 0) as [->|Hh0].
          + right. split; [lia |]. split; [exact H0 |]. eauto.
          + left. rewrite H0. simpl. lia. }
      { intros l' [= <-]. reflexivity. }
      exists r. split; [exact Hr |]. split; [exact Hlow |].
      split.
      { split; [intros Hn; apply Hnone in Hn as [[=] _] | intros [_ [=]]]. }
      intros e He. specialize (Hle e He). lia.
  - exists lasterr. split; [reflexivity |]. split.
    { destruct lasterr as [l|]; simpl; [| exact I].
      rewrite (Hlast l eq_refl), Hchk. exact I. }
    split.
    { split; [intros ->; split; reflexivity | intros [-> _]; reflexivity]. }
    intros e ->. rewrite (Hlast e eq_refl). lia.
Qed.

(** C10.  When PetersburgBlock is nil, IsPetersburg answers as
    IsConstantinople does, for every block number (a nil number included);
    when PetersburgBlock is set to [p], IsPetersburg holds of a block number
    [n] exactly when [p <= n] (and of no nil number). *)
Theorem IsPetersburg_cases (c : ChainConfig) (num : option Z) :
  IsPetersburg c num =
  match c.(PetersburgBlock) with
  | None => IsConstantinople c num
  | Some p => match num with
              | Some n => bool_decide (p <= n)
              | None => false
              end
  end.
Proof.
  unfold IsPetersburg, IsConstantinople.
  destruct c.(PetersburgBlock) as [p|]; simpl.
  - rewrite ?andb_false_l, ?orb_false_r. destruct num as [n|]; [| reflexivity]. simpl.
    destruct (Z.leb_spec p n).
    + symmetry. apply bool_decide_eq_true. assumption.
    + symmetry. apply bool_decide_eq_false. lia.
  - reflexivity.
Qed.

(** C7, as the code has it.  A fork is flagged incompatible at head [h]
    exactly when the stored or the new activation block is active at [h] and
    the two blocks differ.  The error carries the two blocks and
    [RewindTo = min - 1] when the smaller present block [min] is positive;
    when it is zero or negative, or both blocks are nil, [RewindTo] is 0.
    CheckCompatible always returns, with nil exactly when the first round
    finds no conflict, and otherwise with an error at or below the head under
    whose rewind point checkCompatible finds no lower rewind point.  Stored
    Berlin at 5000, new Berlin at 4000 and head 4500 give "Berlin fork block"
    with [RewindTo = 3999]. *)
Theorem compat_error_rewind (what : string) (s n : option Z) (h : Z)
    (c newcfg : ChainConfig) :
  0 <= h < two64 ->
  (isForkIncompatible s n (Some h) = true <->
   (isForked s (Some h) = true \/ isForked n (Some h) = true) /\ s <> n) /\
  (newCompatError what s n).(What) = what /\
  (newCompatError what s n).(StoredConfig) = s /\
  (newCompatError what s n).(NewConfig) = n /\
  (forall m, spec_min_block s n = Some m -> 0 < m < two64 ->
             (newCompatError what s n).(RewindTo) = m - 1) /\
  (forall m, spec_min_block s n = Some m -> m <= 0 ->
             (newCompatError what s n).(RewindTo) = 0) /\
  (spec_min_block s n = None -> (newCompatError what s n).(RewindTo) = 0) /\
  (exists r, CheckCompatible c newcfg h = Some r /\
             Lowest c newcfg r /\
             (r = None <-> checkCompatible c newcfg (Some h) = None) /\
             (forall e, r = Some e -> e.(RewindTo) <= h)) /\
  CheckCompatible (withBerlin (Some 5000)) (withBerlin (Some 4000)) 4500 =
    Some (Some {| What := "Berlin fork block"; StoredConfig := Some 5000;
                  NewConfig := Some 4000; RewindTo := 3999 |}).
Proof.
  intros Hh.
  split; [apply isForkIncompatible_true |].
  do 3 (split; [reflexivity |]).
  unfold newCompatError; simpl; rewrite rewindBlock_min.
  split; [| split; [| split; [| split]]].
  - intros m -> Hm. destruct (Z.ltb_spec 0 m); [| lia].
    rewrite Uint64_small by lia. unfold sub64. apply wrap64_small. lia.
  - intros m -> Hm. destruct (Z.ltb_spec 0 m); [lia | reflexivity].
  - intros ->. reflexivity.
  - destruct (CheckCompatible_loop_total c newcfg (2 + Z.to_nat h) h None)
      as (r & Hr & Hlow & Hnone & Hle).
    + exact Hh.
    + left. lia.
    + discriminate.
    + exists r. split; [exact Hr |]. split; [exact Hlow |].
      split; [| exact Hle].
      rewrite Hnone. tauto.
  - vm_compute. reflexivity.
Qed.

Lemma compat_error_rewind_witness :
  0 <= 4500 < two64 /\
  (newCompatError "Berlin fork block" (Some 5000) (Some 4000)).(RewindTo) = 3999.
Proof.
  assert (Hh : 0 <= 4500 < two64) by (vm_compute; split; congruence).
  split; [exact Hh |].
  destruct (compat_error_rewind "Berlin fork block" (Some 5000) (Some 4000)
              4500 noForks noForks Hh) as (_ & _ & _ & _ & Hmin & _).
  apply (Hmin 4000); [reflexivity | vm_compute; split; reflexivity].
Defined.

(** C7 as the specification words it fails when the smaller block is 0: the
    fork is flagged, but the rewind point is 0 and not [min - 1]. *)
Lemma compat_error_rewind_at_zero :
  isForkIncompatible (Some 0) (Some 10) (Some 5) = true /\
  spec_min_block (Some 0) (Some 10) = Some 0 /\
  (newCompatError "Homestead fork block" (Some 0) (Some 10)).(RewindTo)
    <> 0 - 1.
Proof. vm_compute. repeat split; congruence. Qed.

End ParamsProperties.

(** * Properties of the engine *)

Section EngineProperties.

Import Params V1 Reference.

Context `{!Externals}.

Lemma len_nonneg {A : Type} (l : list A) : 0 <= len l.
Proof. unfold len. lia. Qed.

Lemma slice_in_range {A : Type} (b : list A) (lo hi : Z) :
  0 <= lo -> lo <= hi -> hi <= len b ->
  slice b lo hi = Ret (take (Z.to_nat (hi - lo)) (drop (Z.to_nat lo) b)).
Proof.
  intros H0 H1 H2. unfold slice.
  destruct (Z.leb_spec 0 lo); [| lia].
  destruct (Z.leb_spec lo hi); [| lia].
  destruct (Z.leb_spec hi (len b)); [| lia].
  reflexivity.
Qed.

Lemma sliceTo_negative {A : Type} (b : list A) (hi : Z) :
  hi < 0 -> sliceTo b hi = Panic "slice bounds out of range".
Proof.
  intros Hhi. unfold sliceTo, slice.
  destruct (Z.leb_spec 0 hi); [lia |]. reflexivity.
Qed.

Lemma sliceTo_unsealed (extra : list byte) :
  SignatureLength <= len extra ->
  sliceTo extra (len extra - SignatureLength) = Ret (unsealed extra).
Proof.
  intros Hlen. unfold sliceTo, SignatureLength in *.
  rewrite slice_in_range by (pose proof (len_nonneg extra); lia).
  unfold unsealed, len. simpl drop. do 2 f_equal. lia.
Qed.

(** The preimage of the seal hash, once the extra-data is long enough. *)
Lemma encodeSigHeader_unsealed (header : Header) :
  SignatureLength <= len header.(Extra) ->
  encodeSigHeader header =
  match rlpEncode [
    RlpBytes header.(ParentHash); RlpBytes header.(UncleHash);
    RlpBytes header.(Coinbase); RlpBytes header.(Root);
    RlpBytes header.(TxHash); RlpBytes header.(ReceiptHash);
    RlpBytes header.(Bloom); RlpBig header.(Difficulty);
    RlpBig header.(Number); RlpUint header.(GasLimit);
    RlpUint header.(GasUsed); RlpUint header.(Time);
    RlpBytes (unsealed header.(Extra));
    RlpBytes header.(MixDigest); RlpBytes header.(Nonce)
  ] with
  | inl bytes => Ret bytes
  | inr err => Panic ("can't encode: " +:+ err)
  end.
Proof.
  intros Hlen. unfold encodeSigHeader.
  rewrite sliceTo_unsealed by exact Hlen. reflexivity.
Qed.

Lemma unsealed_sealExtra (extra sighash : list byte) :
  ExtraSeal <= len extra ->
  exists extra', sealExtra extra sighash = Ret extra' /\
                 length extra' = length extra /\
                 unsealed extra' = unsealed extra.
Proof.
  intros Hlen. unfold sealExtra, sliceFrom, ExtraSeal in *.
  pose proof (len_nonneg extra) as Hnn. unfold len in *.
  rewrite slice_in_range by (unfold len; lia).
  eexists. split; [reflexivity |].
  assert (Hlen' : length (copy
            (take (Z.to_nat (Z.of_nat (length extra) - (Z.of_nat (length extra) - 65)))
               (drop (Z.to_nat (Z.of_nat (length extra) - 65)) extra)) sighash)
          = 65%nat).
  { unfold copy. rewrite length_app, length_take, length_drop, length_take, length_drop.
    lia. }
  split.
  - rewrite length_app, length_take, Hlen'. lia.
  - unfold unsealed. rewrite length_app, length_take, Hlen'.
    rewrite take_app_le by (rewrite length_take; lia).
    rewrite take_take. f_equal. lia.
Qed.

(** C2.  With at least 65 bytes of extra-data the seal hash is the digest of
    the RLP encoding of the 15 header fields, the extra-data entering
    without its last 65 bytes.  Hence two headers that agree on every other
    field and on the extra-data before the last 65 bytes have the same seal
    hash, and overwriting the trailing 65 bytes with a signature (the [copy]
    statement of Seal) leaves the seal hash unchanged. *)
Theorem SealHash_ignores_seal (h1 h2 : Header) (sighash : list byte) :
  SignatureLength <= len h1.(Extra) ->
  SignatureLength <= len h2.(Extra) ->
  same_but_extra h1 h2 ->
  unsealed h1.(Extra) = unsealed h2.(Extra) ->
  SealHash h1 =
    match rlpEncode [
      RlpBytes h1.(ParentHash); RlpBytes h1.(UncleHash);
      RlpBytes h1.(Coinbase); RlpBytes h1.(Root);
      RlpBytes h1.(TxHash); RlpBytes h1.(ReceiptHash);
      RlpBytes h1.(Bloom); RlpBig h1.(Difficulty);
      RlpBig h1.(Number); RlpUint h1.(GasLimit);
      RlpUint h1.(GasUsed); RlpUint h1.(Time);
      RlpBytes (unsealed h1.(Extra));
      RlpBytes h1.(MixDigest); RlpBytes h1.(Nonce)
    ] with
    | inl bytes => Ret (keccak256 bytes)
    | inr err => Panic ("can't encode: " +:+ err)
    end /\
  SealHash h1 = SealHash h2 /\
  exists extra', sealExtra h1.(Extra) sighash = Ret extra' /\
                 SealHash (withExtra h1 extra') = SealHash h1.
Proof.
  intros Hl1 Hl2 Hsame Hext. split; [| split].
  - unfold SealHash. rewrite encodeSigHeader_unsealed by assumption.
    destruct (rlpEncode _); reflexivity.
  - unfold SealHash. rewrite !encodeSigHeader_unsealed by assumption.
    destruct Hsame as (-> & -> & -> & -> & -> & -> & -> & -> & -> & -> & ->
                       & -> & -> & ->).
    rewrite Hext. reflexivity.
  - destruct (unsealed_sealExtra h1.(Extra) sighash Hl1)
      as (extra' & Hseal & Hlen & Hun).
    exists extra'. split; [exact Hseal |].
    unfold SealHash. rewrite !encodeSigHeader_unsealed.
    + simpl. rewrite Hun. reflexivity.
    + exact Hl1.
    + simpl. unfold len in *. rewrite Hlen. exact Hl1.
Qed.

Lemma SealHash_panics_short (header : Header) :
  len header.(Extra) < SignatureLength ->
  SealHash header = Panic "slice bounds out of range".
Proof.
  intros Hlen. unfold SealHash, encodeSigHeader.
  rewrite sliceTo_negative by lia. reflexivity.
Qed.

Lemma panic_not_returns {A : Type} (m : go A) (reason : string) :
  m = Panic reason -> ~ returns m.
Proof. intros -> (a & Ha). discriminate. Qed.

(** C8, as the code has it.  With fewer than 65 bytes of extra-data SealHash
    does not return: the slice expression of encodeSigHeader panics, so no
    hash and no error value comes back. *)
Theorem SealHash_short_extra_panics (header : Header) :
  len header.(Extra) < SignatureLength ->
  SealHash header = Panic "slice bounds out of range" /\
  ~ returns (SealHash header).
Proof.
  intros Hlen. pose proof (SealHash_panics_short header Hlen) as Hp.
  split; [exact Hp |]. exact (panic_not_returns _ _ Hp).
Qed.

(** C9.  When the header hash misses the signature cache and the extra-data
    has fewer than 65 bytes, Ecrecover, and Author with it, returns the zero
    address and ErrMissingSignature; it returns although SealHash panics on
    such a header, so the seal hash is not evaluated. *)
Theorem Ecrecover_missing_signature (c : Consortium) (header : Header)
    (sigcache sigcache' : SigCache) :
  sigGet sigcache (headerHash header) = (None, sigcache') ->
  len header.(Extra) < ExtraSeal ->
  Ecrecover header sigcache
    = Ret (zeroAddress, Some ErrMissingSignature, sigcache') /\
  Author c header sigcache
    = Ret (zeroAddress, Some ErrMissingSignature, sigcache') /\
  ~ returns (SealHash header).
Proof.
  intros Hmiss Hlen.
  assert (He : Ecrecover header sigcache
               = Ret (zeroAddress, Some ErrMissingSignature, sigcache')).
  { unfold Ecrecover. rewrite Hmiss.
    destruct (Z.ltb_spec (len header.(Extra)) ExtraSeal); [reflexivity | lia]. }
  split; [exact He |]. split; [exact He |].
  apply (panic_not_returns _ "slice bounds out of range").
  apply SealHash_panics_short. exact Hlen.
Qed.

(** *** Turns and seal verification *)

Lemma Uint64_range (x : Z) : 0 <= Uint64 x < two64.
Proof. unfold Uint64, wrap64. apply Z.mod_pos_bound. reflexivity. Qed.

Lemma sub64_one (n : Z) : 0 < n < two64 -> sub64 n 1 = n - 1.
Proof. intros Hn. unfold sub64. apply wrap64_small. lia. Qed.

Lemma epoch_remainder (N E : Z) : 0 < E -> N - N / E * E = N mod E.
Proof. intros HE. rewrite Z.mod_eq by lia. lia. Qed.

Lemma signerInTurn_spec (c : Consortium) (signer : Address) (number : Z)
    (validators : list Address) :
  0 < c.(config).(Epoch) -> 0 <= number < two64 -> validators <> [] ->
  signerInTurn c signer number validators
    = Ret (spec_in_turn validators number c.(config).(Epoch) signer).
Proof.
  intros HE Hn Hne. unfold signerInTurn, div64, mod64, spec_in_turn.
  set (E := c.(config).(Epoch)) in *.
  destruct (Z.eqb_spec E 0); [lia |]. simpl.
  assert (Hq : 0 <= number / E * E <= number).
  { pose proof (Z.mod_pos_bound number E HE).
    pose proof (epoch_remainder number E HE).
    assert (0 <= number / E) by (apply Z.div_pos; lia). nia. }
  rewrite (wrap64_small (number / E * E)) by lia.
  unfold sub64. rewrite wrap64_small by lia.
  assert (Hl : 0 < len validators).
  { unfold len. destruct validators; [congruence | simpl; lia]. }
  destruct (Z.eqb_spec (len validators) 0); [lia |]. simpl.
  pose proof (Z.mod_pos_bound (number - number / E * E) (len validators) Hl) as Hi.
  destruct (lookup_lt_is_Some_2 validators
              (Z.to_nat ((number - number / E * E) `mod` len validators)))
    as [v Hv].
  { unfold len in *. lia. }
  rewrite Hv. f_equal. apply bool_decide_ext. split; congruence.
Qed.

(** What verifySeal answers once the snapshot and the signer are at hand and
    the signer is the authorized coinbase. *)
Lemma verifySeal_decides (c : Consortium) (chain : ChainHeaderReader)
    (header : Header) (parents : list Header) (sigcache : SigCache)
    (nb d : Z) (snap : Snapshot) (sc1 sc2 : SigCache) (signer : Address) :
  0 < c.(config).(Epoch) ->
  header.(Number) = Some nb -> 0 < Uint64 nb ->
  snapshot chain sigcache (Uint64 nb - 1) header.(ParentHash) parents
    = (inl snap, sc1) ->
  Ecrecover header sc1 = Ret (signer, None, sc2) ->
  signer = header.(Coinbase) ->
  signer ∈ snap.(SignerSet) ->
  snap.(SignerList) <> [] ->
  header.(Difficulty) = Some d ->
  verifySeal c chain header parents sigcache
  = Ret (if bool_decide
              (d = spec_difficulty snap.(SignerList) (Uint64 nb)
                     c.(config).(Epoch) signer)
         then None else Some ErrWrongDifficulty, sc2).
Proof.
  intros HE Hnum Hpos Hsnap Hrec Hcb Hin Hne Hd.
  pose proof (Uint64_range nb) as Hr.
  unfold verifySeal, numberUint64. rewrite Hnum. simpl.
  destruct (Z.eqb_spec (Uint64 nb) 0); [lia |].
  rewrite sub64_one by lia. rewrite Hsnap, Hrec. simpl.
  rewrite (bool_decide_eq_true_2 _ Hcb). simpl.
  rewrite (bool_decide_eq_true_2 _ Hin). simpl.
  rewrite signerInTurn_spec by (assumption || lia). simpl.
  unfold spec_difficulty, cmpNe, diffInTurn, diffNoTurn. rewrite Hd.
  destruct (spec_in_turn _ _ _ _); simpl.
  - destruct (Z.eqb_spec d 7); simpl.
    + rewrite bool_decide_eq_true_2 by assumption. reflexivity.
    + rewrite bool_decide_eq_false_2 by assumption. reflexivity.
  - destruct (Z.eqb_spec d 3); simpl.
    + rewrite bool_decide_eq_true_2 by assumption. reflexivity.
    + rewrite bool_decide_eq_false_2 by assumption. reflexivity.
Qed.

Lemma signerInTurn_returns (c : Consortium) (signer : Address) (number : Z)
    (validators : list Address) (b : bool) :
  signerInTurn c signer number validators = Ret b ->
  c.(config).(Epoch) <> 0 /\ validators <> [].
Proof.
  unfold signerInTurn, div64, mod64.
  destruct (Z.eqb_spec c.(config).(Epoch) 0); [discriminate |]. simpl.
  destruct validators as [|v vs]; [discriminate |].
  intros _. split; [assumption | discriminate].
Qed.

(** The steps a header has passed when verifySeal accepts it. *)
Lemma verifySeal_accepts_inv (c : Consortium) (chain : ChainHeaderReader)
    (header : Header) (parents : list Header) (sigcache sc' : SigCache) :
  verifySeal c chain header parents sigcache = Ret (None, sc') ->
  exists nb d snap sc1 signer,
    header.(Number) = Some nb /\ 0 < Uint64 nb /\
    snapshot chain sigcache (Uint64 nb - 1) header.(ParentHash) parents
      = (inl snap, sc1) /\
    Ecrecover header sc1 = Ret (signer, None, sc') /\
    signer = header.(Coinbase) /\
    signer ∈ snap.(SignerSet) /\
    snap.(SignerList) <> [] /\
    c.(config).(Epoch) <> 0 /\
    header.(Difficulty) = Some d.
Proof.
  unfold verifySeal, numberUint64.
  destruct header.(Number) as [nb|] eqn:Hnum; [| discriminate]. simpl.
  pose proof (Uint64_range nb) as Hr.
  destruct (Z.eqb_spec (Uint64 nb) 0); [discriminate |].
  rewrite sub64_one by lia.
  destruct (snapshot chain sigcache (Uint64 nb - 1) header.(ParentHash) parents)
    as [[snap|err] sc1] eqn:Hsnap; [| discriminate].
  destruct (Ecrecover header sc1) as [[[signer err] sc2]|] eqn:Hrec;
    [| discriminate]. simpl.
  destruct err as [err|]; [discriminate |].
  destruct (bool_decide (signer = header.(Coinbase))) eqn:Hcb;
    [| discriminate]. simpl.
  destruct (bool_decide (signer ∈ snap.(SignerSet))) eqn:Hin;
    [| discriminate]. simpl.
  destruct (signerInTurn c signer (Uint64 nb) snap.(SignerList))
    as [inturn|] eqn:Hturn; [| discriminate]. simpl.
  apply signerInTurn_returns in Hturn as [HE Hne].
  apply bool_decide_eq_true in Hcb, Hin.
  destruct header.(Difficulty) as [d|] eqn:Hd.
  - intros Hres. exists nb, d, snap, sc1, signer.
    assert (sc2 = sc') as ->.
    { destruct inturn; simpl in Hres;
        repeat match type of Hres with
               | context [if ?b then _ else _] => destruct b; simpl in Hres
               end; congruence. }
    repeat split; try assumption; try lia.
  - destruct inturn; discriminate.
Qed.

(** C1.  A header that verifySeal accepts has a number [N > 0], a snapshot
    and a recovered signer equal to its coinbase, and its difficulty is 7
    when the signer list entry at index [(N - N/Epoch*Epoch) mod |list|] is
    that signer and 3 otherwise; the index is also [(N mod Epoch) mod |list|].
    A header that reaches the difficulty check with any other difficulty is
    rejected with ErrWrongDifficulty. *)
Theorem verifySeal_turn_difficulty (c : Consortium) (chain : ChainHeaderReader)
    (header : Header) (parents : list Header) (sigcache : SigCache) :
  0 <= c.(config).(Epoch) ->
  (forall sc',
     verifySeal c chain header parents sigcache = Ret (None, sc') ->
     exists nb snap sc1 signer,
       header.(Number) = Some nb /\ 0 < Uint64 nb /\
       snapshot chain sigcache (Uint64 nb - 1) header.(ParentHash) parents
         = (inl snap, sc1) /\
       Ecrecover header sc1 = Ret (signer, None, sc') /\
       signer = header.(Coinbase) /\
       header.(Difficulty)
         = Some (if spec_in_turn snap.(SignerList) (Uint64 nb)
                      c.(config).(Epoch) signer then 7 else 3) /\
       spec_in_turn snap.(SignerList) (Uint64 nb) c.(config).(Epoch) signer
         = bool_decide
             (snap.(SignerList)
                !! Z.to_nat ((Uint64 nb `mod` c.(config).(Epoch))
                             `mod` len snap.(SignerList))
              = Some header.(Coinbase))) /\
  (forall nb d snap sc1 sc2 signer,
     c.(config).(Epoch) <> 0 ->
     header.(Number) = Some nb -> 0 < Uint64 nb ->
     snapshot chain sigcache (Uint64 nb - 1) header.(ParentHash) parents
       = (inl snap, sc1) ->
     Ecrecover header sc1 = Ret (signer, None, sc2) ->
     signer = header.(Coinbase) ->
     signer ∈ snap.(SignerSet) ->
     snap.(SignerList) <> [] ->
     header.(Difficulty) = Some d ->
     d <> (if spec_in_turn snap.(SignerList) (Uint64 nb)
                c.(config).(Epoch) signer then 7 else 3) ->
     verifySeal c chain header parents sigcache
       = Ret (Some ErrWrongDifficulty, sc2)).
Proof.
  intros HE. split.
  - intros sc' Hacc.
    destruct (verifySeal_accepts_inv _ _ _ _ _ _ Hacc)
      as (nb & d & snap & sc1 & signer & Hnum & Hpos & Hsnap & Hrec & Hcb
          & Hin & Hne & HE0 & Hd).
    exists nb, snap, sc1, signer.
    do 5 (split; [assumption |]).
    rewrite (verifySeal_decides c chain header parents sigcache nb d snap sc1
               sc' signer) in Hacc by (assumption || lia).
    split.
    + rewrite Hd. f_equal. unfold spec_difficulty in Hacc.
      destruct (bool_decide_reflect
                  (d = if spec_in_turn snap.(SignerList) (Uint64 nb)
                            c.(config).(Epoch) signer then 7 else 3));
        [assumption | discriminate].
    + unfold spec_in_turn. rewrite epoch_remainder by lia. rewrite Hcb.
      reflexivity.
  - intros nb d snap sc1 sc2 signer HE0 Hnum Hpos Hsnap Hrec Hcb Hin Hne Hd Hdis.
    rewrite (verifySeal_decides c chain header parents sigcache nb d snap sc1
               sc2 signer) by (assumption || lia).
    unfold spec_difficulty. rewrite bool_decide_eq_false_2 by assumption.
    reflexivity.
Qed.

(** C3.  verifySeal does not look at the recent signers: a header with
    number [N > 0] whose recovered signer is its coinbase, is in the signer
    set of the snapshot and carries the turn difficulty is accepted, whatever
    the snapshot's recents hold. *)
Theorem verifySeal_ignores_recents (c : Consortium) (chain : ChainHeaderReader)
    (header : Header) (parents : list Header) (sigcache sc1 sc2 : SigCache)
    (nb : Z) (snap : Snapshot) (signer : Address) :
  0 < c.(config).(Epoch) ->
  header.(Number) = Some nb -> 0 < Uint64 nb ->
  snapshot chain sigcache (Uint64 nb - 1) header.(ParentHash) parents
    = (inl snap, sc1) ->
  Ecrecover header sc1 = Ret (signer, None, sc2) ->
  signer = header.(Coinbase) ->
  signer ∈ snap.(SignerSet) ->
  snap.(SignerList) <> [] ->
  header.(Difficulty)
    = Some (spec_difficulty snap.(SignerList) (Uint64 nb)
              c.(config).(Epoch) signer) ->
  verifySeal c chain header parents sigcache = Ret (None, sc2).
Proof.
  intros HE Hnum Hpos Hsnap Hrec Hcb Hin Hne Hd.
  rewrite (verifySeal_decides c chain header parents sigcache nb
             (spec_difficulty snap.(SignerList) (Uint64 nb)
                c.(config).(Epoch) signer) snap sc1 sc2 signer)
    by assumption.
  rewrite bool_decide_eq_true_2 by reflexivity. reflexivity.
Qed.

(** *** Finalization *)

Lemma len_zero_iff {A : Type} (l : list A) : len l = 0 <-> l = [].
Proof.
  unfold len. destruct l; simpl; split; try reflexivity; try discriminate; lia.
Qed.

Lemma len_pos_iff {A : Type} (l : list A) : 0 < len l <-> l <> [].
Proof.
  unfold len. destruct l; simpl; split; try congruence; try lia.
Qed.

(** C5.  Finalize on a header with number [N] answers the system-tx mismatch
    error, leaving the header as it was, when the supplied list is non-empty
    although [N+1] is not the ConsortiumV2 block, or empty although it is.
    When the list is non-empty and [N+1] is that block, WrapUpEpoch runs; its
    error is returned, and transactions it leaves unconsumed give the
    mismatch error.  In every result the root and the uncle hash are set
    exactly when no error is returned, and then no system transaction is
    left. *)
Theorem Finalize_system_txs (c : Consortium) (chain : ChainHeaderReader)
    (header : Header) (n : Z) (state : StateDB) (txs : list Transaction)
    (receipts : list Receipt) (systemTxs : list Transaction) (usedGas : Z) :
  header.(Number) = Some n ->
  let last := IsOnConsortiumV2 c.(chainConfig) (Some (n + 1)) in
  let run := Finalize c chain header state txs receipts systemTxs usedGas in
  ((systemTxs <> [] /\ last = false) \/ (systemTxs = [] /\ last = true) ->
   exists r, run = Ret r /\ r.(FinErr) = Some errSystemTxs /\
             r.(FinHeader) = header /\ r.(FinSystemTxs) = systemTxs) /\
  (forall integrator err after,
     systemTxs <> [] -> last = true ->
     c.(contract) = Some integrator ->
     integrator.(WrapUpEpoch)
       (finalizeOpts c header state txs receipts systemTxs usedGas)
     = (err, after) ->
     exists r, run = Ret r /\
       r.(FinSystemTxs) = remainingTxs systemTxs after /\
       r.(FinErr) = match err with
                    | Some e => Some e
                    | None => if bool_decide (remainingTxs systemTxs after = [])
                              then None else Some errSystemTxs
                    end) /\
  (systemTxs = [] -> last = false ->
   exists r, run = Ret r /\ r.(FinErr) = None) /\
  (forall r, run = Ret r ->
     let '(h, st) := handedBack c header state txs receipts systemTxs
                       usedGas in
     r.(FinHeader) = match r.(FinErr) with
                    | None => stampRoot chain h st
                    | Some _ => h
                    end /\
     (r.(FinErr) = None ->
      r.(FinSystemTxs) = [] /\ (systemTxs <> [] <-> last = true))).
Proof.
  intros Hnum last run. subst run. unfold Finalize. rewrite Hnum.
  fold last. unfold handedBack. rewrite Hnum. simpl fmap. fold last.
  split; [| split; [| split]].
  - intros [[Hne Hl]|[-> Hl]]; rewrite Hl.
    + apply len_pos_iff in Hne. destruct (Z.ltb_spec 0 (len systemTxs)); [| lia].
      simpl. eexists. split; [reflexivity |]. simpl. auto.
    + simpl. eexists. split; [reflexivity |]. simpl. auto.
  - intros integrator err after Hne Hl Hc Hw. rewrite Hl, Hc, Hw.
    pose proof (proj2 (len_pos_iff systemTxs) Hne) as Hpos.
    destruct (Z.ltb_spec 0 (len systemTxs)); [| lia].
    destruct (Z.eqb_spec (len systemTxs) 0); [lia |]. simpl.
    destruct err as [e|].
    + eexists. split; [reflexivity |]. simpl. auto.
    + destruct (Z.ltb_spec 0 (len (remainingTxs systemTxs after))) as [Hlt|Hge].
      * eexists. split; [reflexivity |]. simpl. split; [reflexivity |].
        rewrite bool_decide_eq_false_2; [reflexivity |].
        apply len_pos_iff. exact Hlt.
      * eexists. split; [reflexivity |]. simpl. split; [reflexivity |].
        rewrite bool_decide_eq_true_2; [reflexivity |].
        apply len_zero_iff. pose proof (len_nonneg (remainingTxs systemTxs after)).
        lia.
  - intros -> Hl. rewrite Hl. simpl. eexists. split; reflexivity.
  - intros r.
    destruct systemTxs as [|tx rest].
    + simpl. destruct last eqn:Hl; simpl.
      * intros [= <-]. simpl. split; [reflexivity | discriminate].
      * intros [= <-]. simpl. split; [reflexivity |].
        intros _. split; [reflexivity |]. split; [congruence | discriminate].
    + assert (Hpos : 0 < len (tx :: rest)) by (unfold len; simpl; lia).
      destruct (Z.ltb_spec 0 (len (tx :: rest))); [| lia].
      destruct (Z.eqb_spec (len (tx :: rest)) 0); [lia |].
      destruct last eqn:Hl; simpl.
      * destruct c.(contract) as [integrator|]; [| discriminate].
        destruct (integrator.(WrapUpEpoch) _) as [err after] eqn:Hw. simpl.
        destruct err as [e|].
        { intros [= <-]. simpl. split; [reflexivity | discriminate]. }
        destruct (Z.ltb_spec 0 (len (remainingTxs (tx :: rest) after)))
          as [Hlt|Hge].
        { intros [= <-]. simpl. split; [reflexivity | discriminate]. }
        intros [= <-]. simpl. split; [reflexivity |]. intros _. split.
        { apply len_zero_iff.
          pose proof (len_nonneg (remainingTxs (tx :: rest) after)). lia. }
        split; [intros _; reflexivity | intros _; discriminate].
      * intros [= <-].
        destruct c.(contract); simpl; (split; [reflexivity | discriminate]).
Qed.

(** *** Standalone header checks *)

(** The checks of VerifyHeaderAndParents that come before the extra-data
    checks either pass or reject the header. *)
Lemma VerifyHeaderAndParents_prefix (c : Consortium)
    (chain : ChainHeaderReader) (header : Header) (parents : list Header)
    (sigcache : SigCache) :
  (exists e, VerifyHeaderAndParents c chain header parents sigcache
             = Ret (Some e, sigcache)) \/
  (exists nb, header.(Number) = Some nb /\
              header.(Time) <= wrap64 timeNow /\
              header.(Nonce) = emptyNonce).
Proof.
  unfold VerifyHeaderAndParents.
  destruct header.(Number) as [nb|]; [| left; eauto].
  destruct (Z.ltb_spec (wrap64 timeNow) header.(Time)); [left; eauto |].
  destruct (bool_decide_reflect (header.(Nonce) = emptyNonce)) as [Hn|Hn];
    [| left; eauto].
  right. exists nb. auto.
Qed.

(** C6.  VerifyHeaderAndParents (which VerifyHeader calls without parents)
    rejects every header whose extra-data has fewer than 32+65 bytes, and
    every header whose [signers_bytes = len(Extra) - 32 - 65] is not 0 off a
    checkpoint ([Number % Epoch <> 0]) or not a multiple of 20 on a
    checkpoint.  For a header that
    has a number, is not from the future and has the zero nonce, the error is
    ErrMissingVanity below 32 bytes, ErrMissingSignature below 32+65,
    errExtraSigners off a checkpoint and ErrInvalidCheckpointSigners on
    one. *)
Theorem VerifyHeaderAndParents_extra (c : Consortium)
    (chain : ChainHeaderReader) (header : Header) (parents : list Header)
    (sigcache : SigCache) (seal : bool) :
  let run := VerifyHeaderAndParents c chain header parents sigcache in
  let signers_bytes := len header.(Extra) - 32 - 65 in
  let epoch := c.(config).(Epoch) in
  VerifyHeader c chain header seal sigcache
    = VerifyHeaderAndParents c chain header [] sigcache /\
  (len header.(Extra) < 32 + 65 -> exists e, run = Ret (Some e, sigcache)) /\
  (forall nb,
     header.(Number) = Some nb -> epoch <> 0 ->
     Uint64 nb `mod` epoch <> 0 /\ signers_bytes <> 0 \/
     Uint64 nb `mod` epoch = 0 /\ signers_bytes `mod` 20 <> 0 ->
     exists e, run = Ret (Some e, sigcache)) /\
  (forall nb,
     header.(Number) = Some nb ->
     header.(Time) <= wrap64 timeNow -> header.(Nonce) = emptyNonce ->
     (len header.(Extra) < 32 -> run = Ret (Some ErrMissingVanity, sigcache)) /\
     (32 <= len header.(Extra) < 32 + 65 ->
      run = Ret (Some ErrMissingSignature, sigcache)) /\
     (32 + 65 <= len header.(Extra) -> epoch <> 0 ->
      Uint64 nb `mod` epoch <> 0 -> signers_bytes <> 0 ->
      run = Ret (Some errExtraSigners, sigcache)) /\
     (32 + 65 <= len header.(Extra) -> epoch <> 0 ->
      Uint64 nb `mod` epoch = 0 -> signers_bytes `mod` 20 <> 0 ->
      run = Ret (Some ErrInvalidCheckpointSigners, sigcache))).
Proof.
  intros run signers_bytes epoch.
  assert (Hspecific : forall nb,
    header.(Number) = Some nb ->
    header.(Time) <= wrap64 timeNow -> header.(Nonce) = emptyNonce ->
    (len header.(Extra) < 32 -> run = Ret (Some ErrMissingVanity, sigcache)) /\
    (32 <= len header.(Extra) < 32 + 65 ->
     run = Ret (Some ErrMissingSignature, sigcache)) /\
    (32 + 65 <= len header.(Extra) -> epoch <> 0 ->
     Uint64 nb `mod` epoch <> 0 -> signers_bytes <> 0 ->
     run = Ret (Some errExtraSigners, sigcache)) /\
    (32 + 65 <= len header.(Extra) -> epoch <> 0 ->
     Uint64 nb `mod` epoch = 0 -> signers_bytes `mod` 20 <> 0 ->
     run = Ret (Some ErrInvalidCheckpointSigners, sigcache))).
  { intros nb Hnum Htime Hnonce. subst run signers_bytes epoch.
    unfold VerifyHeaderAndParents. rewrite Hnum.
    destruct (Z.ltb_spec (wrap64 timeNow) header.(Time)); [lia |].
    rewrite (bool_decide_eq_true_2 _ Hnonce). simpl negb. cbv iota.
    unfold extraVanity, ExtraSeal, AddressLength, mod64.
    split; [| split; [| split]].
    - intros Hlen.
      destruct (Z.ltb_spec (len header.(Extra)) 32); [reflexivity | lia].
    - intros Hlen. destruct (Z.ltb_spec (len header.(Extra)) 32); [lia |].
      destruct (Z.ltb_spec (len header.(Extra)) (32 + 65)); [reflexivity | lia].
    - intros Hlen HE Hcp Hsb.
      destruct (Z.ltb_spec (len header.(Extra)) 32); [lia |].
      destruct (Z.ltb_spec (len header.(Extra)) (32 + 65)); [lia |].
      destruct (Z.eqb_spec c.(config).(Epoch) 0); [contradiction |]. simpl.
      destruct (Z.eqb_spec (Uint64 nb `mod` c.(config).(Epoch)) 0);
        [contradiction |].
      destruct (Z.eqb_spec (len header.(Extra) - 32 - 65) 0); [contradiction |].
      reflexivity.
    - intros Hlen HE Hcp Hsb.
      destruct (Z.ltb_spec (len header.(Extra)) 32); [lia |].
      destruct (Z.ltb_spec (len header.(Extra)) (32 + 65)); [lia |].
      destruct (Z.eqb_spec c.(config).(Epoch) 0); [contradiction |]. simpl.
      destruct (Z.eqb_spec (Uint64 nb `mod` c.(config).(Epoch)) 0);
        [| contradiction]. simpl.
      rewrite Z.rem_mod_nonneg by lia.
      destruct (Z.eqb_spec ((len header.(Extra) - 32 - 65) `mod` 20) 0);
        [contradiction |].
      reflexivity. }
  split; [reflexivity |]. split; [| split; [| exact Hspecific]].
  - intros Hshort.
    destruct (VerifyHeaderAndParents_prefix c chain header parents sigcache)
      as [Hrej|(nb & Hnum & Htime & Hnonce)]; [exact Hrej |].
    destruct (Hspecific nb Hnum Htime Hnonce) as (Hvan & Hsig & _).
    destruct (Z.lt_ge_cases (len header.(Extra)) 32) as [Hlt|Hge];
      [eexists; exact (Hvan Hlt) | eexists; apply Hsig; lia].
  - intros nb Hnum HE Hbad.
    destruct (VerifyHeaderAndParents_prefix c chain header parents sigcache)
      as [Hrej|(nb' & Hnum' & Htime & Hnonce)]; [exact Hrej |].
    destruct (Hspecific nb Hnum Htime Hnonce) as (Hvan & Hsig & Hextra & Hcp).
    destruct (Z.lt_ge_cases (len header.(Extra)) 32) as [Hlt|Hge];
      [eexists; exact (Hvan Hlt) |].
    destruct (Z.lt_ge_cases (len header.(Extra)) (32 + 65)) as [Hlt|Hge'];
      [eexists; apply Hsig; lia |].
    destruct Hbad as [(Hm & Hsb)|(Hm & Hsb)].
    + eexists. exact (Hextra Hge' HE Hm Hsb).
    + eexists. exact (Hcp Hge' HE Hm Hsb).
Qed.

(** *** The recent-signer window of Seal *)

Lemma recentsLoop_hit (entries : list (Z * Address)) (signer : Address)
    (number : Z) (validators : list Address) :
  (exists seen, (seen, signer) ∈ entries /\
                sub64 number (len validators / 2 + 1) < seen) ->
  recentsLoop entries signer number validators = Some ErrRecentlySigned.
Proof.
  induction entries as [|[seen' recent] rest IH]; intros (seen & Hin & Hlt).
  - inversion Hin.
  - simpl. destruct (bool_decide_reflect (recent = signer)) as [->|Hne]; simpl.
    + destruct (Z.ltb_spec (sub64 number (len validators / 2 + 1)) seen');
        [reflexivity |].
      apply IH. apply elem_of_cons in Hin as [[= -> ]|Hin]; [lia |]. eauto.
    + apply IH. apply elem_of_cons in Hin as [[= -> ->]|Hin];
        [contradiction |]. eauto.
Qed.

Lemma recentsLoop_sound (entries : list (Z * Address)) (signer : Address)
    (number : Z) (validators : list Address) (e : error) :
  recentsLoop entries signer number validators = Some e ->
  e = ErrRecentlySigned /\
  exists seen, (seen, signer) ∈ entries /\
               sub64 number (len validators / 2 + 1) < seen.
Proof.
  induction entries as [|[seen' recent] rest IH]; [discriminate |]. simpl.
  destruct (bool_decide_reflect (recent = signer)) as [->|Hne]; simpl.
  - destruct (Z.ltb_spec (sub64 number (len validators / 2 + 1)) seen').
    + intros [= <-]. split; [reflexivity |]. exists seen'.
      split; [apply list_elem_of_here | assumption].
    + intros Hr. destruct (IH Hr) as (-> & seen & Hin & Hlt).
      split; [reflexivity |]. exists seen.
      split; [apply list_elem_of_further; assumption | assumption].
  - intros Hr. destruct (IH Hr) as (-> & seen & Hin & Hlt).
    split; [reflexivity |]. exists seen.
    split; [apply list_elem_of_further; assumption | assumption].
Qed.

(** As long as the subtraction [number - limit] does not wrap, the test of
    the loop is the distance test of the specification. *)
Lemma window_distance (number seen : Z) (validators : list Address) :
  len validators / 2 + 1 <= number < two64 ->
  sub64 number (len validators / 2 + 1) < seen <->
  number - seen <= len validators / 2.
Proof.
  intros Hn. unfold sub64. rewrite wrap64_small; [lia |].
  assert (0 <= len validators / 2)
    by (apply Z.div_pos; [apply len_nonneg | lia]).
  lia.
Qed.

(** The loop of Seal over the recents of a snapshot, while the subtraction
    does not wrap: it answers ErrRecentlySigned exactly when the signer holds
    a block at distance [|V|/2] or less, and lets the signer through exactly
    when all its blocks are at distance [|V|/2 + 1] or more. *)
Lemma recentsLoop_window (recents : gmap Z Address) (signer : Address)
    (number : Z) (validators : list Address) :
  len validators / 2 + 1 <= number < two64 ->
  (recentsLoop (map_to_list recents) signer number validators
     = Some ErrRecentlySigned <->
   exists seen, recents !! seen = Some signer /\
                number - seen <= len validators / 2) /\
  (recentsLoop (map_to_list recents) signer number validators = None <->
   forall seen, recents !! seen = Some signer ->
                len validators / 2 + 1 <= number - seen).
Proof.
  intros Hn. split; split.
  - intros Hr. apply recentsLoop_sound in Hr as (_ & seen & Hin & Hlt).
    exists seen. split; [apply elem_of_map_to_list; exact Hin |].
    apply (window_distance number seen validators Hn). exact Hlt.
  - intros (seen & Hin & Hd). apply recentsLoop_hit. exists seen.
    split; [apply elem_of_map_to_list; exact Hin |].
    apply (window_distance number seen validators Hn). exact Hd.
  - intros Hnone seen Hin.
    destruct (Z.le_gt_cases (len validators / 2 + 1) (number - seen))
      as [Hle|Hgt]; [exact Hle |].
    rewrite recentsLoop_hit in Hnone; [discriminate |].
    exists seen. split; [apply elem_of_map_to_list; exact Hin |].
    apply (window_distance number seen validators Hn). lia.
  - intros Hall.
    destruct (recentsLoop (map_to_list recents) signer number validators)
      as [e|] eqn:Hr; [| reflexivity].
    apply recentsLoop_sound in Hr as (_ & seen & Hin & Hlt).
    apply elem_of_map_to_list in Hin. specialize (Hall seen Hin).
    apply (window_distance number seen validators Hn) in Hlt. lia.
Qed.

(** Below the limit the subtraction wraps around, and the loop lets through
    every signer whose recent blocks lie at or below [number]. *)
Lemma recentsLoop_wraps (recents : gmap Z Address) (signer : Address)
    (number : Z) (validators : list Address) :
  0 <= number < len validators / 2 + 1 ->
  len validators / 2 + 1 + number <= two64 ->
  (forall seen, recents !! seen = Some signer -> seen <= number) ->
  recentsLoop (map_to_list recents) signer number validators = None.
Proof.
  intros Hn Hbig Hall.
  destruct (recentsLoop (map_to_list recents) signer number validators)
    as [e|] eqn:Hr; [| reflexivity].
  apply recentsLoop_sound in Hr as (_ & seen & Hin & Hlt).
  apply elem_of_map_to_list in Hin. specialize (Hall seen Hin).
  unfold sub64, wrap64 in Hlt.
  replace (number - (len validators / 2 + 1))
    with (number - (len validators / 2 + 1) + two64 + (-1) * two64) in Hlt
    by lia.
  rewrite Z.mod_add in Hlt by (unfold two64; lia).
  rewrite Z.mod_small in Hlt by lia. lia.
Qed.

(** Seal answers ErrRecentlySigned once the steps before the loop have
    passed and the loop finds the signer at a block it does not shift out. *)
Lemma Seal_recently_signed (c : Consortium) (chain : ChainHeaderReader)
    (block : Block) (sigcache sc1 : SigCache) (nb : Z)
    (validators : list Address) (snap : Snapshot) :
  block.(BlockHeader).(Number) = Some nb -> 0 < Uint64 nb ->
  c.(config).(Period) <> 0 \/ block.(BlockTransactions) <> [] ->
  getValidatorsFromLastCheckpoint c chain (Uint64 nb - 1) []
    = Ret (validators, None) ->
  SignerInList c.(val) validators = true ->
  snapshot chain sigcache (Uint64 nb - 1) block.(BlockHeader).(ParentHash) []
    = (inl snap, sc1) ->
  (exists seen, snap.(Recents) !! seen = Some c.(val) /\
                sub64 (Uint64 nb) (len validators / 2 + 1) < seen) ->
  Seal c chain block sigcache
    = Ret (Some ErrRecentlySigned, block.(BlockHeader), sc1).
Proof.
  intros Hnum Hpos Hbusy Hvals Hin Hsnap (seen & Hseen & Hlt).
  pose proof (Uint64_range nb) as Hr.
  unfold Seal, numberUint64. rewrite Hnum. simpl.
  destruct (Z.eqb_spec (Uint64 nb) 0); [lia |].
  assert (Hb : (c.(config).(Period) =? 0)
               && (len block.(BlockTransactions) =? 0) = false).
  { apply andb_false_iff. destruct Hbusy as [Hp|Ht].
    - left. apply Z.eqb_neq. exact Hp.
    - right. apply Z.eqb_neq. rewrite len_zero_iff. exact Ht. }
  rewrite Hb. rewrite sub64_one by lia. rewrite Hvals. simpl.
  rewrite Hin. simpl. rewrite Hsnap.
  rewrite recentsLoop_hit; [reflexivity |].
  exists seen. split; [| exact Hlt].
  apply elem_of_map_to_list. exact Hseen.
Qed.

End EngineProperties.

(** * The statements on the fixtures *)

Section Scenarios.

Import Params V1 Reference Fixtures.

Lemma SealHash_ignores_seal_witness :
  SignatureLength <= len header1.(Extra) /\
  SignatureLength <= len header1Unsealed.(Extra) /\
  same_but_extra header1 header1Unsealed /\
  unsealed header1.(Extra) = unsealed header1Unsealed.(Extra) /\
  @SealHash world1 header1 = @SealHash world1 header1Unsealed.
Proof.
  assert (H1 : SignatureLength <= len header1.(Extra))
    by (vm_compute; discriminate).
  assert (H2 : SignatureLength <= len header1Unsealed.(Extra))
    by (vm_compute; discriminate).
  assert (H3 : same_but_extra header1 header1Unsealed)
    by (repeat split).
  assert (H4 : unsealed header1.(Extra) = unsealed header1Unsealed.(Extra))
    by (vm_compute; reflexivity).
  repeat (split; [assumption |]).
  exact (proj1 (proj2 (@SealHash_ignores_seal world1 header1 header1Unsealed
                         [] H1 H2 H3 H4))).
Defined.

Lemma SealHash_short_extra_panics_witness :
  len headerShort.(Extra) < SignatureLength /\
  @SealHash world1 headerShort = Panic "slice bounds out of range".
Proof.
  assert (H1 : len headerShort.(Extra) < SignatureLength)
    by (vm_compute; reflexivity).
  split; [exact H1 |].
  exact (proj1 (@SealHash_short_extra_panics world1 headerShort H1)).
Defined.

(** C8 as the specification words it fails on a header with 64 bytes of
    extra-data: SealHash panics there, it returns no error. *)
Lemma SealHash_short_extra_no_error :
  len headerShort.(Extra) = 64 /\
  @SealHash world1 headerShort = Panic "slice bounds out of range" /\
  ~ returns (@SealHash world1 headerShort).
Proof.
  split; [vm_compute; reflexivity |].
  assert (Hp : @SealHash world1 headerShort = Panic "slice bounds out of range")
    by (vm_compute; reflexivity).
  split; [exact Hp |].
  intros (a & Ha). rewrite Hp in Ha. discriminate.
Qed.

Lemma Ecrecover_missing_signature_witness :
  @sigGet world1 [] (@headerHash world1 headerShort) = (None, []) /\
  len headerShort.(Extra) < ExtraSeal /\
  @Ecrecover world1 headerShort []
    = Ret (zeroAddress, Some ErrMissingSignature, []).
Proof.
  assert (H1 : @sigGet world1 [] (@headerHash world1 headerShort) = (None, []))
    by (vm_compute; reflexivity).
  assert (H2 : len headerShort.(Extra) < ExtraSeal)
    by (vm_compute; reflexivity).
  repeat (split; [assumption |]).
  exact (proj1 (@Ecrecover_missing_signature world1 engine1 headerShort [] []
                  H1 H2)).
Defined.

Lemma verifySeal_turn_difficulty_witness :
  0 <= engine1.(config).(Epoch) /\
  @verifySeal world1 engine1 chain1 header1 [] []
    = Ret (None, [(fullHeaderHash header1, genesis2)]) /\
  header1.(Difficulty)
    = Some (if spec_in_turn snapGenesis.(SignerList) 1 30000 genesis2
            then 7 else 3) /\
  @verifySeal world1 engine1 chain1 header1Wrong [] []
    = Ret (Some ErrWrongDifficulty, [(fullHeaderHash header1Wrong, genesis2)]).
Proof.
  assert (HE : 0 <= engine1.(config).(Epoch)) by (vm_compute; discriminate).
  assert (Hacc : @verifySeal world1 engine1 chain1 header1 [] []
                 = Ret (None, [(fullHeaderHash header1, genesis2)]))
    by (vm_compute; reflexivity).
  split; [exact HE |]. split; [exact Hacc |]. split.
  - destruct (proj1 (@verifySeal_turn_difficulty world1 engine1 chain1 header1
                       [] [] HE) _ Hacc)
      as (nb & snap & sc1 & signer & Hnum & _ & Hsnap & _ & Hcb & Hd & _).
    injection Hnum as <-. injection Hsnap as <- _. rewrite Hcb in Hd.
    exact Hd.
  - apply (proj2 (@verifySeal_turn_difficulty world1 engine1 chain1
                    header1Wrong [] [] HE) 1 3 snapGenesis [] _ genesis2).
    + vm_compute; congruence.
    + reflexivity.
    + vm_compute; reflexivity.
    + reflexivity.
    + vm_compute; reflexivity.
    + reflexivity.
    + apply elem_of_list_to_set, list_elem_of_further, list_elem_of_here.
    + discriminate.
    + reflexivity.
    + vm_compute; congruence.
Defined.

Lemma verifySeal_ignores_recents_witness :
  0 < engine2.(config).(Epoch) /\
  header2.(Number) = Some 2 /\ 0 < Uint64 2 /\
  @snapshot world2 chain1 [] (Uint64 2 - 1) header2.(ParentHash) []
    = (inl snapAfter1, []) /\
  @Ecrecover world2 header2 []
    = Ret (genesis2, None, [(fullHeaderHash header2, genesis2)]) /\
  genesis2 = header2.(Coinbase) /\
  genesis2 ∈ snapAfter1.(SignerSet) /\
  snapAfter1.(SignerList) <> [] /\
  header2.(Difficulty)
    = Some (spec_difficulty snapAfter1.(SignerList) (Uint64 2)
              engine2.(config).(Epoch) genesis2) /\
  snapAfter1.(Recents) !! 1 = Some genesis2 /\
  2 - 1 <= len snapAfter1.(SignerList) / 2 /\
  @verifySeal world2 engine2 chain1 header2 [] []
    = Ret (None, [(fullHeaderHash header2, genesis2)]) /\
  @Seal world2 engine2 chain1 block2 []
    = Ret (Some ErrRecentlySigned, header2, []).
Proof.
  assert (H1 : 0 < engine2.(config).(Epoch)) by (vm_compute; reflexivity).
  assert (H2 : header2.(Number) = Some 2) by reflexivity.
  assert (H3 : 0 < Uint64 2) by (vm_compute; reflexivity).
  assert (H4 : @snapshot world2 chain1 [] (Uint64 2 - 1) header2.(ParentHash) []
               = (inl snapAfter1, [])) by reflexivity.
  assert (H5 : @Ecrecover world2 header2 []
               = Ret (genesis2, None, [(fullHeaderHash header2, genesis2)]))
    by (vm_compute; reflexivity).
  assert (H6 : genesis2 = header2.(Coinbase)) by reflexivity.
  assert (H7 : genesis2 ∈ snapAfter1.(SignerSet))
    by apply elem_of_list_to_set, list_elem_of_further, list_elem_of_here.
  assert (H8 : snapAfter1.(SignerList) <> []) by discriminate.
  assert (H9 : header2.(Difficulty)
               = Some (spec_difficulty snapAfter1.(SignerList) (Uint64 2)
                         engine2.(config).(Epoch) genesis2))
    by (vm_compute; reflexivity).
  repeat (split; [assumption |]).
  split; [vm_compute; reflexivity |].
  split; [vm_compute; discriminate |].
  split.
  - exact (@verifySeal_ignores_recents world2 engine2 chain1 header2 [] [] [] _
             2 snapAfter1 genesis2 H1 H2 H3 H4 H5 H6 H7 H8 H9).
  - vm_compute. reflexivity.
Defined.

Lemma Finalize_system_txs_witness :
  header99.(Number) = Some 99 /\
  IsOnConsortiumV2 engine4.(chainConfig) (Some (99 + 1)) = true /\
  (exists r, @Finalize world1 engine4 chain4 header99 5 [] [] [7] 0 = Ret r /\
             r.(FinSystemTxs) = [] /\ r.(FinErr) = None) /\
  (exists r, @Finalize world1 engine4 chain4 header99 5 [] [] [] 0 = Ret r /\
             r.(FinErr) = Some errSystemTxs /\ r.(FinHeader) = header99).
Proof.
  assert (H1 : header99.(Number) = Some 99) by reflexivity.
  assert (H2 : IsOnConsortiumV2 engine4.(chainConfig) (Some (99 + 1)) = true)
    by reflexivity.
  split; [exact H1 |]. split; [exact H2 |]. split.
  - destruct (@Finalize_system_txs world1 engine4 chain4 header99 99 5 [] []
                [7] 0 H1) as (_ & Hrun & _).
    destruct (Hrun consumeAll None
                (consumeAll.(WrapUpEpoch)
                   (finalizeOpts engine4 header99 5 [] [] [7] 0)).2)
      as (r & Hr & Hleft & Herr).
    + discriminate.
    + exact H2.
    + reflexivity.
    + reflexivity.
    + exists r. split; [exact Hr |]. split; [exact Hleft | exact Herr].
  - destruct (@Finalize_system_txs world1 engine4 chain4 header99 99 5 [] []
                [] 0 H1) as (Hmis & _).
    destruct Hmis as (r & Hr & Herr & Hh & _).
    + right. split; [reflexivity | exact H2].
    + exists r. split; [exact Hr |]. split; [exact Herr | exact Hh].
Defined.

Lemma VerifyHeaderAndParents_extra_witness :
  headerNoVanity.(Number) = Some 1 /\
  headerNoVanity.(Time) <= wrap64 (@timeNow world1) /\
  headerNoVanity.(Nonce) = emptyNonce /\
  len headerNoVanity.(Extra) < 32 /\
  @VerifyHeaderAndParents world1 engine1 chain1 headerNoVanity [] []
    = Ret (Some ErrMissingVanity, []).
Proof.
  assert (H1 : headerNoVanity.(Number) = Some 1) by reflexivity.
  assert (H2 : headerNoVanity.(Time) <= wrap64 (@timeNow world1))
    by (vm_compute; discriminate).
  assert (H3 : headerNoVanity.(Nonce) = emptyNonce) by reflexivity.
  assert (H4 : len headerNoVanity.(Extra) < 32) by (vm_compute; reflexivity).
  repeat (split; [assumption |]).
  destruct (@VerifyHeaderAndParents_extra world1 engine1 chain1 headerNoVanity
              [] [] false) as (_ & _ & _ & Hspecific).
  destruct (Hspecific 1 H1 H2 H3) as (Hvan & _).
  exact (Hvan H4).
Defined.

(** C4 at the failing input.  Ten validators, Epoch 3: the first validator
    has signed block 4 and seals block 5.  Its last block is at distance 1,
    within [10/2 = 5], yet Seal does not answer ErrRecentlySigned and signs:
    the limit is 6, and [5 - 6] wraps around in uint64. *)
Theorem Seal_recent_window_wraps :
  snapAfter4.(Recents) !! 4 = Some validator0 /\
  @getValidatorsFromLastCheckpoint world3 engine3 chain3 4 []
    = Ret (tenValidators, None) /\
  5 - 4 <= len tenValidators / 2 /\
  4 > 5 - (len tenValidators / 2 + 1) /\
  sub64 5 (len tenValidators / 2 + 1) = two64 - 1 /\
  exists sealed,
    @Seal world3 engine3 chain3 block5 [] = Ret (None, sealed, []).
Proof.
  split; [vm_compute; reflexivity |].
  split; [vm_compute; reflexivity |].
  split; [vm_compute; discriminate |].
  split; [vm_compute; reflexivity |].
  split; [vm_compute; reflexivity |].
  eexists. vm_compute. reflexivity.
Qed.

End Scenarios.

(** * More properties of the chain configuration *)

Section MoreParamsProperties.

Import Params ParamsMore Reference MoreReference.

(** *** Fork ordering *)

Lemma follows_trans (f g h : fork) : follows f g -> follows g h -> follows f h.
Proof.
  intros Hfg Hgh b Hb. destruct (Hgh b Hb) as (a & Ha & Hab).
  destruct (Hfg a Ha) as (a' & Ha' & Haa). exists a'. split; [exact Ha' | lia].
Qed.

Lemma forkOrderStep_follows (lastFork cur : fork) :
  lastFork.(name) <> "" ->
  forkOrderStep lastFork cur = None <-> follows lastFork cur.
Proof.
  intros Hname. unfold forkOrderStep, follows.
  destruct (String.eqb_spec lastFork.(name) "") as [Heq|_]; [contradiction |].
  simpl. destruct lastFork.(block) as [lb|], cur.(block) as [cb|].
  - destruct (Z.ltb_spec cb lb); split.
    + discriminate.
    + intros H'. destruct (H' cb eq_refl) as (a & [= <-] & Hle). lia.
    + intros _ b [= <-]. exists lb. split; [reflexivity | lia].
    + reflexivity.
  - split; [intros _ b; discriminate | reflexivity].
  - split; [discriminate |].
    intros H'. destruct (H' cb eq_refl) as (a & [=] & _).
  - split; [intros _ b; discriminate | reflexivity].
Qed.

Lemma follows_dropped (lastFork cur : fork) :
  keptFork cur = false -> follows lastFork cur.
Proof.
  unfold keptFork, follows. destruct cur.(block) as [cb|].
  - rewrite orb_true_r. discriminate.
  - intros _ b. discriminate.
Qed.

Lemma forkOrderLoop_sorted (forks : list fork) :
  forall lastFork,
    lastFork.(name) <> "" ->
    Forall (fun f => f.(name) <> "") forks ->
    forkOrderLoop lastFork forks = None <->
    Sorted follows (lastFork :: filter (fun f => keptFork f = true) forks).
Proof.
  induction forks as [|cur rest IH]; intros lastFork Hname Hnames.
  - simpl. split; [intros _; repeat constructor | reflexivity].
  - apply Forall_cons in Hnames as [Hcur Hrest]. simpl.
    pose proof (forkOrderStep_follows lastFork cur Hname) as Hstep.
    rewrite filter_cons. destruct (keptFork cur) eqn:Hkept.
    + rewrite decide_True by reflexivity.
      destruct (forkOrderStep lastFork cur) as [err|].
      * split; [discriminate |]. intros Hs.
        apply Sorted_inv in Hs as [_ Hhd]. apply HdRel_inv in Hhd.
        apply Hstep in Hhd. discriminate.
      * rewrite (IH cur Hcur Hrest). split.
        -- intros Hs. constructor; [exact Hs |]. constructor.
           apply Hstep. reflexivity.
        -- intros Hs. apply Sorted_inv in Hs as [Hs _]. exact Hs.
    + rewrite decide_False by discriminate.
      destruct (forkOrderStep lastFork cur) as [err|] eqn:Hs.
      * exfalso. pose proof (proj2 Hstep (follows_dropped lastFork cur Hkept)).
        discriminate.
      * apply (IH lastFork Hname Hrest).
Qed.

(** X1.  CheckConfigForkOrder accepts a configuration exactly when, among
    the thirteen forks it lists with the optional forks that are not
    scheduled left out, every scheduled fork has all the forks before it
    scheduled too, and none of them later. *)
Theorem CheckConfigForkOrder_accepts (c : ChainConfig) :
  CheckConfigForkOrder c = None <->
  StronglySorted follows (filter (fun f => keptFork f = true) (forkList c)).
Proof.
  unfold CheckConfigForkOrder.
  change (forkOrderLoop _ (forkList c))
    with (forkOrderLoop
            {| name := "homesteadBlock"; block := c.(HomesteadBlock);
               optional := false |} (tail (forkList c))).
  rewrite forkOrderLoop_sorted.
  - change ({| name := "homesteadBlock"; block := c.(HomesteadBlock);
               optional := false |}
            :: filter (fun f => keptFork f = true) (tail (forkList c)))
      with (filter (fun f => keptFork f = true) (forkList c)).
    split.
    + apply Sorted_StronglySorted. intros f g h. apply follows_trans.
    + apply StronglySorted_Sorted.
  - discriminate.
  - simpl. repeat constructor; discriminate.
Qed.

(** *** Compatibility *)

Lemma isForkIncompatible_same (s head : option Z) :
  isForkIncompatible s s head = false.
Proof.
  unfold isForkIncompatible.
  rewrite (proj2 (configNumEqual_true s s) eq_refl). apply andb_false_r.
Qed.

Lemma forkCheck_same (what : string) (s head : option Z)
    (rest : option ConfigCompatError) :
  forkCheck what s s head rest = rest.
Proof. unfold forkCheck. rewrite isForkIncompatible_same. reflexivity. Qed.

(** X2.  A configuration is compatible with itself at every head:
    checkCompatible finds no conflict and CheckCompatible returns nil. *)
Theorem checkCompatible_same (c : ChainConfig) (head : option Z) (height : Z) :
  checkCompatible c c head = None /\
  CheckCompatible c c height = Some None.
Proof.
  assert (Hsame : forall h, checkCompatible c c h = None).
  { intros h. unfold checkCompatible. rewrite !forkCheck_same.
    rewrite Bool.eqb_reflx, (proj2 (configNumEqual_true _ _) eq_refl).
    rewrite !isForkIncompatible_same, !andb_false_r. reflexivity. }
  split; [apply Hsame |].
  unfold CheckCompatible. simpl. rewrite Hsame. reflexivity.
Qed.

Lemma forkCheck_inactive (what : string) (s1 s2 head : option Z)
    (rest : option ConfigCompatError) :
  isForked s1 head = false -> isForked s2 head = false ->
  forkCheck what s1 s2 head rest = rest.
Proof.
  intros H1 H2. unfold forkCheck, isForkIncompatible. rewrite H1, H2.
  reflexivity.
Qed.

(** X3.  Forks that lie ahead of the head can be rescheduled at will: when
    no activation block of the stored or of the new configuration is active
    at the head, checkCompatible finds no conflict, whatever the two
    configurations are (chain ID and DAO support included). *)
Theorem checkCompatible_before_forks (c newcfg : ChainConfig)
    (head : option Z) :
  Forall (fun s => isForked s head = false) (forkBlocks c) ->
  Forall (fun s => isForked s head = false) (forkBlocks newcfg) ->
  checkCompatible c newcfg head = None.
Proof.
  intros Hc Hn. unfold forkBlocks in Hc, Hn.
  repeat match goal with
         | H : Forall _ (_ :: _) |- _ =>
             let H1 := fresh "Hb" in apply Forall_cons in H as [H1 H]
         end.
  unfold checkCompatible, IsDAOFork, IsEIP158, isForkIncompatible.
  repeat (rewrite forkCheck_inactive by assumption).
  repeat match goal with
         | H : isForked ?s head = false |- context [isForked ?s head] =>
             rewrite H
         end.
  reflexivity.
Qed.

Lemma checkCompatible_before_forks_witness :
  Forall (fun s => isForked s (Some 40) = false)
    (forkBlocks (withBerlin (Some 5000))) /\
  Forall (fun s => isForked s (Some 40) = false)
    (forkBlocks (withBerlin (Some 4000))) /\
  checkCompatible (withBerlin (Some 5000)) (withBerlin (Some 4000)) (Some 40)
    = None.
Proof.
  assert (H1 : Forall (fun s => isForked s (Some 40) = false)
                 (forkBlocks (withBerlin (Some 5000))))
    by (repeat constructor).
  assert (H2 : Forall (fun s => isForked s (Some 40) = false)
                 (forkBlocks (withBerlin (Some 4000))))
    by (repeat constructor).
  split; [exact H1 |]. split; [exact H2 |].
  exact (checkCompatible_before_forks _ _ _ H1 H2).
Defined.

(** X4.  Petersburg may be set in the past only to the Constantinople
    block: a stored configuration without a Petersburg block accepts, at
    every head, the same configuration with Petersburg at its Constantinople
    block; going back from there to no Petersburg block is refused once the
    block is reached. *)
Theorem checkCompatible_petersburg (c : ChainConfig) (head : option Z)
    (b h : Z) :
  c.(PetersburgBlock) = None ->
  checkCompatible c (setPetersburg c c.(ConstantinopleBlock)) head = None /\
  (c.(ConstantinopleBlock) = Some b -> b <= h ->
   checkCompatible (setPetersburg c (Some b)) c (Some h)
   = Some (newCompatError "Petersburg fork block" (Some b) None)).
Proof.
  intros Hp. split.
  - unfold checkCompatible. simpl. rewrite !forkCheck_same.
    rewrite Bool.eqb_reflx, (proj2 (configNumEqual_true _ _) eq_refl).
    rewrite isForkIncompatible_same, !andb_false_r. reflexivity.
  - intros Hc Hle. unfold checkCompatible. simpl. rewrite !forkCheck_same.
    rewrite Bool.eqb_reflx, (proj2 (configNumEqual_true _ _) eq_refl).
    rewrite !andb_false_r. rewrite Hp, Hc.
    unfold isForkIncompatible. simpl.
    destruct (Z.leb_spec b h); [reflexivity | lia].
Qed.

Lemma checkCompatible_petersburg_witness :
  sampleConfig.(PetersburgBlock) = None /\
  sampleConfig.(ConstantinopleBlock) = Some 50 /\ 50 <= 60 /\
  checkCompatible sampleConfig (setPetersburg sampleConfig (Some 50)) (Some 60)
    = None /\
  checkCompatible (setPetersburg sampleConfig (Some 50)) sampleConfig (Some 60)
    = Some (newCompatError "Petersburg fork block" (Some 50) None).
Proof.
  assert (H1 : sampleConfig.(PetersburgBlock) = None) by reflexivity.
  assert (H2 : sampleConfig.(ConstantinopleBlock) = Some 50) by reflexivity.
  assert (H3 : 50 <= 60) by (vm_compute; discriminate).
  repeat (split; [assumption |]).
  destruct (checkCompatible_petersburg sampleConfig (Some 60) 50 60 H1)
    as [Hset Hback].
  split; [exact Hset | exact (Hback H2 H3)].
Defined.

(** X5.  The rewind point resolves the conflict it reports: when the smaller
    of the two blocks is positive, neither block is active at RewindTo, so
    the fork is no longer flagged there. *)
Theorem newCompatError_rewind_resolves (what : string) (s n : option Z)
    (m : Z) :
  spec_min_block s n = Some m -> 0 < m < two64 ->
  isForked s (Some (newCompatError what s n).(RewindTo)) = false /\
  isForked n (Some (newCompatError what s n).(RewindTo)) = false /\
  isForkIncompatible s n (Some (newCompatError what s n).(RewindTo)) = false.
Proof.
  intros Hmin Hm.
  assert (Hr : (newCompatError what s n).(RewindTo) = m - 1).
  { unfold newCompatError; simpl. rewrite rewindBlock_min, Hmin.
    destruct (Z.ltb_spec 0 m); [| lia].
    rewrite Uint64_small by lia. unfold sub64. apply wrap64_small. lia. }
  rewrite Hr.
  assert (Hs : isForked s (Some (m - 1)) = false).
  { destruct s as [a|]; [| reflexivity]. simpl. apply Z.leb_gt.
    destruct n as [b|]; simpl in Hmin; injection Hmin as <-; lia. }
  assert (Hn : isForked n (Some (m - 1)) = false).
  { destruct n as [b|]; [| destruct s; reflexivity]. simpl. apply Z.leb_gt.
    destruct s as [a|]; simpl in Hmin; injection Hmin as <-; lia. }
  split; [exact Hs |]. split; [exact Hn |].
  unfold isForkIncompatible. rewrite Hs, Hn. reflexivity.
Qed.

Lemma newCompatError_rewind_resolves_witness :
  spec_min_block (Some 5000) (Some 4000) = Some 4000 /\
  0 < 4000 < two64 /\
  isForkIncompatible (Some 5000) (Some 4000)
    (Some (newCompatError "Berlin fork block" (Some 5000) (Some 4000)).(RewindTo))
  = false.
Proof.
  assert (H1 : spec_min_block (Some 5000) (Some 4000) = Some 4000)
    by reflexivity.
  assert (H2 : 0 < 4000 < two64) by (vm_compute; split; reflexivity).
  split; [exact H1 |]. split; [exact H2 |].
  exact (proj2 (proj2 (newCompatError_rewind_resolves "Berlin fork block"
                         (Some 5000) (Some 4000) 4000 H1 H2))).
Defined.

(** *** Rules *)

(** X6.  A block is the last Consortium v1 block exactly when ConsortiumV2
    is not active at it and is active at the next block, which is also when
    the next block is the ConsortiumV2 block. *)
Theorem IsLastConsortiumV1Block_boundary (c : ChainConfig) (n : Z) :
  IsLastConsortiumV1Block c (Some n)
  = negb (IsConsortiumV2 c (Some n)) && IsConsortiumV2 c (Some (n + 1)) /\
  IsLastConsortiumV1Block c (Some n) = IsOnConsortiumV2 c (Some (n + 1)).
Proof.
  unfold IsLastConsortiumV1Block, IsConsortiumV2, IsOnConsortiumV2.
  destruct c.(ConsortiumV2Block) as [v2|]; simpl; [| split; reflexivity].
  destruct (Z.eqb_spec (v2 - 1) n), (Z.leb_spec v2 n),
    (Z.leb_spec v2 (n + 1)), (Z.eqb_spec v2 (n + 1));
    simpl; split; try reflexivity; lia.
Qed.

Lemma isForked_mono (s : option Z) (n n' : Z) :
  n <= n' -> isForked s (Some n) = true -> isForked s (Some n') = true.
Proof.
  intros Hle. destruct s as [b|]; simpl; [| discriminate].
  rewrite !Z.leb_le. lia.
Qed.

(** X7.  Forks never switch off: every fork flag of Rules that holds at a
    block number holds at every later one, and the chain ID of Rules does not
    depend on the block number. *)
Theorem Rules_flags_monotone (c : ChainConfig) (n n' : Z) :
  n <= n' ->
  Forall2 (fun now later => now = true -> later = true)
    (forkFlags (ChainConfig_Rules c (Some n)))
    (forkFlags (ChainConfig_Rules c (Some n'))) /\
  (ChainConfig_Rules c (Some n)).(RulesChainID)
  = (ChainConfig_Rules c (Some n')).(RulesChainID).
Proof.
  intros Hle. split; [| reflexivity].
  unfold forkFlags, ChainConfig_Rules; simpl.
  repeat (apply List.Forall2_cons); try apply List.Forall2_nil;
    try (apply isForked_mono; exact Hle).
  unfold IsPetersburg. destruct c.(PetersburgBlock) as [p|]; simpl.
  - rewrite !orb_false_r. apply (isForked_mono (Some p) _ _ Hle).
  - apply (isForked_mono _ _ _ Hle).
Qed.

Lemma Rules_flags_monotone_witness :
  50 <= 60 /\
  (ChainConfig_Rules sampleConfig (Some 50)).(RIsPetersburg) = true /\
  Forall2 (fun now later => now = true -> later = true)
    (forkFlags (ChainConfig_Rules sampleConfig (Some 50)))
    (forkFlags (ChainConfig_Rules sampleConfig (Some 60))).
Proof.
  assert (H1 : 50 <= 60) by (vm_compute; discriminate).
  split; [exact H1 |]. split; [reflexivity |].
  exact (proj1 (Rules_flags_monotone sampleConfig 50 60 H1)).
Defined.

End MoreParamsProperties.

(** * More properties of the engine *)

Section MoreEngineProperties.

Import Params V1 V1More Reference MoreReference.

Context `{!Externals}.

Lemma copy_length {A : Type} (dst src : list A) :
  length (copy dst src) = length dst.
Proof.
  unfold copy. rewrite length_app, length_take, length_drop. lia.
Qed.

Lemma slice_returns {A : Type} (b r : list A) (lo hi : Z) :
  slice b lo hi = Ret r ->
  0 <= lo /\ lo <= hi /\ hi <= len b /\
  r = take (Z.to_nat (hi - lo)) (drop (Z.to_nat lo) b).
Proof.
  unfold slice.
  destruct (Z.leb_spec 0 lo), (Z.leb_spec lo hi), (Z.leb_spec hi (len b));
    simpl; try discriminate.
  intros [= <-]. auto.
Qed.

(** *** Signer recovery *)

Lemma Ecrecover_returns (header : Header) (sigcache sigcache' : SigCache)
    (address : Address) (err : option error) :
  Ecrecover header sigcache = Ret (address, err, sigcache') ->
  (sigGet sigcache (headerHash header) = (Some address, sigcache')
   /\ err = None) \/
  (exists e, err = Some e /\ address = zeroAddress /\
             sigGet sigcache (headerHash header) = (None, sigcache')) \/
  (exists after, err = None /\
                 sigGet sigcache (headerHash header) = (None, after) /\
                 ExtraSeal <= len header.(Extra) /\
                 length address = 20%nat /\
                 sigcache' = sigAdd after (headerHash header) address).
Proof.
  intros Hrun. unfold Ecrecover in Hrun.
  destruct (sigGet sigcache (headerHash header)) as [[cached|] after] eqn:Hget.
  - left. inversion Hrun; subst. auto.
  - right.
    destruct (Z.ltb_spec (len header.(Extra)) ExtraSeal) as [Hshort|Hlong].
    + left. inversion Hrun; subst. eauto.
    + destruct (sliceFrom header.(Extra) (len header.(Extra) - ExtraSeal))
        as [signature|]; [| discriminate]. simpl in Hrun.
      destruct (SealHash header) as [sealhash|]; [| discriminate].
      simpl in Hrun.
      destruct (cryptoEcrecover sealhash signature) as [pubkey|e].
      * destruct (sliceFrom pubkey 1) as [pub|]; [| discriminate].
        simpl in Hrun.
        destruct (sliceFrom (keccak256 pub) 12) as [digest|]; [| discriminate].
        simpl in Hrun. inversion Hrun; subst.
        right. exists after. rewrite copy_length.
        repeat split; try reflexivity. exact Hlong.
      * left. inversion Hrun; subst. eauto.
Qed.

(** X8.  Every return of Ecrecover is of one of three kinds.  A cache hit
    returns the cached address and no error.  An error (a missing or an
    unrecoverable signature) comes with the zero address and adds nothing to
    the cache.  A recovery returns an address of 20 bytes, from a header with
    at least 65 bytes of extra-data, and adds exactly that address under the
    header hash. *)
Theorem Ecrecover_outcomes (header : Header) (sigcache sigcache' : SigCache)
    (address : Address) (err : option error) :
  Ecrecover header sigcache = Ret (address, err, sigcache') ->
  let hash := headerHash header in
  (sigGet sigcache hash = (Some address, sigcache') /\ err = None) \/
  (exists e, err = Some e /\ address = zeroAddress /\
             sigGet sigcache hash = (None, sigcache')) \/
  (exists after, err = None /\ sigGet sigcache hash = (None, after) /\
                 ExtraSeal <= len header.(Extra) /\
                 length address = 20%nat /\
                 sigcache' = sigAdd after hash address).
Proof.
  intros Hrun. cbv zeta. exact (Ecrecover_returns _ _ _ _ _ Hrun).
Qed.

(** X9.  With a cache that returns what was last added under a key, and
    keeps returning what it returned, a signer that Ecrecover returned
    without error is returned again by the next call on the same header. *)
Theorem Ecrecover_again (header : Header) (sigcache sigcache' : SigCache)
    (address : Address) :
  (forall m h a, (sigGet (sigAdd m h a) h).1 = Some a) ->
  (forall m h a m', sigGet m h = (Some a, m') -> (sigGet m' h).1 = Some a) ->
  Ecrecover header sigcache = Ret (address, None, sigcache') ->
  exists sigcache'',
    Ecrecover header sigcache' = Ret (address, None, sigcache'').
Proof.
  intros Hadd Hkeep Hrun.
  assert (Hhit : (sigGet sigcache' (headerHash header)).1 = Some address).
  { destruct (Ecrecover_returns _ _ _ _ _ Hrun)
      as [[Hget _]|[(e & He & _)|(after & _ & _ & _ & _ & ->)]].
    - exact (Hkeep _ _ _ _ Hget).
    - discriminate He.
    - apply Hadd. }
  unfold Ecrecover.
  destruct (sigGet sigcache' (headerHash header)) as [cached next].
  simpl in Hhit. subst cached. eauto.
Qed.

(** *** Difficulty *)

Lemma doCalcDifficulty_spec (c : Consortium) (signer : Address) (number : Z)
    (validators : list Address) :
  0 < c.(config).(Epoch) -> 0 <= number < two64 -> validators <> [] ->
  doCalcDifficulty c signer number validators
    = Ret (spec_difficulty validators number c.(config).(Epoch) signer).
Proof.
  intros HE Hn Hne. unfold doCalcDifficulty.
  rewrite signerInTurn_spec by assumption. reflexivity.
Qed.

Lemma doCalcDifficulty_returns (c : Consortium) (signer : Address)
    (number d : Z) (validators : list Address) :
  doCalcDifficulty c signer number validators = Ret d ->
  c.(config).(Epoch) <> 0 /\ validators <> [] /\ (d = 7 \/ d = 3).
Proof.
  unfold doCalcDifficulty.
  destruct (signerInTurn c signer number validators) as [inturn|] eqn:Hturn;
    [| discriminate].
  apply signerInTurn_returns in Hturn as [HE Hne]. simpl.
  intros [= <-]. split; [exact HE |]. split; [exact Hne |].
  destruct inturn; [left | right]; reflexivity.
Qed.

(** X10.  The difficulty doCalcDifficulty computes is 7 or 3, and it is the
    one verifySeal asks for: a header that carries it, signed by its
    coinbase, an authorized signer, is accepted when the snapshot of its
    parent has the validators as its signer list. *)
Theorem doCalcDifficulty_verifies (c : Consortium) (chain : ChainHeaderReader)
    (header : Header) (parents : list Header) (sigcache sc1 sc2 : SigCache)
    (nb d : Z) (snap : Snapshot) (signer : Address) :
  0 <= c.(config).(Epoch) ->
  doCalcDifficulty c signer (Uint64 nb) snap.(SignerList) = Ret d ->
  header.(Number) = Some nb -> 0 < Uint64 nb ->
  snapshot chain sigcache (Uint64 nb - 1) header.(ParentHash) parents
    = (inl snap, sc1) ->
  Ecrecover header sc1 = Ret (signer, None, sc2) ->
  signer = header.(Coinbase) ->
  signer ∈ snap.(SignerSet) ->
  header.(Difficulty) = Some d ->
  (d = 7 \/ d = 3) /\
  verifySeal c chain header parents sigcache = Ret (None, sc2).
Proof.
  intros HE0 Hd Hnum Hpos Hsnap Hrec Hcb Hin Hdiff.
  destruct (doCalcDifficulty_returns _ _ _ _ _ Hd) as (HE & Hne & Hval).
  split; [exact Hval |].
  rewrite doCalcDifficulty_spec in Hd
    by (try assumption; try lia; apply Uint64_range).
  injection Hd as <-.
  rewrite (verifySeal_decides c chain header parents sigcache nb _ snap sc1
             sc2 signer) by (try eassumption; lia).
  rewrite bool_decide_eq_true_2 by reflexivity. reflexivity.
Qed.

(** *** Validator lists *)

Lemma findCheckpoint_found (recents : list Header) (lastCheckpoint : Z) :
  forall found,
    Forall (fun h => exists n, h.(Number) = Some n) recents ->
    exists found',
      findCheckpoint recents lastCheckpoint found = Ret found' /\
      (found' = found \/
       exists h n, found' = Some h /\ h ∈ recents /\
                   h.(Number) = Some n /\ Uint64 n = lastCheckpoint).
Proof.
  induction recents as [|parent rest IH]; intros found Hnum.
  - exists found. split; [reflexivity | left; reflexivity].
  - apply Forall_cons in Hnum as [(n & Hn) Hrest]. simpl.
    unfold numberUint64. rewrite Hn. simpl.
    destruct (IH (if Uint64 n =? lastCheckpoint then Some parent else found)
                Hrest) as (found' & Hrun & Hcases).
    exists found'. split; [exact Hrun |].
    destruct Hcases as [->|(h & n' & -> & Hin & Hn' & Heq)].
    + destruct (Z.eqb_spec (Uint64 n) lastCheckpoint) as [Heq|_];
        [| left; reflexivity].
      right. exists parent, n. repeat split; try assumption.
      apply list_elem_of_here.
    + right. exists h, n'. repeat split; try assumption.
      apply list_elem_of_further. exact Hin.
Qed.

Lemma findCheckpoint_returns (recents : list Header) (lastCheckpoint : Z) :
  forall found found',
    findCheckpoint recents lastCheckpoint found = Ret found' ->
    found' = found \/
    exists h n, found' = Some h /\ h ∈ recents /\
                h.(Number) = Some n /\ Uint64 n = lastCheckpoint.
Proof.
  induction recents as [|parent rest IH]; intros found found'; simpl.
  - intros [= <-]. left. reflexivity.
  - unfold numberUint64.
    destruct parent.(Number) as [n|] eqn:Hn; [| discriminate]. simpl.
    intros Hrun. apply IH in Hrun as [->|(h & n' & -> & Hin & Hn' & Heq)].
    + destruct (Z.eqb_spec (Uint64 n) lastCheckpoint) as [Heq|_];
        [| left; reflexivity].
      right. exists parent, n. repeat split; try assumption.
      apply list_elem_of_here.
    + right. exists h, n'. repeat split; try assumption.
      apply list_elem_of_further. exact Hin.
Qed.

Lemma recents_of_the_chain (c : Consortium)
    (chain : ChainHeaderReader) (number : Z) (recents : list Header) :
  Forall (fun h => exists n, h.(Number) = Some n /\
                             chain.(GetHeaderByNumber) (Uint64 n) = Some h)
    recents ->
  getValidatorsFromLastCheckpoint c chain number recents
  = getValidatorsFromLastCheckpoint c chain number [].
Proof.
  intros Hchain. unfold getValidatorsFromLastCheckpoint.
  destruct (div64 number c.(config).(Epoch)) as [q|]; [| reflexivity]. simpl.
  destruct (wrap64 (q * c.(config).(Epoch)) =? 0); [reflexivity |].
  destruct (findCheckpoint_found recents (wrap64 (q * c.(config).(Epoch))) None)
    as (found & -> & Hcases).
  { eapply Forall_impl; [exact Hchain |]. intros h (n & Hn & _). eauto. }
  simpl. destruct Hcases as [->|(h & n & -> & Hin & Hn & Heq)];
    [reflexivity |].
  rewrite Forall_forall in Hchain.
  destruct (Hchain h Hin) as (n' & Hn' & Hget).
  rewrite Hn in Hn'. injection Hn' as <-. rewrite <- Heq, Hget. reflexivity.
Qed.

(** X11.  Passing recent headers to getValidatorsFromLastCheckpoint changes
    nothing when the chain already has them: if every header of [recents] is
    the one the chain returns for its number, the answer is the one without
    recents, and so CalcDifficulty, which passes the parent, computes with
    the validators the chain gives. *)
Theorem getValidatorsFromLastCheckpoint_recents (c : Consortium)
    (chain : ChainHeaderReader) (number time pn : Z) (recents : list Header)
    (parent : Header) :
  Forall (fun h => exists n, h.(Number) = Some n /\
                             chain.(GetHeaderByNumber) (Uint64 n) = Some h)
    recents ->
  parent.(Number) = Some pn ->
  chain.(GetHeaderByNumber) (Uint64 pn) = Some parent ->
  getValidatorsFromLastCheckpoint c chain number recents
  = getValidatorsFromLastCheckpoint c chain number [] /\
  CalcDifficulty c chain time parent
  = ('(validators, err) ←
       getValidatorsFromLastCheckpoint c chain
         (sub64 (add64 (Uint64 pn) 1) 1) [];
     match err with
     | Some _ => Ret None
     | None =>
         d ← doCalcDifficulty c c.(val) (add64 (Uint64 pn) 1) validators;
         Ret (Some d)
     end).
Proof.
  intros Hchain Hpn Hparent. split.
  - apply recents_of_the_chain. exact Hchain.
  - unfold CalcDifficulty, numberUint64. rewrite Hpn. simpl.
    rewrite recents_of_the_chain; [reflexivity |].
    constructor; [| constructor]. exists pn. split; assumption.
Qed.

(** X12.  In the first epoch ([number < Epoch]) the validators are the ones
    hard-coded for the chain, whatever the chain and the recent headers hold.
    From the first checkpoint on, getValidatorsFromLastCheckpoint returns no
    error: when it returns, it returns the addresses cut out of the header of
    the last checkpoint, which is one of the recent headers with that number
    or else the one the chain holds, and whose extra-data has at least 32+65
    bytes.  Without recent headers and with a chain that does not hold the
    checkpoint, the call panics. *)
Theorem getValidatorsFromLastCheckpoint_epochs (c : Consortium)
    (chain : ChainHeaderReader) (number : Z) (recents : list Header) :
  (0 <= number < c.(config).(Epoch) ->
   getValidatorsFromLastCheckpoint c chain number recents
   = getValidatorsFromGenesis c) /\
  (0 < c.(config).(Epoch) <= number -> number < two64 ->
   forall validators err,
     getValidatorsFromLastCheckpoint c chain number recents
       = Ret (validators, err) ->
     let lastCheckpoint := number / c.(config).(Epoch) * c.(config).(Epoch) in
     err = None /\
     exists header,
       ((exists n, header ∈ recents /\ header.(Number) = Some n /\
                   Uint64 n = lastCheckpoint) \/
        chain.(GetHeaderByNumber) lastCheckpoint = Some header) /\
       extraVanity + ExtraSeal <= len header.(Extra) /\
       validators
       = ExtractAddressFromBytes
           (take (Z.to_nat (len header.(Extra) - ExtraSeal - extraVanity))
              (drop (Z.to_nat extraVanity) header.(Extra)))) /\
  (0 < c.(config).(Epoch) <= number -> number < two64 ->
   chain.(GetHeaderByNumber) (number / c.(config).(Epoch) * c.(config).(Epoch))
     = None ->
   ~ returns (getValidatorsFromLastCheckpoint c chain number [])).
Proof.
  assert (Hq : 0 < c.(config).(Epoch) <= number ->
               0 < number / c.(config).(Epoch) * c.(config).(Epoch) <= number).
  { intros HE.
    pose proof (Z.mod_pos_bound number c.(config).(Epoch) ltac:(lia)).
    pose proof (epoch_remainder number c.(config).(Epoch) ltac:(lia)).
    assert (1 <= number / c.(config).(Epoch))
      by (apply Z.div_le_lower_bound; lia).
    nia. }
  unfold getValidatorsFromLastCheckpoint, div64. split; [| split].
  3: { intros HE Hn Hnone [r Hr]. specialize (Hq HE).
       destruct (Z.eqb_spec c.(config).(Epoch) 0); [lia |]. simpl in Hr.
       rewrite wrap64_small in Hr by lia.
       destruct (Z.eqb_spec
                   (number / c.(config).(Epoch) * c.(config).(Epoch)) 0);
         [lia |].
       simpl in Hr. rewrite Hnone in Hr. discriminate Hr. }
  - intros Hn. destruct (Z.eqb_spec c.(config).(Epoch) 0); [lia |]. simpl.
    rewrite Z.div_small by lia. reflexivity.
  - intros HE Hn validators err.
    destruct (Z.eqb_spec c.(config).(Epoch) 0); [lia |]. simpl.
    specialize (Hq HE).
    rewrite wrap64_small by lia.
    destruct (Z.eqb_spec (number / c.(config).(Epoch) * c.(config).(Epoch)) 0);
      [lia |].
    destruct (findCheckpoint recents _ None) as [found|] eqn:Hfind;
      [| discriminate].
    apply findCheckpoint_returns in Hfind.
    simpl.
    destruct (match found with
              | Some h => Some h
              | None => chain.(GetHeaderByNumber)
                          (number / c.(config).(Epoch) * c.(config).(Epoch))
              end) as [header|] eqn:Hheader; [| discriminate].
    destruct (slice header.(Extra) extraVanity (len header.(Extra) - ExtraSeal))
      as [bytes|] eqn:Hslice; [| discriminate].
    simpl. intros [= <- <-]. split; [reflexivity |].
    apply slice_returns in Hslice as (_ & Hlo & _ & ->).
    exists header. split; [| split; [lia | reflexivity]].
    destruct Hfind as [->|(h & n' & -> & Hin & Hn' & Heq)].
    + right. exact Hheader.
    + injection Hheader as <-. left. exists n'. auto.
Qed.

(** *** Prepare *)

Lemma vanityOf_spec (extra : list byte) :
  vanityOf extra
  = Ret (take 32 (extra ++ replicate (32 - length extra) x00)).
Proof.
  unfold vanityOf, sliceTo, extraVanity.
  pose proof (len_nonneg extra) as Hnn. unfold len in *.
  destruct (Z.ltb_spec (Z.of_nat (length extra)) 32) as [Hlt|Hge].
  - rewrite slice_in_range.
    + simpl drop.
      replace (Z.to_nat (32 - Z.of_nat (length extra)))
        with (32 - length extra)%nat by lia.
      reflexivity.
    + lia.
    + lia.
    + unfold len. rewrite length_app, length_replicate. lia.
  - rewrite slice_in_range by (unfold len; lia).
    simpl drop. replace (32 - length extra)%nat with 0%nat by lia.
    simpl replicate. rewrite app_nil_r. reflexivity.
Qed.

Lemma vanity_length (extra : list byte) :
  length (take 32 (extra ++ replicate (32 - length extra) x00)) = 32%nat.
Proof. rewrite length_take, length_app, length_replicate. lia. Qed.

Lemma max_if (a b : Z) : (if a <? b then b else a) = Z.max a b.
Proof. destruct (Z.ltb_spec a b); lia. Qed.

(** What a successful Prepare has done, step by step. *)
Lemma Prepare_success_inv (c : Consortium) (chain : ChainHeaderReader)
    (header h' : Header) :
  Prepare c chain header = Ret (None, h') ->
  exists nb validators d signerBytes parent,
    header.(Number) = Some nb /\
    getValidatorsFromLastCheckpoint c chain (sub64 (Uint64 nb) 1) []
      = Ret (validators, None) /\
    doCalcDifficulty c c.(val) (Uint64 nb) validators = Ret d /\
    c.(config).(Epoch) <> 0 /\
    (if Uint64 nb `mod` c.(config).(Epoch) =? 0
     then exists vs, getValidatorsFromContract c chain (Uint64 nb) = (vs, None)
                     /\ signerBytes = concat vs
     else signerBytes = []) /\
    chain.(GetHeader) header.(ParentHash) (sub64 (Uint64 nb) 1) = Some parent /\
    h' = {| ParentHash := header.(ParentHash);
            UncleHash := header.(UncleHash);
            Coinbase := c.(val);
            Root := header.(Root);
            TxHash := header.(TxHash);
            ReceiptHash := header.(ReceiptHash);
            Bloom := header.(Bloom);
            Difficulty := Some d;
            Number := header.(Number);
            GasLimit := header.(GasLimit);
            GasUsed := header.(GasUsed);
            Time := Z.max (add64 parent.(Time) c.(config).(Period))
                          (wrap64 timeNow);
            Extra := take 32 (header.(Extra)
                              ++ replicate (32 - length header.(Extra)) x00)
                     ++ signerBytes ++ replicate 65 x00;
            MixDigest := zeroHash;
            Nonce := emptyNonce |}.
Proof.
  unfold Prepare, numberUint64. simpl.
  destruct header.(Number) as [nb|] eqn:Hnum; [| discriminate]. simpl.
  destruct (getValidatorsFromLastCheckpoint c chain (sub64 (Uint64 nb) 1) [])
    as [[validators [err|]]|] eqn:Hvals; try discriminate. simpl.
  destruct (doCalcDifficulty c c.(val) (Uint64 nb) validators) as [d|] eqn:Hd;
    [| discriminate]. simpl.
  rewrite vanityOf_spec. simpl.
  unfold mod64.
  destruct (Z.eqb_spec c.(config).(Epoch) 0) as [HE|HE]; [discriminate |].
  simpl.
  destruct (Uint64 nb `mod` c.(config).(Epoch) =? 0) eqn:Hcp.
  - destruct (getValidatorsFromContract c chain (Uint64 nb))
      as [vs [err|]] eqn:Hvs; [discriminate |].
    destruct (chain.(GetHeader) header.(ParentHash) (sub64 (Uint64 nb) 1))
      as [parent|] eqn:Hparent; [| discriminate].
    intros [= <-].
    exists nb, validators, d, (concat vs), parent. rewrite Hcp.
    do 4 (split; [first [reflexivity | assumption] |]).
    split; [exists vs; split; [exact Hvs | reflexivity] |].
    split; [exact Hparent |].
    rewrite max_if.
    unfold withTime, withMixDigest, withExtra, withDifficulty, withAuthor.
    simpl. rewrite Hnum. reflexivity.
  - destruct (chain.(GetHeader) header.(ParentHash) (sub64 (Uint64 nb) 1))
      as [parent|] eqn:Hparent; [| discriminate].
    intros [= <-].
    exists nb, validators, d, [], parent. rewrite Hcp.
    do 4 (split; [first [reflexivity | assumption] |]).
    split; [reflexivity |]. split; [exact Hparent |].
    rewrite max_if.
    unfold withTime, withMixDigest, withExtra, withDifficulty, withAuthor.
    simpl. rewrite Hnum. reflexivity.
Qed.

(** X13.  A header that Prepare returns without error has the local signer
    as coinbase, the zero nonce and mix digest, difficulty 7 or 3 as
    doCalcDifficulty gives it for the validators of the last checkpoint, and
    the time [max(parent.Time + Period, now)] of a parent that the chain
    holds; the hashes, the bloom, the number and the gas fields are as they
    were. *)
Theorem Prepare_fields (c : Consortium) (chain : ChainHeaderReader)
    (header h' : Header) :
  Prepare c chain header = Ret (None, h') ->
  h'.(Coinbase) = c.(val) /\
  h'.(Nonce) = emptyNonce /\
  h'.(MixDigest) = zeroHash /\
  (h'.(Difficulty) = Some 7 \/ h'.(Difficulty) = Some 3) /\
  (exists nb validators d parent,
     header.(Number) = Some nb /\
     getValidatorsFromLastCheckpoint c chain (sub64 (Uint64 nb) 1) []
       = Ret (validators, None) /\
     doCalcDifficulty c c.(val) (Uint64 nb) validators = Ret d /\
     h'.(Difficulty) = Some d /\
     chain.(GetHeader) header.(ParentHash) (sub64 (Uint64 nb) 1)
       = Some parent /\
     h'.(Time) = Z.max (add64 parent.(Time) c.(config).(Period))
                       (wrap64 timeNow)) /\
  h'.(ParentHash) = header.(ParentHash) /\
  h'.(UncleHash) = header.(UncleHash) /\
  h'.(Root) = header.(Root) /\
  h'.(TxHash) = header.(TxHash) /\
  h'.(ReceiptHash) = header.(ReceiptHash) /\
  h'.(Bloom) = header.(Bloom) /\
  h'.(Number) = header.(Number) /\
  h'.(GasLimit) = header.(GasLimit) /\
  h'.(GasUsed) = header.(GasUsed).
Proof.
  intros Hrun.
  destruct (Prepare_success_inv _ _ _ _ Hrun)
    as (nb & validators & d & signerBytes & parent & Hnum & Hvals & Hd & HE
        & Hcp & Hparent & ->).
  simpl. do 3 (split; [reflexivity |]).
  destruct (doCalcDifficulty_returns _ _ _ _ _ Hd) as (_ & _ & Hval).
  split; [destruct Hval as [->| ->]; auto |].
  split; [exists nb, validators, d, parent; auto 10 |].
  repeat split.
Qed.

(** X14.  The extra-data of a header that Prepare returns without error is
    the first 32 bytes of the old extra-data (padded with zeros), then on a
    checkpoint the validators of the contract, then 65 zero bytes.  So it has
    at least 32+65 bytes, exactly that many off a checkpoint, and on a
    checkpoint [32 + 20*k + 65] when the [k] validators have 20 bytes
    each. *)
Theorem Prepare_extra_layout (c : Consortium) (chain : ChainHeaderReader)
    (header h' : Header) :
  Prepare c chain header = Ret (None, h') ->
  exists nb,
    header.(Number) = Some nb /\
    c.(config).(Epoch) <> 0 /\
    extraVanity + ExtraSeal <= len h'.(Extra) /\
    take 32 h'.(Extra)
      = take 32 (header.(Extra) ++ replicate (32 - length header.(Extra)) x00) /\
    drop (length h'.(Extra) - 65) h'.(Extra) = replicate 65 x00 /\
    (Uint64 nb `mod` c.(config).(Epoch) <> 0 ->
     len h'.(Extra) = extraVanity + ExtraSeal) /\
    (Uint64 nb `mod` c.(config).(Epoch) = 0 ->
     exists vs,
       getValidatorsFromContract c chain (Uint64 nb) = (vs, None) /\
       h'.(Extra)
         = take 32 (header.(Extra)
                    ++ replicate (32 - length header.(Extra)) x00)
           ++ concat vs ++ replicate 65 x00 /\
       (Forall (fun a => length a = 20%nat) vs ->
        len h'.(Extra) = extraVanity + 20 * len vs + ExtraSeal /\
        (len h'.(Extra) - extraVanity - ExtraSeal) `mod` AddressLength = 0)).
Proof.
  intros Hrun.
  destruct (Prepare_success_inv _ _ _ _ Hrun)
    as (nb & validators & d & signerBytes & parent & Hnum & Hvals & Hd & HE
        & Hcp & Hparent & ->).
  cbn [Extra]. exists nb. split; [exact Hnum |]. split; [exact HE |].
  pose proof (vanity_length header.(Extra)) as Hv.
  unfold extraVanity, ExtraSeal, AddressLength, len.
  split.
  { rewrite !length_app, Hv, length_replicate. lia. }
  split.
  { apply take_app_length'. symmetry. exact Hv. }
  split.
  { rewrite !length_app, Hv, length_replicate.
    rewrite app_assoc. apply drop_app_length'.
    rewrite length_app, Hv. lia. }
  split.
  - intros Hm. destruct (Z.eqb_spec (Uint64 nb `mod` c.(config).(Epoch)) 0);
      [contradiction |].
    subst signerBytes. rewrite !length_app, Hv, length_replicate. simpl. lia.
  - intros Hm. destruct (Z.eqb_spec (Uint64 nb `mod` c.(config).(Epoch)) 0);
      [| contradiction].
    destruct Hcp as (vs & Hvs & ->). exists vs.
    split; [exact Hvs |]. split; [reflexivity |].
    intros H20.
    assert (Hc : length (concat vs) = (20 * length vs)%nat).
    { clear -H20. induction H20 as [|a vs Ha _ IH]; [reflexivity |].
      simpl. rewrite length_app, Ha, IH. lia. }
    rewrite !length_app, Hv, length_replicate, Hc.
    split; [lia |].
    replace (Z.of_nat (32 + (20 * length vs + 65)) - 32 - 65)
      with (Z.of_nat (length vs) * 20) by lia.
    apply Z.mod_mul. lia.
Qed.

(** X15.  Prepare and CalcDifficulty agree: when the parent that Prepare
    found is the header the chain returns for its number, and that number is
    one below the header's, CalcDifficulty on the parent returns the
    difficulty Prepare has set. *)
Theorem Prepare_CalcDifficulty (c : Consortium) (chain : ChainHeaderReader)
    (header h' parent : Header) (nb pn time : Z) :
  Prepare c chain header = Ret (None, h') ->
  header.(Number) = Some nb ->
  chain.(GetHeader) header.(ParentHash) (sub64 (Uint64 nb) 1) = Some parent ->
  parent.(Number) = Some pn ->
  Uint64 pn = sub64 (Uint64 nb) 1 ->
  chain.(GetHeaderByNumber) (Uint64 pn) = Some parent ->
  CalcDifficulty c chain time parent = Ret h'.(Difficulty).
Proof.
  intros Hrun Hnum Hparent Hpn Hprev Hchain.
  destruct (Prepare_success_inv _ _ _ _ Hrun)
    as (nb' & validators & d & signerBytes & parent' & Hnum' & Hvals & Hd & HE
        & Hcp & Hparent' & ->).
  rewrite Hnum in Hnum'. injection Hnum' as <-. simpl.
  unfold CalcDifficulty, numberUint64. rewrite Hpn. simpl.
  assert (Hback : add64 (Uint64 pn) 1 = Uint64 nb).
  { rewrite Hprev. pose proof (Uint64_range nb) as Hr.
    unfold add64, sub64, wrap64.
    rewrite Zplus_mod_idemp_l.
    replace (Uint64 nb - 1 + 1) with (Uint64 nb) by lia.
    apply Z.mod_small. exact Hr. }
  rewrite Hback.
  rewrite recents_of_the_chain.
  - rewrite Hvals. simpl. rewrite Hd. reflexivity.
  - constructor; [| constructor]. exists pn. split; [exact Hpn | exact Hchain].
Qed.

(** *** Sealing *)

Lemma recentsLoop_error (entries : list (Z * Address)) (signer : Address)
    (number : Z) (validators : list Address) :
  recentsLoop entries signer number validators = None \/
  recentsLoop entries signer number validators = Some ErrRecentlySigned.
Proof.
  destruct (recentsLoop entries signer number validators) as [e|] eqn:Hr;
    [right | left; reflexivity].
  apply recentsLoop_sound in Hr as [-> _]. reflexivity.
Qed.

(** The two ways Seal returns: with an error and the header as it was, or
    without error after every step has passed. *)
Lemma Seal_returns (c : Consortium) (chain : ChainHeaderReader)
    (block : Block) (sigcache sigcache' : SigCache) (err : option error)
    (sealed : Header) :
  Seal c chain block sigcache = Ret (err, sealed, sigcache') ->
  (exists e, err = Some e /\ sealed = block.(BlockHeader)) \/
  (err = None /\
   exists nb validators snap sign preimage sighash extra',
     block.(BlockHeader).(Number) = Some nb /\ 0 < Uint64 nb /\
     (c.(config).(Period) <> 0 \/ block.(BlockTransactions) <> []) /\
     getValidatorsFromLastCheckpoint c chain (Uint64 nb - 1) []
       = Ret (validators, None) /\
     SignerInList c.(val) validators = true /\
     snapshot chain sigcache (Uint64 nb - 1)
       block.(BlockHeader).(ParentHash) [] = (inl snap, sigcache') /\
     recentsLoop (map_to_list snap.(Recents)) c.(val) (Uint64 nb) validators
       = None /\
     consortiumRLP block.(BlockHeader) = Ret preimage /\
     c.(signFn) = Some sign /\
     sign c.(val) preimage = inl sighash /\
     sealExtra block.(BlockHeader).(Extra) sighash = Ret extra' /\
     sealed = withExtra block.(BlockHeader) extra').
Proof.
  unfold Seal, numberUint64.
  destruct block.(BlockHeader).(Number) as [nb|] eqn:Hnum; [| discriminate].
  simpl. pose proof (Uint64_range nb) as Hr.
  destruct (Z.eqb_spec (Uint64 nb) 0) as [H0|H0].
  { intros [= <- <- <-]. left. eauto. }
  destruct ((c.(config).(Period) =? 0)
            && (len block.(BlockTransactions) =? 0)) eqn:Hbusy.
  { intros [= <- <- <-]. left. eauto. }
  rewrite sub64_one by lia.
  destruct (getValidatorsFromLastCheckpoint c chain (Uint64 nb - 1) [])
    as [[validators [e|]]|] eqn:Hvals; try discriminate; simpl.
  { intros [= <- <- <-]. left. eauto. }
  destruct (SignerInList c.(val) validators) eqn:Hin; simpl.
  2: { intros [= <- <- <-]. left. eauto. }
  destruct (snapshot chain sigcache (Uint64 nb - 1)
              block.(BlockHeader).(ParentHash) [])
    as [[snap|e] sc1] eqn:Hsnap.
  2: { intros [= <- <- <-]. left. eauto. }
  destruct (recentsLoop (map_to_list snap.(Recents)) c.(val) (Uint64 nb)
              validators) as [e|] eqn:Hloop.
  { intros [= <- <- <-]. left. eauto. }
  destruct (signerInTurn c c.(val) (Uint64 nb) validators) as [inturn|];
    [| discriminate]. simpl.
  destruct (consortiumRLP block.(BlockHeader)) as [preimage|] eqn:Hrlp;
    [| discriminate]. simpl.
  destruct c.(signFn) as [sign|] eqn:Hsign; [| discriminate].
  destruct (sign c.(val) preimage) as [sighash|e] eqn:Hsig.
  2: { intros [= <- <- <-]. left. eauto. }
  destruct (sealExtra block.(BlockHeader).(Extra) sighash) as [extra'|] eqn:Hx;
    [| discriminate]. simpl.
  intros [= <- <- <-]. right. split; [reflexivity |].
  exists nb, validators, snap, sign, preimage, sighash, extra'.
  repeat split; try assumption; try lia.
  apply andb_false_iff in Hbusy as [Hp|Ht].
  - left. apply Z.eqb_neq. exact Hp.
  - right. apply Z.eqb_neq in Ht. rewrite len_zero_iff in Ht. exact Ht.
Qed.

Lemma encodeSigHeader_returns (header : Header) (preimage : list byte) :
  encodeSigHeader header = Ret preimage ->
  SignatureLength <= len header.(Extra).
Proof.
  unfold encodeSigHeader.
  destruct (sliceTo header.(Extra) (len header.(Extra) - SignatureLength))
    as [extra|] eqn:Hslice; [| discriminate].
  intros _. apply slice_returns in Hslice. lia.
Qed.

(** X16.  A header that Seal returns without error differs from the block's
    header in its extra-data only, and there only in the last 65 bytes, which
    are the signature when the signing function returns 65 bytes; its seal
    hash is the one that was signed.  Seal gets there only for a block past
    genesis whose signer is among the validators of the last checkpoint and
    passes the loop over the recent signers. *)
Theorem Seal_signs_in_place (c : Consortium) (chain : ChainHeaderReader)
    (block : Block) (sigcache sigcache' : SigCache) (sealed : Header) :
  Seal c chain block sigcache = Ret (None, sealed, sigcache') ->
  let header := block.(BlockHeader) in
  same_but_extra header sealed /\
  length sealed.(Extra) = length header.(Extra) /\
  unsealed sealed.(Extra) = unsealed header.(Extra) /\
  SealHash sealed = SealHash header /\
  exists nb validators snap sign preimage sighash,
    header.(Number) = Some nb /\ 0 < Uint64 nb /\
    getValidatorsFromLastCheckpoint c chain (Uint64 nb - 1) []
      = Ret (validators, None) /\
    SignerInList c.(val) validators = true /\
    snapshot chain sigcache (Uint64 nb - 1) header.(ParentHash) []
      = (inl snap, sigcache') /\
    recentsLoop (map_to_list snap.(Recents)) c.(val) (Uint64 nb) validators
      = None /\
    consortiumRLP header = Ret preimage /\
    c.(signFn) = Some sign /\
    sign c.(val) preimage = inl sighash /\
    (length sighash = 65%nat ->
     sealed.(Extra) = unsealed header.(Extra) ++ sighash).
Proof.
  intros Hrun header.
  destruct (Seal_returns _ _ _ _ _ _ _ Hrun)
    as [(e & [=] & _)|(_ & nb & validators & snap & sign & preimage & sighash
                       & extra' & Hnum & Hpos & Hbusy & Hvals & Hin & Hsnap
                       & Hloop & Hrlp & Hsign & Hsig & Hx & ->)].
  fold header in Hnum, Hvals, Hsnap, Hrlp, Hx |- *.
  pose proof (encodeSigHeader_returns _ _ Hrlp) as Hlen.
  destruct (unsealed_sealExtra header.(Extra) sighash Hlen)
    as (extra'' & Hx' & Hl & Hun).
  rewrite Hx in Hx'. injection Hx' as <-.
  split; [repeat split |]. split; [exact Hl |]. split; [exact Hun |].
  split.
  { unfold SealHash. rewrite !encodeSigHeader_unsealed.
    - simpl. rewrite Hun. reflexivity.
    - exact Hlen.
    - simpl. unfold len in *. rewrite Hl. exact Hlen. }
  exists nb, validators, snap, sign, preimage, sighash.
  do 9 (split; [assumption |]).
  intros H65. simpl.
  unfold sealExtra, sliceFrom in Hx.
  destruct (slice header.(Extra) (len header.(Extra) - ExtraSeal)
              (len header.(Extra))) as [dst|] eqn:Hdst; [| discriminate].
  simpl in Hx. injection Hx as <-.
  apply slice_returns in Hdst as (_ & _ & _ & ->).
  unfold unsealed, ExtraSeal, SignatureLength, len in *. f_equal.
  - f_equal. lia.
  - unfold copy. rewrite length_take, length_drop.
    replace (Z.to_nat (Z.of_nat (length header.(Extra))
                       - (Z.of_nat (length header.(Extra)) - 65)))
      with 65%nat by lia.
    replace (65 `min` (length header.(Extra)
                       - Z.to_nat (Z.of_nat (length header.(Extra)) - 65)))%nat
      with 65%nat by lia.
    rewrite <- H65 at 1. rewrite firstn_all.
    rewrite drop_ge; [apply app_nil_r |].
    rewrite length_take, length_drop. lia.
Qed.

(** X17.  Whenever Seal returns an error the header is the block's header,
    untouched.  It answers ErrUnknownBlock for block 0 and refuses an empty
    block on a chain with period 0, in both cases before it reads the
    validators or the snapshot. *)
Theorem Seal_errors_leave_header (c : Consortium) (chain : ChainHeaderReader)
    (block : Block) (sigcache : SigCache) :
  (forall e sealed sigcache',
     Seal c chain block sigcache = Ret (Some e, sealed, sigcache') ->
     sealed = block.(BlockHeader)) /\
  (forall nb,
     block.(BlockHeader).(Number) = Some nb -> Uint64 nb = 0 ->
     Seal c chain block sigcache
       = Ret (Some ErrUnknownBlock, block.(BlockHeader), sigcache)) /\
  (forall nb,
     block.(BlockHeader).(Number) = Some nb -> Uint64 nb <> 0 ->
     c.(config).(Period) = 0 -> block.(BlockTransactions) = [] ->
     Seal c chain block sigcache
       = Ret (Some (errorsNew "sealing paused while waiting for transactions"),
              block.(BlockHeader), sigcache)).
Proof.
  split; [| split].
  - intros e sealed sigcache' Hrun.
    destruct (Seal_returns _ _ _ _ _ _ _ Hrun) as [(e' & _ & ->)|([=] & _)].
    reflexivity.
  - intros nb Hnum H0. unfold Seal, numberUint64. rewrite Hnum. simpl.
    rewrite H0. reflexivity.
  - intros nb Hnum H0 Hp Ht. unfold Seal, numberUint64. rewrite Hnum. simpl.
    destruct (Z.eqb_spec (Uint64 nb) 0); [contradiction |].
    rewrite Hp, Ht. reflexivity.
Qed.

(** *** Header verification *)

(** What verifyCascadingFields has checked when it accepts. *)
Lemma verifyCascadingFields_accepts_inv (c : Consortium)
    (chain : ChainHeaderReader) (header : Header) (parents : list Header)
    (sigcache sc' : SigCache) :
  verifyCascadingFields c chain header parents sigcache = Ret (None, sc') ->
  exists nb,
    header.(Number) = Some nb /\
    (Uint64 nb = 0 /\ sc' = sigcache \/
     0 < Uint64 nb /\
     exists parent pn,
       (if 0 <? len parents then last parents
        else chain.(GetHeader) header.(ParentHash) (Uint64 nb - 1))
         = Some parent /\
       parent.(Number) = Some pn /\ Uint64 pn = Uint64 nb - 1 /\
       headerHash parent = header.(ParentHash) /\
       add64 parent.(Time) c.(config).(Period) <= header.(Time) /\
       c.(config).(Epoch) <> 0 /\
       (Uint64 nb `mod` c.(config).(Epoch) = 0 ->
        verifyCheckpointSigners c chain header (Uint64 nb) = Ret None) /\
       verifySeal c chain header parents sigcache = Ret (None, sc')).
Proof.
  unfold verifyCascadingFields, numberUint64. intros Hrun.
  destruct header.(Number) as [nb|] eqn:Hnum; [| discriminate]. simpl in Hrun.
  pose proof (Uint64_range nb) as Hr.
  exists nb. split; [reflexivity |].
  destruct (Z.eqb_spec (Uint64 nb) 0) as [H0|H0].
  { injection Hrun as <-. left. split; [exact H0 | reflexivity]. }
  right. split; [lia |].
  rewrite sub64_one in Hrun by lia.
  destruct (if 0 <? len parents then last parents
            else chain.(GetHeader) header.(ParentHash) (Uint64 nb - 1))
    as [parent|] eqn:Hparent; [| discriminate].
  destruct parent.(Number) as [pn|] eqn:Hpn; [| discriminate]. simpl in Hrun.
  destruct (Z.eqb_spec (Uint64 pn) (Uint64 nb - 1)) as [Hprev|Hprev];
    [| discriminate].
  destruct (decide (headerHash parent = header.(ParentHash))) as [Hhash|Hhash].
  2: { rewrite bool_decide_eq_false_2 in Hrun by exact Hhash. discriminate. }
  rewrite bool_decide_eq_true_2 in Hrun by exact Hhash. simpl in Hrun.
  destruct (Z.ltb_spec header.(Time) (add64 parent.(Time) c.(config).(Period)))
    as [Ht|Ht]; [discriminate |].
  unfold mod64 in Hrun.
  destruct (Z.eqb_spec c.(config).(Epoch) 0) as [HE|HE]; [discriminate |].
  simpl in Hrun.
  exists parent, pn. split; [reflexivity |]. do 5 (split; [assumption |]).
  destruct (Z.eqb_spec (Uint64 nb `mod` c.(config).(Epoch)) 0) as [Hm|Hm];
    simpl in Hrun.
  - destruct (verifyCheckpointSigners c chain header (Uint64 nb))
      as [[e|]|] eqn:Hcp; try discriminate. simpl in Hrun.
    split; [reflexivity | exact Hrun].
  - split; [contradiction | exact Hrun].
Qed.

(** What VerifyHeaderAndParents has checked on the header alone when it
    accepts. *)
Lemma VerifyHeaderAndParents_accepts_inv (c : Consortium)
    (chain : ChainHeaderReader) (header : Header) (parents : list Header)
    (sigcache sc' : SigCache) :
  VerifyHeaderAndParents c chain header parents sigcache = Ret (None, sc') ->
  exists nb,
    header.(Number) = Some nb /\
    header.(Time) <= wrap64 timeNow /\
    header.(Nonce) = emptyNonce /\
    extraVanity + ExtraSeal <= len header.(Extra) /\
    c.(config).(Epoch) <> 0 /\
    (if Uint64 nb `mod` c.(config).(Epoch) =? 0
     then (len header.(Extra) - extraVanity - ExtraSeal) `mod` AddressLength = 0
     else len header.(Extra) = extraVanity + ExtraSeal) /\
    header.(MixDigest) = zeroHash /\
    header.(UncleHash) = uncleHash /\
    (0 < Uint64 nb ->
     header.(Difficulty) = Some 7 \/ header.(Difficulty) = Some 3) /\
    VerifyForkHashes chain.(Config) header false = None /\
    verifyCascadingFields c chain header parents sigcache = Ret (None, sc').
Proof.
  unfold VerifyHeaderAndParents. intros Hrun.
  destruct header.(Number) as [nb|] eqn:Hnum; [| discriminate].
  exists nb. split; [reflexivity |].
  destruct (Z.ltb_spec (wrap64 timeNow) header.(Time)) as [|Htime];
    [discriminate |].
  destruct (decide (header.(Nonce) = emptyNonce)) as [Hnonce|Hnonce].
  2: { rewrite bool_decide_eq_false_2 in Hrun by exact Hnonce. discriminate. }
  rewrite bool_decide_eq_true_2 in Hrun by exact Hnonce. simpl in Hrun.
  destruct (Z.ltb_spec (len header.(Extra)) extraVanity) as [|Hvan];
    [discriminate |].
  destruct (Z.ltb_spec (len header.(Extra)) (extraVanity + ExtraSeal))
    as [|Hseal]; [discriminate |].
  unfold mod64 in Hrun.
  destruct (Z.eqb_spec c.(config).(Epoch) 0) as [HE|HE]; [discriminate |].
  simpl in Hrun.
  do 4 (split; [assumption |]).
  destruct (negb (Uint64 nb `mod` c.(config).(Epoch) =? 0)
            && negb (len header.(Extra) - extraVanity - ExtraSeal =? 0))
    eqn:Hoff; [discriminate |].
  destruct ((Uint64 nb `mod` c.(config).(Epoch) =? 0)
            && negb (Z.rem (len header.(Extra) - extraVanity - ExtraSeal)
                       AddressLength =? 0))
    eqn:Hon; [discriminate |].
  split.
  { destruct (Uint64 nb `mod` c.(config).(Epoch) =? 0); simpl in Hoff, Hon.
    - apply negb_false_iff, Z.eqb_eq in Hon.
      rewrite Z.rem_mod_nonneg in Hon by (unfold AddressLength; lia).
      exact Hon.
    - apply negb_false_iff, Z.eqb_eq in Hoff. lia. }
  clear Hoff Hon.
  destruct (decide (header.(MixDigest) = zeroHash)) as [Hmix|Hmix].
  2: { rewrite bool_decide_eq_false_2 in Hrun by exact Hmix. discriminate. }
  rewrite bool_decide_eq_true_2 in Hrun by exact Hmix. simpl in Hrun.
  destruct (decide (header.(UncleHash) = uncleHash)) as [Hunc|Hunc].
  2: { rewrite bool_decide_eq_false_2 in Hrun by exact Hunc. discriminate. }
  rewrite bool_decide_eq_true_2 in Hrun by exact Hunc. simpl in Hrun.
  do 2 (split; [assumption |]).
  destruct ((0 <? Uint64 nb)
            && match header.(Difficulty) with
               | None => true
               | Some d => negb (d =? diffInTurn) && negb (d =? diffNoTurn)
               end) eqn:Hdiff; [discriminate |].
  split.
  { intros Hpos. apply Z.ltb_lt in Hpos. rewrite Hpos in Hdiff.
    simpl in Hdiff.
    destruct header.(Difficulty) as [d|]; [| discriminate].
    apply andb_false_iff in Hdiff as [Hd|Hd];
      apply negb_false_iff, Z.eqb_eq in Hd; subst d; auto. }
  destruct (VerifyForkHashes chain.(Config) header false) as [e|];
    [discriminate |].
  split; [reflexivity | exact Hrun].
Qed.

(** X18.  A header that VerifyHeaderAndParents accepts is not from the
    future, has the zero nonce and mix digest and the hash of the empty uncle
    list, and extra-data of exactly 32+65 bytes off a checkpoint and of
    32+65 bytes plus a multiple of 20 on one.  For block 0 nothing else is
    looked at.  Past block 0 its parent (the last of [parents], or the one the
    chain holds) has the number before it and the hash the header names, the
    header's time is at least the parent's plus the period, the signer
    recovered from the seal is the coinbase and is authorized in the snapshot,
    and the difficulty is the one of the signer's turn. *)
Theorem VerifyHeaderAndParents_accepted (c : Consortium)
    (chain : ChainHeaderReader) (header : Header) (parents : list Header)
    (sigcache sc' : SigCache) :
  0 <= c.(config).(Epoch) ->
  VerifyHeaderAndParents c chain header parents sigcache = Ret (None, sc') ->
  exists nb,
    header.(Number) = Some nb /\
    header.(Time) <= wrap64 timeNow /\
    header.(Nonce) = emptyNonce /\
    header.(MixDigest) = zeroHash /\
    header.(UncleHash) = uncleHash /\
    0 < c.(config).(Epoch) /\
    (Uint64 nb `mod` c.(config).(Epoch) <> 0 ->
     len header.(Extra) = extraVanity + ExtraSeal) /\
    (Uint64 nb `mod` c.(config).(Epoch) = 0 ->
     extraVanity + ExtraSeal <= len header.(Extra) /\
     (len header.(Extra) - extraVanity - ExtraSeal) `mod` AddressLength = 0) /\
    (Uint64 nb = 0 -> sc' = sigcache) /\
    (0 < Uint64 nb ->
     exists parent pn snap sc1,
       (if 0 <? len parents then last parents
        else chain.(GetHeader) header.(ParentHash) (Uint64 nb - 1))
         = Some parent /\
       parent.(Number) = Some pn /\ Uint64 pn = Uint64 nb - 1 /\
       headerHash parent = header.(ParentHash) /\
       add64 parent.(Time) c.(config).(Period) <= header.(Time) /\
       snapshot chain sigcache (Uint64 nb - 1) header.(ParentHash) parents
         = (inl snap, sc1) /\
       Ecrecover header sc1 = Ret (header.(Coinbase), None, sc') /\
       header.(Coinbase) ∈ snap.(SignerSet) /\
       header.(Difficulty)
         = Some (spec_difficulty snap.(SignerList) (Uint64 nb)
                   c.(config).(Epoch) header.(Coinbase))).
Proof.
  intros HE0 Hrun.
  apply VerifyHeaderAndParents_accepts_inv in Hrun
    as (nb & Hnum & Htime & Hnonce & Hlen & HE & Hextra & Hmix & Hunc & _
        & _ & Hcasc).
  exists nb. do 5 (split; [assumption |]). split; [lia |].
  split.
  { intros Hm. destruct (Z.eqb_spec (Uint64 nb `mod` c.(config).(Epoch)) 0);
      [contradiction | exact Hextra]. }
  split.
  { intros Hm. destruct (Z.eqb_spec (Uint64 nb `mod` c.(config).(Epoch)) 0);
      [| contradiction]. split; [exact Hlen | exact Hextra]. }
  apply verifyCascadingFields_accepts_inv in Hcasc
    as (nb' & Hnum' & Hcases).
  rewrite Hnum in Hnum'. injection Hnum' as <-.
  destruct Hcases as [[H0 ->]|(Hpos & parent & pn & Hparent & Hpn & Hprev
                                & Hhash & Hpt & _ & _ & Hseal)].
  { split; [reflexivity | lia]. }
  split; [lia |]. intros _.
  pose proof Hseal as Hacc.
  apply verifySeal_accepts_inv in Hacc
    as (nb' & d & snap & sc1 & signer & Hnum' & _ & Hsnap & Hrec & Hcb & Hin
        & Hne & _ & Hd).
  rewrite Hnum in Hnum'. injection Hnum' as <-. subst signer.
  exists parent, pn, snap, sc1. do 8 (split; [assumption |]).
  rewrite (verifySeal_decides c chain header parents sigcache nb d snap sc1
             sc' header.(Coinbase)) in Hseal
    by (try assumption; try reflexivity; lia).
  destruct (decide (d = spec_difficulty snap.(SignerList) (Uint64 nb)
                         c.(config).(Epoch) header.(Coinbase))) as [<-|Hbad].
  - exact Hd.
  - rewrite bool_decide_eq_false_2 in Hseal by exact Hbad. discriminate.
Qed.

Lemma verifyCascadingFields_genesis (c : Consortium)
    (chain : ChainHeaderReader) (header : Header) (parents : list Header)
    (sigcache : SigCache) (nb : Z) :
  header.(Number) = Some nb -> Uint64 nb = 0 ->
  verifyCascadingFields c chain header parents sigcache = Ret (None, sigcache).
Proof.
  intros Hnum H0. unfold verifyCascadingFields, numberUint64.
  rewrite Hnum. simpl. rewrite H0. reflexivity.
Qed.

(** X19.  Block 0 is verified on its own: the answer of
    VerifyHeaderAndParents does not depend on the parents passed, its
    signature is never recovered (the signature cache comes back as it was),
    and its difficulty is not looked at, so a header that passes the checks of
    time, nonce, extra-data, mix digest, uncle hash and fork hashes is
    accepted.  verifySeal on the same header answers ErrUnknownBlock. *)
Theorem VerifyHeaderAndParents_genesis (c : Consortium)
    (chain : ChainHeaderReader) (header : Header) (parents : list Header)
    (sigcache : SigCache) (nb : Z) :
  header.(Number) = Some nb -> Uint64 nb = 0 ->
  (forall parents',
     VerifyHeaderAndParents c chain header parents' sigcache
     = VerifyHeaderAndParents c chain header parents sigcache) /\
  (forall err sc',
     VerifyHeaderAndParents c chain header parents sigcache = Ret (err, sc') ->
     sc' = sigcache) /\
  verifySeal c chain header parents sigcache
    = Ret (Some ErrUnknownBlock, sigcache) /\
  (header.(Time) <= wrap64 timeNow -> header.(Nonce) = emptyNonce ->
   c.(config).(Epoch) <> 0 ->
   extraVanity + ExtraSeal <= len header.(Extra) ->
   (len header.(Extra) - extraVanity - ExtraSeal) `mod` AddressLength = 0 ->
   header.(MixDigest) = zeroHash -> header.(UncleHash) = uncleHash ->
   VerifyForkHashes chain.(Config) header false = None ->
   VerifyHeaderAndParents c chain header parents sigcache
     = Ret (None, sigcache)).
Proof.
  intros Hnum H0.
  pose proof (fun p => verifyCascadingFields_genesis c chain header p sigcache
                         nb Hnum H0) as Hcasc.
  split; [| split; [| split]].
  - intros parents'. unfold VerifyHeaderAndParents. rewrite Hnum.
    rewrite !Hcasc. reflexivity.
  - intros err sc'. unfold VerifyHeaderAndParents, mod64. rewrite Hnum.
    rewrite Hcasc, H0. simpl.
    repeat match goal with
           | |- context [if ?b then _ else _] => destruct b; simpl
           | |- context [match ?x with Some _ => _ | None => _ end] =>
               destruct x; simpl
           end;
      intros [= <- <-]; reflexivity.
  - unfold verifySeal, numberUint64. rewrite Hnum. simpl. rewrite H0.
    reflexivity.
  - intros Htime Hnonce HE Hlen Hmod Hmix Hunc Hfork.
    unfold VerifyHeaderAndParents, mod64. rewrite Hnum, Hcasc, H0, Hfork.
    destruct (Z.ltb_spec (wrap64 timeNow) header.(Time)); [lia |].
    rewrite !bool_decide_eq_true_2 by assumption. simpl.
    destruct (Z.ltb_spec (len header.(Extra)) extraVanity);
      [unfold extraVanity, ExtraSeal in *; lia |].
    destruct (Z.ltb_spec (len header.(Extra)) (extraVanity + ExtraSeal));
      [lia |].
    destruct (Z.eqb_spec c.(config).(Epoch) 0); [contradiction |]. simpl.
    rewrite Z.rem_mod_nonneg by (unfold AddressLength; lia).
    rewrite Hmod. reflexivity.
Qed.

(** *** Batches *)

Lemma verifyHeadersFrom_results (c : Consortium) (chain : ChainHeaderReader)
    (todo : list Header) :
  forall (done : list Header) (sigcache sc' : SigCache)
         (errs : list (option error)),
    verifyHeadersFrom c chain done todo sigcache = Ret (errs, sc') ->
    length errs = length todo /\
    forall (i : nat) (h : Header),
      todo !! i = Some h ->
      exists e sci sci',
        errs !! i = Some e /\
        VerifyHeaderAndParents c chain h (done ++ take i todo) sci
          = Ret (e, sci').
Proof.
  induction todo as [|header rest IH]; intros done sigcache sc' errs; simpl.
  - intros [= <- <-]. split; [reflexivity |]. intros i h Hi.
    rewrite lookup_nil in Hi. discriminate.
  - destruct (VerifyHeaderAndParents c chain header done sigcache)
      as [[e sc1]|] eqn:Hhead; [| discriminate]. simpl.
    destruct (verifyHeadersFrom c chain (done ++ [header]) rest sc1)
      as [[errs' sc2]|] eqn:Hrest; [| discriminate]. simpl.
    intros [= <- <-].
    apply IH in Hrest as [Hlen Hall].
    split; [simpl; rewrite Hlen; reflexivity |].
    intros [|i] h Hi; simpl in Hi.
    + injection Hi as <-. exists e, sigcache, sc1. simpl.
      rewrite app_nil_r. split; [reflexivity | exact Hhead].
    + destruct (Hall i h Hi) as (e' & sci & sci' & He' & Hrun).
      exists e', sci, sci'. split; [exact He' |].
      simpl. rewrite <- app_assoc in Hrun. exact Hrun.
Qed.

(** X20.  VerifyHeaders answers one result per header, in the order of the
    input, header [i] being verified with the headers before it as parents.
    So when a header past the first one (and past block 0) is accepted, the
    header before it in the batch is its parent: it has the number before,
    the hash the header names, and a time at least one period earlier. *)
Theorem VerifyHeaders_accepted_linked (c : Consortium)
    (chain : ChainHeaderReader) (headers : list Header)
    (sigcache sc' : SigCache) (errs : list (option error)) :
  VerifyHeaders c chain headers sigcache = Ret (errs, sc') ->
  length errs = length headers /\
  (forall (i : nat) (h : Header),
     headers !! i = Some h ->
     exists e sci sci',
       errs !! i = Some e /\
       VerifyHeaderAndParents c chain h (take i headers) sci = Ret (e, sci')) /\
  (forall (i : nat) (h prev : Header) (nb : Z),
     headers !! S i = Some h -> headers !! i = Some prev ->
     errs !! S i = Some None ->
     h.(Number) = Some nb -> Uint64 nb <> 0 ->
     exists pn,
       prev.(Number) = Some pn /\ Uint64 pn = Uint64 nb - 1 /\
       headerHash prev = h.(ParentHash) /\
       add64 prev.(Time) c.(config).(Period) <= h.(Time)).
Proof.
  unfold VerifyHeaders. intros Hrun.
  apply verifyHeadersFrom_results in Hrun as [Hlen Hall].
  split; [exact Hlen |]. split; [exact Hall |].
  intros i h prev nb Hh Hprev Herr Hnum Hpos.
  destruct (Hall (S i) h Hh) as (e & sci & sci' & He & Hrun).
  rewrite Herr in He. injection He as <-.
  rewrite app_nil_l in Hrun.
  apply VerifyHeaderAndParents_accepts_inv in Hrun
    as (nb' & Hnum' & _ & _ & _ & _ & _ & _ & _ & _ & _ & Hcasc).
  rewrite Hnum in Hnum'. injection Hnum' as <-.
  apply verifyCascadingFields_accepts_inv in Hcasc
    as (nb' & Hnum' & Hcases).
  rewrite Hnum in Hnum'. injection Hnum' as <-.
  destruct Hcases as [[H0 _]|(_ & parent & pn & Hparent & Hpn & Hpv & Hhash
                              & Htime & _)]; [contradiction |].
  assert (Hlast : last (take (S i) headers) = Some prev).
  { rewrite last_lookup, length_take.
    apply lookup_lt_Some in Hh.
    replace (Nat.pred (Nat.min (S i) (length headers))) with i by lia.
    rewrite lookup_take_lt by lia. exact Hprev. }
  assert (Hnonempty : (0 <? len (take (S i) headers)) = true).
  { apply Z.ltb_lt. unfold len. rewrite length_take.
    apply lookup_lt_Some in Hh. lia. }
  rewrite Hnonempty, Hlast in Hparent. injection Hparent as <-.
  exists pn. auto.
Qed.

(** *** Construction *)

(** initContract sets the contract integrator, nothing else. *)
Lemma initContract_keeps (c : Consortium) (k : ContractIntegrator + error) :
  (initContract c k).1.(config) = c.(config) /\
  (initContract c k).1.(val) = c.(val) /\
  (initContract c k).1.(signFn) = c.(signFn) /\
  (initContract c k).1.(V1.chainConfig) = c.(V1.chainConfig) /\
  (initContract c k).1.(skipCheckpointHeaderCheck)
    = c.(skipCheckpointHeaderCheck).
Proof.
  unfold initContract.
  destruct (_ && _); [destruct k |]; repeat split.
Qed.

(** X21.  New fills in the default epoch of 30000 blocks when the configured
    one is 0 and keeps the period; Authorize changes the signer and leaves
    the configuration alone.  So on an engine that New has made and Authorize
    has armed the epoch is positive and doCalcDifficulty cannot divide by
    zero: for every block number and non-empty validator list it returns the
    difficulty of the signer's turn.  Without a Consortium section in the
    chain configuration New panics. *)
Theorem New_Authorize_epoch (chainCfg : ChainConfig)
    (consortium : ConsortiumConfig) (skip : bool)
    (k k' : ContractIntegrator + error) (signer : Address)
    (sign : option (Address -> list byte -> list byte + error)) :
  0 <= consortium.(Epoch) ->
  New chainCfg None skip k = nilDeref /\
  exists c,
    New chainCfg (Some consortium) skip k = Ret c /\
    let c' := Authorize c signer sign k' in
    c'.(val) = signer /\ c'.(signFn) = sign /\
    c'.(V1.chainConfig) = chainCfg /\
    c'.(skipCheckpointHeaderCheck) = skip /\
    c'.(config).(Period) = consortium.(Period) /\
    c'.(config).(Epoch)
      = (if consortium.(Epoch) =? 0 then 30000 else consortium.(Epoch)) /\
    0 < c'.(config).(Epoch) /\
    forall (number : Z) (validators : list Address),
      0 <= number < two64 -> validators <> [] ->
      doCalcDifficulty c' signer number validators
        = Ret (spec_difficulty validators number c'.(config).(Epoch) signer).
Proof.
  intros HE. split; [reflexivity |].
  eexists. split; [reflexivity |]. cbv zeta.
  unfold Authorize.
  match goal with
  | |- context [initContract (withCredentials ?c0 signer sign) k'] =>
      destruct (initContract_keeps (withCredentials c0 signer sign) k')
        as (Hc & Hv & Hs & Hcc & Hsk);
      set (c' := (initContract (withCredentials c0 signer sign) k').1) in *;
      match type of Hc with
      | _ = config (withCredentials (initContract ?c1 k).1 _ _) =>
          destruct (initContract_keeps c1 k) as (Hc0 & _ & _ & Hcc0 & Hsk0)
      end
  end.
  simpl in Hc, Hv, Hs, Hcc, Hsk. rewrite Hc0 in Hc. rewrite Hcc0 in Hcc.
  rewrite Hsk0 in Hsk. simpl in Hc, Hcc, Hsk.
  split; [exact Hv |]. split; [exact Hs |]. split; [exact Hcc |].
  split; [exact Hsk |].
  assert (Hper : c'.(config).(Period) = consortium.(Period)).
  { rewrite Hc. destruct (consortium.(Epoch) =? 0); reflexivity. }
  assert (Hep : c'.(config).(Epoch)
                = (if consortium.(Epoch) =? 0 then 30000
                   else consortium.(Epoch))).
  { rewrite Hc. destruct (consortium.(Epoch) =? 0); reflexivity. }
  assert (Hpos : 0 < c'.(config).(Epoch)).
  { rewrite Hep. destruct (Z.eqb_spec consortium.(Epoch) 0); lia. }
  split; [exact Hper |]. split; [exact Hep |]. split; [exact Hpos |].
  intros number validators Hn Hne.
  apply doCalcDifficulty_spec; assumption.
Qed.

(** *** Turns *)

(** X22.  Turns go round the validator list: at every block exactly one
    signer is in turn, at a checkpoint it is the first validator, and as long
    as no checkpoint comes in between the signer in turn at a block is in
    turn again [len(validators)] blocks later. *)
Theorem signerInTurn_round_robin (c : Consortium) (number : Z)
    (validators : list Address) :
  0 < c.(config).(Epoch) -> 0 <= number < two64 -> validators <> [] ->
  (exists a,
     a ∈ validators /\
     validators !! Z.to_nat ((number `mod` c.(config).(Epoch))
                             `mod` len validators) = Some a /\
     forall b, signerInTurn c b number validators
               = Ret (bool_decide (b = a))) /\
  (number `mod` c.(config).(Epoch) = 0 ->
   forall b, signerInTurn c b number validators
             = Ret (bool_decide (validators !! 0%nat = Some b))) /\
  (number `mod` c.(config).(Epoch) + len validators < c.(config).(Epoch) ->
   number + len validators < two64 ->
   forall b, signerInTurn c b (number + len validators) validators
             = signerInTurn c b number validators).
Proof.
  intros HE Hn Hne.
  assert (HL : 0 < len validators) by (apply len_pos_iff; exact Hne).
  assert (Hspec : forall b n, 0 <= n < two64 ->
            signerInTurn c b n validators
            = Ret (bool_decide
                     (validators !! Z.to_nat ((n `mod` c.(config).(Epoch))
                                              `mod` len validators)
                      = Some b))).
  { intros b n Hr. rewrite signerInTurn_spec by assumption.
    unfold spec_in_turn. rewrite epoch_remainder by exact HE. reflexivity. }
  split; [| split].
  - pose proof (Z.mod_pos_bound (number `mod` c.(config).(Epoch))
                  (len validators) HL) as Hidx.
    destruct (lookup_lt_is_Some_2 validators
                (Z.to_nat ((number `mod` c.(config).(Epoch))
                           `mod` len validators)))
      as [a Ha]; [unfold len in *; lia |].
    exists a. split; [eapply list_elem_of_lookup_2; exact Ha |].
    split; [exact Ha |].
    intros b. rewrite Hspec by exact Hn. rewrite Ha. f_equal.
    apply bool_decide_ext. split; [intros [= ->] | intros ->]; reflexivity.
  - intros Hm b. rewrite Hspec by exact Hn. rewrite Hm.
    rewrite Z.mod_0_l by lia. reflexivity.
  - intros Hroom Hfit b.
    pose proof (len_nonneg validators) as HLn.
    pose proof (Z.mod_pos_bound number c.(config).(Epoch) HE) as Hm.
    rewrite !Hspec by lia.
    assert (Hshift : (number + len validators) `mod` c.(config).(Epoch)
                     = number `mod` c.(config).(Epoch) + len validators).
    { rewrite <- Zplus_mod_idemp_l. apply Z.mod_small. lia. }
    rewrite Hshift.
    replace (number `mod` c.(config).(Epoch) + len validators)
      with (number `mod` c.(config).(Epoch) + 1 * len validators) by lia.
    rewrite Z.mod_add by lia. reflexivity.
Qed.

End MoreEngineProperties.

(** * More statements on the fixtures *)

Section MoreScenarios.

Import Params V1 V1More Reference MoreReference Fixtures MoreFixtures.

Lemma Ecrecover_outcomes_witness :
  @Ecrecover world1 header1 []
    = Ret (genesis2, None,
           [(fullHeaderHash header1, genesis2)]) /\
  length genesis2 = 20%nat.
Proof.
  assert (H1 : @Ecrecover world1 header1 []
               = Ret (genesis2, None,
                      [(fullHeaderHash header1,
                        genesis2)]))
    by (vm_compute; reflexivity).
  split; [exact H1 |].
  destruct (@Ecrecover_outcomes world1 _ _ _ _ _ H1)
    as [[Hhit _]|[(e & He & _)|(after & _ & _ & _ & Hlen & _)]].
  - discriminate Hhit.
  - discriminate He.
  - exact Hlen.
Defined.

Lemma Ecrecover_again_witness :
  (forall m h a, (@sigGet world1 (@sigAdd world1 m h a) h).1
                 = Some a) /\
  (forall m h a m', @sigGet world1 m h = (Some a, m') ->
                    (@sigGet world1 m' h).1 = Some a) /\
  exists sigcache'',
    @Ecrecover world1 header1
      [(fullHeaderHash header1, genesis2)]
    = Ret (genesis2, None, sigcache'').
Proof.
  assert (H1 : forall m h a,
             (@sigGet world1 (@sigAdd world1 m h a) h).1
             = Some a).
  { intros m h a. simpl. rewrite bool_decide_eq_true_2 by reflexivity.
    reflexivity. }
  assert (H2 : forall m h a m',
             @sigGet world1 m h = (Some a, m') ->
             (@sigGet world1 m' h).1 = Some a).
  { intros m h a m'. simpl. intros [= Hget <-]. exact Hget. }
  split; [exact H1 |]. split; [exact H2 |].
  apply (@Ecrecover_again world1 header1 [] _ _ H1 H2).
  vm_compute. reflexivity.
Defined.

Lemma doCalcDifficulty_verifies_witness :
  @doCalcDifficulty world1 engine1 genesis2 (Uint64 1)
    snapGenesis.(SignerList) = Ret 7 /\
  @verifySeal world1 engine1 chain1 header1 [] []
    = Ret (None, [(fullHeaderHash header1, genesis2)]).
Proof.
  assert (Hd : @doCalcDifficulty world1 engine1 genesis2 (Uint64 1)
                 snapGenesis.(SignerList) = Ret 7)
    by (vm_compute; reflexivity).
  split; [exact Hd |].
  apply (@doCalcDifficulty_verifies world1 engine1 chain1 header1 [] [] [] _
           1 7 snapGenesis genesis2).
  - vm_compute; discriminate.
  - exact Hd.
  - reflexivity.
  - vm_compute; reflexivity.
  - reflexivity.
  - vm_compute; reflexivity.
  - reflexivity.
  - apply elem_of_list_to_set, list_elem_of_further, list_elem_of_here.
  - reflexivity.
Defined.

Lemma getValidatorsFromLastCheckpoint_recents_witness :
  @getValidatorsFromLastCheckpoint world3 engine3 chain3 4 [checkpoint3]
  = @getValidatorsFromLastCheckpoint world3 engine3 chain3 4 [] /\
  @CalcDifficulty world3 engine3 chain3 12 checkpoint3 = Ret (Some 3).
Proof.
  destruct (@getValidatorsFromLastCheckpoint_recents world3 engine3 chain3 4
              12 3 [checkpoint3] checkpoint3) as [H1 H2].
  - constructor; [| constructor]. exists 3. split; reflexivity.
  - reflexivity.
  - reflexivity.
  - split; [exact H1 |]. rewrite H2. vm_compute. reflexivity.
Defined.

Lemma getValidatorsFromLastCheckpoint_epochs_witness :
  @getValidatorsFromLastCheckpoint world1 engine1 chain1 1 []
  = @getValidatorsFromGenesis world1 engine1 /\
  @getValidatorsFromLastCheckpoint world3 engine3 chain3 4 []
  = Ret (tenValidators, None) /\
  (exists header,
     ((exists n, header ∈ [] /\ header.(Number) = Some n /\ Uint64 n = 3) \/
      chain3.(GetHeaderByNumber) 3 = Some header) /\
     extraVanity + ExtraSeal <= len header.(Extra)) /\
  ~ returns (@getValidatorsFromLastCheckpoint world3 engine3 chain3 7 []).
Proof.
  assert (Hrun : @getValidatorsFromLastCheckpoint world3 engine3 chain3 4 []
                 = Ret (tenValidators, None))
    by (vm_compute; reflexivity).
  split; [| split; [exact Hrun | split]].
  - apply (proj1 (@getValidatorsFromLastCheckpoint_epochs world1 engine1
                    chain1 1 [])).
    vm_compute. split; [discriminate | reflexivity].
  - destruct (proj1 (proj2 (@getValidatorsFromLastCheckpoint_epochs world3
                              engine3 chain3 4 []))
                ltac:(vm_compute; split; [reflexivity | discriminate])
                ltac:(reflexivity) _ _ Hrun)
      as (_ & header & Hfrom & Hlen & _).
    exists header. split; [exact Hfrom | exact Hlen].
  - apply (proj2 (proj2 (@getValidatorsFromLastCheckpoint_epochs world3
                           engine3 chain3 7 []))).
    + vm_compute. split; [reflexivity | discriminate].
    + reflexivity.
    + reflexivity.
Defined.

Lemma Prepare_fields_witness :
  @Prepare world1 engine1 chain5 fresh1 = Ret (None, prepared1) /\
  prepared1.(Coinbase) = engine1.(val) /\
  prepared1.(Time) = Z.max (add64 (parentAt 0).(Time) 3) 1000.
Proof.
  assert (Hrun : @Prepare world1 engine1 chain5 fresh1 = Ret (None, prepared1))
    by (vm_compute; reflexivity).
  split; [exact Hrun |].
  destruct (@Prepare_fields world1 engine1 chain5 fresh1 prepared1 Hrun)
    as (Hcb & _ & _ & _ & (nb & validators & d & parent & Hnum & _ & _ & _
                           & Hparent & Htime) & _).
  split; [exact Hcb |].
  injection Hnum as <-. injection Hparent as <-. exact Htime.
Defined.

Lemma Prepare_extra_layout_witness :
  @Prepare world1 engine5 chain5 fresh3 = Ret (None, prepared3) /\
  len prepared3.(Extra) = extraVanity + 20 * 3 + ExtraSeal /\
  take 32 prepared3.(Extra) = replicate 32 x07.
Proof.
  assert (Hrun : @Prepare world1 engine5 chain5 fresh3 = Ret (None, prepared3))
    by (vm_compute; reflexivity).
  split; [exact Hrun |].
  destruct (@Prepare_extra_layout world1 engine5 chain5 fresh3 prepared3 Hrun)
    as (nb & Hnum & _ & _ & Htake & _ & _ & Hon).
  injection Hnum as <-.
  destruct (Hon ltac:(reflexivity)) as (vs & Hvs & _ & Hlen).
  injection Hvs as <-.
  split; [| exact Htake].
  apply Hlen. repeat constructor.
Defined.

Lemma Prepare_CalcDifficulty_witness :
  @Prepare world1 engine1 chain5 fresh1 = Ret (None, prepared1) /\
  @CalcDifficulty world1 engine1 chain5 1000 (parentAt 0) = Ret (Some 7).
Proof.
  assert (Hrun : @Prepare world1 engine1 chain5 fresh1 = Ret (None, prepared1))
    by (vm_compute; reflexivity).
  split; [exact Hrun |].
  apply (@Prepare_CalcDifficulty world1 engine1 chain5 fresh1 prepared1
           (parentAt 0) 1 0 1000 Hrun); reflexivity.
Defined.

Lemma Seal_signs_in_place_witness :
  @Seal world1 engine1 chain1 block1 [] = Ret (None, sealed1, []) /\
  @SealHash world1 sealed1 = @SealHash world1 header1Unsealed /\
  sealed1.(Extra) = unsealed header1Unsealed.(Extra) ++ replicate 65 x01.
Proof.
  assert (Hrun : @Seal world1 engine1 chain1 block1 [] = Ret (None, sealed1, []))
    by (vm_compute; reflexivity).
  split; [exact Hrun |].
  destruct (@Seal_signs_in_place world1 engine1 chain1 block1 [] [] sealed1 Hrun)
    as (_ & _ & _ & Hhash & nb & validators & snap & sign & preimage & sighash
        & _ & _ & _ & _ & _ & _ & Hrlp & Hsign & Hsig & Hextra).
  split; [exact Hhash |].
  injection Hsign as <-. injection Hsig as <-.
  apply Hextra. reflexivity.
Defined.

Lemma Seal_errors_leave_header_witness :
  @Seal world1 engine1 chain1 block0 []
    = Ret (Some ErrUnknownBlock, header0, []) /\
  @Seal world1 engine6 chain1 block1 []
    = Ret (Some (errorsNew "sealing paused while waiting for transactions"),
           header1Unsealed, []).
Proof.
  split.
  - apply (proj1 (proj2 (@Seal_errors_leave_header world1 engine1 chain1
                           block0 [])) 0); reflexivity.
  - apply (proj2 (proj2 (@Seal_errors_leave_header world1 engine6 chain1
                           block1 [])) 1).
    + reflexivity.
    + vm_compute; discriminate.
    + reflexivity.
    + reflexivity.
Defined.

Lemma VerifyHeaderAndParents_accepted_witness :
  @VerifyHeaderAndParents world1 engine1 chain7 header1 [] []
    = Ret (None, [(fullHeaderHash header1, genesis2)]) /\
  header1.(Difficulty)
    = Some (spec_difficulty snapGenesis.(SignerList) 1 30000 genesis2) /\
  fullHeaderHash header0 = header1.(ParentHash).
Proof.
  assert (Hrun : @VerifyHeaderAndParents world1 engine1 chain7 header1 [] []
                 = Ret (None, [(fullHeaderHash header1, genesis2)]))
    by (vm_compute; reflexivity).
  split; [exact Hrun |].
  destruct (@VerifyHeaderAndParents_accepted world1 engine1 chain7 header1 []
              [] _ ltac:(vm_compute; discriminate) Hrun)
    as (nb & Hnum & _ & _ & _ & _ & _ & _ & _ & _ & Hpast).
  injection Hnum as <-.
  destruct (Hpast ltac:(reflexivity))
    as (parent & pn & snap & sc1 & Hparent & _ & _ & Hhash & _ & Hsnap & _ & _
        & Hd).
  injection Hparent as <-. injection Hsnap as <- _.
  split; [exact Hd | exact Hhash].
Defined.

Lemma VerifyHeaderAndParents_genesis_witness :
  @VerifyHeaderAndParents world1 engine1 chain1 header0 [] []
    = Ret (None, []) /\
  @verifySeal world1 engine1 chain1 header0 [] []
    = Ret (Some ErrUnknownBlock, []).
Proof.
  destruct (@VerifyHeaderAndParents_genesis world1 engine1 chain1 header0 []
              [] 0 ltac:(reflexivity) ltac:(reflexivity))
    as (_ & _ & Hseal & Hacc).
  split; [| exact Hseal].
  apply Hacc.
  - vm_compute; discriminate.
  - reflexivity.
  - vm_compute; discriminate.
  - vm_compute; discriminate.
  - reflexivity.
  - reflexivity.
  - reflexivity.
  - reflexivity.
Defined.

Lemma VerifyHeaders_accepted_linked_witness :
  @VerifyHeaders world1 engine1 chain1 [header0; header1] []
    = Ret ([None; None], [(fullHeaderHash header1, genesis2)]) /\
  exists pn,
    header0.(Number) = Some pn /\ Uint64 pn = Uint64 1 - 1 /\
    fullHeaderHash header0 = header1.(ParentHash) /\
    add64 header0.(Time) 3 <= header1.(Time).
Proof.
  assert (Hrun : @VerifyHeaders world1 engine1 chain1 [header0; header1] []
                 = Ret ([None; None], [(fullHeaderHash header1, genesis2)]))
    by (vm_compute; reflexivity).
  split; [exact Hrun |].
  apply (proj2 (proj2 (@VerifyHeaders_accepted_linked world1 engine1 chain1
                         _ _ _ _ Hrun)) 0%nat header1 header0 1);
    try reflexivity.
  vm_compute; discriminate.
Defined.

Lemma New_Authorize_epoch_witness :
  exists c,
    @New world1 noForks (Some noEpoch) false (inr ErrUnknownBlock) = Ret c /\
    (@Authorize world1 c genesis2 None (inr ErrUnknownBlock)).(config).(Epoch)
      = 30000 /\
    @doCalcDifficulty world1
      (@Authorize world1 c genesis2 None (inr ErrUnknownBlock))
      genesis2 1 [genesis1; genesis2; genesis3] = Ret 7.
Proof.
  destruct (proj2 (@New_Authorize_epoch world1 noForks noEpoch false
                     (inr ErrUnknownBlock) (inr ErrUnknownBlock) genesis2 None
                     ltac:(vm_compute; discriminate)))
    as (c & Hnew & _ & _ & _ & _ & _ & Hep & _ & Hd).
  exists c. split; [exact Hnew |]. split; [exact Hep |].
  rewrite (Hd 1 [genesis1; genesis2; genesis3]
             ltac:(vm_compute; split; [discriminate | reflexivity])
             ltac:(discriminate)).
  rewrite Hep. vm_compute. reflexivity.
Defined.

Lemma signerInTurn_round_robin_witness :
  (forall b, @signerInTurn world1 engine1 b 1 [genesis1; genesis2; genesis3]
             = Ret (bool_decide (b = genesis2))) /\
  (forall b, @signerInTurn world1 engine1 b 30000 [genesis1; genesis2; genesis3]
             = Ret (bool_decide ([genesis1; genesis2; genesis3] !! 0%nat
                                 = Some b))) /\
  (forall b, @signerInTurn world1 engine1 b 4 [genesis1; genesis2; genesis3]
             = @signerInTurn world1 engine1 b 1 [genesis1; genesis2; genesis3]).
Proof.
  split; [| split].
  - destruct (proj1 (@signerInTurn_round_robin world1 engine1 1
                       [genesis1; genesis2; genesis3]
                       ltac:(reflexivity)
                       ltac:(vm_compute; split; [discriminate | reflexivity])
                       ltac:(discriminate)))
      as (a & _ & Ha & Hturn).
    injection Ha as <-. exact Hturn.
  - apply (proj1 (proj2 (@signerInTurn_round_robin world1 engine1 30000
                           [genesis1; genesis2; genesis3]
                           ltac:(reflexivity)
                           ltac:(vm_compute; split; [discriminate | reflexivity])
                           ltac:(discriminate)))).
    reflexivity.
  - apply (proj2 (proj2 (@signerInTurn_round_robin world1 engine1 1
                           [genesis1; genesis2; genesis3]
                           ltac:(reflexivity)
                           ltac:(vm_compute; split; [discriminate | reflexivity])
                           ltac:(discriminate)))); reflexivity.
Defined.

End MoreScenarios.
